(** * modular_drl_env: the composition-and-lifecycle engine

    A shallow embedding of [world/world.py] (the abstract [World] base
    class) and of [gym_env/environment.py] (the [ModularDRLEnv]
    orchestrator), with the properties of the natural-language
    specification stated and settled against it.

    Conventions.
    - Python lists are [list]; [l[i]] is [l !! i] with the [IndexError]
      of an out-of-range index written out; [l[a:b]] for non-negative
      bounds is [py_slice].
    - Python dicts with string keys are [gmap string _]; the merge
      [{**a, **b}] is [py_merge a b].
    - Objects that the code mutates through references (the robots a
      world registers) live in a store indexed by reference.
    - Calls into the physics engine and into the world, robot, sensor and
      goal plugins are recorded in a call log; what the plugins answer is
      an input of the model.
    - Floating-point quantities (rewards, timings, vector entries) are
      values of an abstract type [num] with the numpy reductions the code
      applies to them as operations of the [Numpy] interface. *)

From Stdlib Require Import ZArith Lia.
From stdpp Require Import base tactics option list functions strings gmap fin_maps.

(* ===================================================================== *)
(** * world/world.py *)
(* ===================================================================== *)

Module World.

(** The two capability flags of [Goal] that [register_robots] reads. *)
Record Goal := mkGoal {
  needs_a_position : bool;
  needs_a_rotation : bool;
}.

(** A robot object, as far as the world touches it: the [id] attribute
    [register_robots] assigns, the id of its body in the physics engine
    and the goal bound to the robot. *)
Record Robot := mkRobot {
  id : nat;
  object_id : nat;
  goal : Goal;
}.

(** Robots are Python objects handed around by reference: the three
    lists of a world hold the same objects, and [robot.id = ...] is seen
    through every one of them. *)
Definition ref := nat.
Abbreviation store := (ref → Robot).

Definition set_id (i : nat) (r : Robot) : Robot :=
  {| id := i; object_id := object_id r; goal := goal r |}.

(** The attributes of [World.__init__] that the registration and the
    collision check use. *)
Record t := mk {
  objects_ids : list nat;
  robots_in_world : list ref;
  robots_with_position : list ref;
  robots_with_orientation : list ref;
  collision : bool;
}.

(** [World.__init__] (lines 11-38): empty lists, no collision. *)
Definition init : t :=
  {| objects_ids := [];
     robots_in_world := [];
     robots_with_position := [];
     robots_with_orientation := [];
     collision := false |}.

(** The body of the [for robot in robots] loop of [register_robots]
    (lines 48-54). *)
Definition register_robot (robot : ref) (id_counter : nat)
    (h : store) (w : t) : store * t :=
  let w := {| objects_ids := objects_ids w;
              robots_in_world := robots_in_world w ++ [robot];
              robots_with_position := robots_with_position w;
              robots_with_orientation := robots_with_orientation w;
              collision := collision w |} in
  let h := <[robot := set_id id_counter (h robot)]> h in
  if needs_a_position (goal (h robot)) then
    (h, {| objects_ids := objects_ids w;
           robots_in_world := robots_in_world w;
           robots_with_position := robots_with_position w ++ [robot];
           robots_with_orientation := robots_with_orientation w;
           collision := collision w |})
  else if needs_a_rotation (goal (h robot)) then
    (h, {| objects_ids := objects_ids w;
           robots_in_world := robots_in_world w;
           robots_with_position := robots_with_position w;
           robots_with_orientation := robots_with_orientation w ++ [robot];
           collision := collision w |})
  else (h, w).

Fixpoint register_loop (robots : list ref) (id_counter : nat)
    (h : store) (w : t) : store * t :=
  match robots with
  | [] => (h, w)
  | robot :: rest =>
      let '(h, w) := register_robot robot id_counter h w in
      register_loop rest (S id_counter) h w
  end.

(** [World.register_robots] (lines 40-54). *)
Definition register_robots (robots : list ref) (h : store) (w : t) : store * t :=
  register_loop robots 0 h w.

(** [World.perform_collision_check] (lines 56-83). [contact a b] is
    [len(pyb.getContactPoints(a, b)) > 0] after the engine's detection
    pass.  A loop that sets [col] and breaks at the first contact is the
    disjunction over what it runs through. *)
Definition perform_collision_check (contact : nat → nat → bool)
    (h : store) (w : t) : t :=
  let col :=
    existsb (λ robot,
      existsb (λ obj, contact (object_id (h robot)) obj) (objects_ids w))
      (robots_in_world w) in
  let col :=
    if negb col then
      existsb (λ '(idx, robot),
        existsb (λ other_robot,
          contact (object_id (h robot)) (object_id (h other_robot)))
          (drop (idx + 1) (robots_in_world w)))
        (imap pair (take (length (robots_in_world w) - 1) (robots_in_world w)))
    else col in
  {| objects_ids := objects_ids w;
     robots_in_world := robots_in_world w;
     robots_with_position := robots_with_position w;
     robots_with_orientation := robots_with_orientation w;
     collision := col |}.

(** The classification of a robot by its goal's flags. *)
Definition wants_position (h : store) (r : ref) : Prop :=
  needs_a_position (goal (h r)) = true.
Definition wants_rotation_only (h : store) (r : ref) : Prop :=
  needs_a_position (goal (h r)) = false ∧ needs_a_rotation (goal (h r)) = true.

#[global] Instance wants_position_dec h r : Decision (wants_position h r).
Proof. unfold wants_position. apply _. Defined.
#[global] Instance wants_rotation_only_dec h r : Decision (wants_rotation_only h r).
Proof. unfold wants_rotation_only. apply _. Defined.

End World.

(* ===================================================================== *)
(** * gym_env/environment.py *)
(* ===================================================================== *)

Module Env.

(** ** Python values *)

(** The numpy operations [step] and [reset] apply to floating-point
    values.  Nothing is assumed of them. *)
Class Numpy (num : Type) := {
  np_zero : num;
  np_add : num → num → num;
  np_sub : num → num → num;
  np_sum : list num → num;
  np_average : list num → num;
  np_average_bool : list bool → num;
}.

(** [np.any] and [np.all] over a list of booleans. *)
Definition np_any (l : list bool) : bool := existsb id l.
Definition np_all (l : list bool) : bool := forallb id l.

(** [l[lo:hi]] for [0 <= lo] and [0 <= hi]: the entries at the positions
    [lo <= i < min hi (len l)], none when [hi <= lo]; never an error. *)
Definition py_slice {A} (l : list A) (lo hi : nat) : list A :=
  take (hi - lo) (drop lo l).

(** [{**a, **b}]: every key of either, the value of [b] where both have
    the key. *)
Definition py_merge {V} (a b : gmap string V) : gmap string V := b ∪ a.

(** The exceptions the orchestrator's own code can raise. *)
Inductive exn :=
| IndexError
| AttributeError
| UnboundLocalError
| Exception (msg : string).

(** What a call ends with: a value, a raised exception, or the model's
    loop budget running out (which [reset_total] rules out). *)
Inductive result (A : Type) :=
| Ok (a : A)
| Raise (e : exn)
| OutOfFuel.
Arguments Ok {A} a.
Arguments Raise {A} e.
Arguments OutOfFuel {A}.

Definition is_ok {A} (r : result A) : bool :=
  match r with Ok _ => true | _ => false end.

(** Two calls end the same way: both return, with values related by [R],
    or both raise the same exception. *)
Definition same_kind {A B} (R : A → B → Prop) (x : result A) (y : result B) : Prop :=
  match x, y with
  | Ok a, Ok b => R a b
  | Raise e1, Raise e2 => e1 = e2
  | OutOfFuel, OutOfFuel => True
  | _, _ => False
  end.

(** A [gym.spaces.Box]: bounds and shape. *)
Record Box := mkBox {
  low : Z;
  high : Z;
  shape : list nat;
}.

(** ** Plugins, as the orchestrator sees them *)

Record Robot := mkRobot {
  name : string;
  (** [get_action_space_dims()]: [(ik_dims, joints_dims)] *)
  get_action_space_dims : nat * nat;
}.

Record Sensor := mkSensor {
  sensor_add_to_observation_space : bool;
  sensor_add_to_logging : bool;
  (** [get_observation_space_element()] *)
  sensor_observation_space_element : gmap string Box;
}.

Record Goal := mkGoal {
  goal_add_to_observation_space : bool;
  goal_add_to_logging : bool;
  continue_after_success : bool;
  (** [get_observation_space_element()] *)
  goal_observation_space_element : gmap string Box;
}.

(** ** Space composition ([__init__], lines 155-179) *)

(** Lines 158-160 and 161-163: one pass over a list of plugins, merging
    the space element of each one that opts in. *)
Fixpoint merge_space_elements {P} (opts_in : P → bool)
    (element : P → gmap string Box) (plugins : list P)
    (observation_space_dict : gmap string Box) : gmap string Box :=
  match plugins with
  | [] => observation_space_dict
  | p :: rest =>
      let observation_space_dict :=
        if opts_in p then py_merge observation_space_dict (element p)
        else observation_space_dict in
      merge_space_elements opts_in element rest observation_space_dict
  end.

(** Lines 157-163: sensors first, then goals. *)
Definition compose_observation_space (sensors : list Sensor) (goals : list Goal)
    : gmap string Box :=
  let observation_space_dict := ∅ in
  let observation_space_dict :=
    merge_space_elements sensor_add_to_observation_space
      sensor_observation_space_element sensors observation_space_dict in
  merge_space_elements goal_add_to_observation_space
    goal_observation_space_element goals observation_space_dict.

(** The space elements of the plugins that opt in, in the order of the
    composition: sensors first, then goals, each in registration order. *)
Definition contributions (sensors : list Sensor) (goals : list Goal)
    : list (gmap string Box) :=
  (sensor_observation_space_element
     <$> filter (λ p, sensor_add_to_observation_space p = true) sensors)
  ++ (goal_observation_space_element
        <$> filter (λ p, goal_add_to_observation_space p = true) goals).

(** The positions, counted from [idx], of the plugins that opt in. *)
Fixpoint opted_in {P} (opts_in : P → bool) (plugins : list P) (idx : nat) : list nat :=
  match plugins with
  | [] => []
  | p :: rest =>
      if opts_in p then idx :: opted_in opts_in rest (S idx)
      else opted_in opts_in rest (S idx)
  end.

(** Lines 171-177: the selected dimensionality of every robot;
    [self.joint_control[idx]] raises when the list is too short. *)
Fixpoint compose_action_space_dims (robots : list Robot) (idx : nat)
    (joint_control : list bool) (action_space_dims : list nat)
    : result (list nat) :=
  match robots with
  | [] => Ok action_space_dims
  | robot :: rest =>
      let '(ik_dims, joints_dims) := get_action_space_dims robot in
      match joint_control !! idx with
      | None => Raise IndexError
      | Some true =>
          compose_action_space_dims rest (S idx) joint_control
            (action_space_dims ++ [joints_dims])
      | Some false =>
          compose_action_space_dims rest (S idx) joint_control
            (action_space_dims ++ [ik_dims])
      end
  end.

(** Line 179. *)
Definition compose_action_space (action_space_dims : list nat) : Box :=
  {| low := (-1)%Z; high := 1%Z; shape := [sum_list action_space_dims] |}.

Section Orchestrator.
Context {num : Type} `{!Numpy num}.

(** A value stored under a key of an observation or of a log record. *)
Inductive value :=
| VBool (b : bool)
| VInt (n : nat)
| VNum (x : num)
| VArray (a : list num).

(** A constraint on one robot's end effector at episode start, as
    [create_ee_starting_points] returns it: a pair of a point or [None]
    and a quaternion or [None]. *)
Definition ee_constraint : Type := option (list num) * option (list num).

(** The 5-tuple a goal's [reward] returns. *)
Record RewardInfo := mkRewardInfo {
  ri_reward : num;
  ri_success : bool;
  ri_done : bool;
  ri_timeout : bool;
  ri_out_of_bounds : bool;
}.

(** ** The call log *)

(** Every call the orchestrator makes into the physics engine, the world,
    a robot, a sensor or a goal (numbered by position in [self.robots],
    [self.sensors], [self.goals]), and its console and file output. *)
Inductive Call :=
| PybConfigureRendering (on : bool)
| PybResetSimulation
| WorldReset
| WorldBuild
| WorldUpdate
| WorldCreateEeStartingPoints
| WorldCreatePositionTarget
| WorldCreateRotationTarget
| WorldPerformCollisionCheck
| WorldBuildVisualAux
| RobotBuild (idx : nat)
| RobotMovetoXyz (idx : nat) (xyz : list num)
| RobotMovetoXyzquat (idx : nat) (xyz quat : list num)
| RobotProcessAction (idx : nat) (action : list num)
| SensorReset (idx : nat)
| SensorUpdate (idx : nat)
| SensorGetObservation (idx : nat)
| SensorGetDataForLogging (idx : nat)
| GoalOnEnvReset (idx : nat) (success_rate : num)
| GoalReward (idx : nat) (step : nat)
| GoalGetObservation (idx : nat)
| GoalGetDataForLogging (idx : nat)
| GoalBuildVisualAux (idx : nat)
| Print (info : gmap string value)
| WriteLog (log : list (gmap string value)).

(** What the outside answers during one call of [reset] or [step]. *)
Record Oracle := mkOracle {
  (** [time()] *)
  time : num;
  (** [world.create_ee_starting_points()] in attempt [k] of a reset *)
  create_ee_starting_points : nat → list ee_constraint;
  (** [world.collision] after the [k]-th collision check of the call *)
  collision_check : nat → bool;
  (** [goal.on_env_reset(rate)] of goal [idx] *)
  on_env_reset : nat → num → num;
  (** [robot.process_action(a)] of robot [idx] *)
  process_action : nat → list num → num;
  (** [goal.reward(step)] of goal [idx] *)
  reward_of : nat → RewardInfo;
  sensor_get_observation : nat → gmap string value;
  goal_get_observation : nat → gmap string value;
  sensor_get_data_for_logging : nat → gmap string value;
  goal_get_data_for_logging : nat → gmap string value;
}.

(** ** The environment object *)

(** The attributes [__init__] sets and nothing reassigns. *)
Record Config := mkConfig {
  normalize_rewards : bool;
  show_auxillary_geometry_world : bool;
  show_auxillary_geometry_goal : bool;
  logging : nat;
  stat_buffer_size : nat;
  sim_step : num;
  robots : list Robot;
  sensors : list Sensor;
  goals : list Goal;
  observation_space : gmap string Box;
  action_space_dims : list nat;
  action_space : Box;
}.

(** The attributes [reset] and [step] assign.  [active_robots] does not
    exist before the first [reset]; [world_collision] is the [collision]
    attribute of the world. *)
Record State := mkState {
  steps_current_episode : nat;
  sim_time : num;
  cpu_time : num;
  cpu_epoch : num;
  log : list (gmap string value);
  success_stat : list bool;
  out_of_bounds_stat : list bool;
  timeout_stat : list bool;
  collision_stat : list bool;
  goal_metrics : list num;
  reward : num;
  reward_cumulative : num;
  active_robots : option (list bool);
  world_collision : bool;
}.

(** The plugins and options [__init__] is given.  (The prototype builds
    one robot, three sensors and one goal by hand where the configuration
    parser will stand; every loop of the orchestrator runs over the lists
    whatever they hold.) *)
Record InitArgs := mkInitArgs {
  arg_normalize_rewards : bool;
  arg_display_extra : bool;
  arg_logging : nat;
  arg_sim_step : num;
  arg_joint_control : list bool;
  arg_robots : list Robot;
  arg_sensors : list Sensor;
  arg_goals : list Goal;
}.

(** [__init__], the immutable part (lines 32-41, 70-179). *)
Definition init (a : InitArgs) : result Config :=
  let observation_space_dict :=
    compose_observation_space (arg_sensors a) (arg_goals a) in
  match compose_action_space_dims (arg_robots a) 0 (arg_joint_control a) [] with
  | Ok dims =>
      Ok {| normalize_rewards := arg_normalize_rewards a;
            show_auxillary_geometry_world := arg_display_extra a;
            show_auxillary_geometry_goal := arg_display_extra a;
            logging := arg_logging a;
            stat_buffer_size := 25;
            sim_step := arg_sim_step a;
            robots := arg_robots a;
            sensors := arg_sensors a;
            goals := arg_goals a;
            observation_space := observation_space_dict;
            action_space_dims := dims;
            action_space := compose_action_space dims |}
  | Raise e => Raise e
  | OutOfFuel => OutOfFuel
  end.

(** [__init__], the tracking variables (lines 44-55); [now] is [time()]. *)
Definition init_state (now : num) : State :=
  {| steps_current_episode := 0;
     sim_time := np_zero;
     cpu_time := np_zero;
     cpu_epoch := now;
     log := [];
     success_stat := [false];
     out_of_bounds_stat := [false];
     timeout_stat := [false];
     collision_stat := [false];
     goal_metrics := [];
     reward := np_zero;
     reward_cumulative := np_zero;
     active_robots := None;
     world_collision := false |}.

(** ** Field updates of the state *)

Definition set_active_robots (v : option (list bool)) (s : State) : State :=
  {| steps_current_episode := steps_current_episode s;
     sim_time := sim_time s; cpu_time := cpu_time s; cpu_epoch := cpu_epoch s;
     log := log s;
     success_stat := success_stat s;
     out_of_bounds_stat := out_of_bounds_stat s;
     timeout_stat := timeout_stat s;
     collision_stat := collision_stat s;
     goal_metrics := goal_metrics s;
     reward := reward s; reward_cumulative := reward_cumulative s;
     active_robots := v;
     world_collision := world_collision s |}.

Definition set_world_collision (v : bool) (s : State) : State :=
  {| steps_current_episode := steps_current_episode s;
     sim_time := sim_time s; cpu_time := cpu_time s; cpu_epoch := cpu_epoch s;
     log := log s;
     success_stat := success_stat s;
     out_of_bounds_stat := out_of_bounds_stat s;
     timeout_stat := timeout_stat s;
     collision_stat := collision_stat s;
     goal_metrics := goal_metrics s;
     reward := reward s; reward_cumulative := reward_cumulative s;
     active_robots := active_robots s;
     world_collision := v |}.

Definition set_goal_metrics (v : list num) (s : State) : State :=
  {| steps_current_episode := steps_current_episode s;
     sim_time := sim_time s; cpu_time := cpu_time s; cpu_epoch := cpu_epoch s;
     log := log s;
     success_stat := success_stat s;
     out_of_bounds_stat := out_of_bounds_stat s;
     timeout_stat := timeout_stat s;
     collision_stat := collision_stat s;
     goal_metrics := v;
     reward := reward s; reward_cumulative := reward_cumulative s;
     active_robots := active_robots s;
     world_collision := world_collision s |}.

Definition set_log (v : list (gmap string value)) (s : State) : State :=
  {| steps_current_episode := steps_current_episode s;
     sim_time := sim_time s; cpu_time := cpu_time s; cpu_epoch := cpu_epoch s;
     log := v;
     success_stat := success_stat s;
     out_of_bounds_stat := out_of_bounds_stat s;
     timeout_stat := timeout_stat s;
     collision_stat := collision_stat s;
     goal_metrics := goal_metrics s;
     reward := reward s; reward_cumulative := reward_cumulative s;
     active_robots := active_robots s;
     world_collision := world_collision s |}.

(** Lines 186-192 of [reset]. *)
Definition reset_tracking (now : num) (s : State) : State :=
  {| steps_current_episode := 0;
     sim_time := np_zero; cpu_time := np_zero; cpu_epoch := now;
     log := [];
     success_stat := success_stat s;
     out_of_bounds_stat := out_of_bounds_stat s;
     timeout_stat := timeout_stat s;
     collision_stat := collision_stat s;
     goal_metrics := goal_metrics s;
     reward := np_zero; reward_cumulative := np_zero;
     active_robots := active_robots s;
     world_collision := world_collision s |}.

(** Lines 332-337 of [step]: [self.reward = r] and
    [self.reward_cumulative += self.reward]. *)
Definition set_reward (r : num) (s : State) : State :=
  {| steps_current_episode := steps_current_episode s;
     sim_time := sim_time s; cpu_time := cpu_time s; cpu_epoch := cpu_epoch s;
     log := log s;
     success_stat := success_stat s;
     out_of_bounds_stat := out_of_bounds_stat s;
     timeout_stat := timeout_stat s;
     collision_stat := collision_stat s;
     goal_metrics := goal_metrics s;
     reward := r; reward_cumulative := np_add (reward_cumulative s) r;
     active_robots := active_robots s;
     world_collision := world_collision s |}.

(** Lines 340-342 of [step]. *)
Definition advance_tracking (step_size now : num) (s : State) : State :=
  {| steps_current_episode := steps_current_episode s + 1;
     sim_time := np_add (sim_time s) step_size;
     cpu_time := np_sub now (cpu_epoch s);
     cpu_epoch := cpu_epoch s;
     log := log s;
     success_stat := success_stat s;
     out_of_bounds_stat := out_of_bounds_stat s;
     timeout_stat := timeout_stat s;
     collision_stat := collision_stat s;
     goal_metrics := goal_metrics s;
     reward := reward s; reward_cumulative := reward_cumulative s;
     active_robots := active_robots s;
     world_collision := world_collision s |}.

(** ** The rolling stat buffers *)

(** [stat.append(x)] followed by [if len(stat) > size: stat.pop(0)]. *)
Definition push_stat (size : nat) (stat : list bool) (x : bool) : list bool :=
  let stat := stat ++ [x] in
  if size <? length stat then drop 1 stat else stat.

(** The environment-level signals of one step (lines 323-327). *)
Record Termination := mkTermination {
  done : bool;
  is_success : bool;
  timeout : bool;
  out_of_bounds : bool;
}.

Definition aggregate (collision : bool) (infos : list RewardInfo) : Termination :=
  {| done := np_any (ri_done <$> infos) || collision;
     is_success := np_all (ri_success <$> infos);
     timeout := np_any (ri_timeout <$> infos);
     out_of_bounds := np_any (ri_out_of_bounds <$> infos) |}.

(** Lines 344-355 of [step]. *)
Definition push_stats (size : nat) (t : Termination) (collision : bool)
    (s : State) : State :=
  {| steps_current_episode := steps_current_episode s;
     sim_time := sim_time s; cpu_time := cpu_time s; cpu_epoch := cpu_epoch s;
     log := log s;
     success_stat := push_stat size (success_stat s) (is_success t);
     out_of_bounds_stat := push_stat size (out_of_bounds_stat s) (out_of_bounds t);
     timeout_stat := push_stat size (timeout_stat s) (timeout t);
     collision_stat := push_stat size (collision_stat s) collision;
     goal_metrics := goal_metrics s;
     reward := reward s; reward_cumulative := reward_cumulative s;
     active_robots := active_robots s;
     world_collision := world_collision s |}.

(** Each of the four stat buffers holds [n] entries. *)
Definition stat_lengths_are (n : nat) (s : State) : Prop :=
  length (success_stat s) = n ∧
  length (timeout_stat s) = n ∧
  length (out_of_bounds_stat s) = n ∧
  length (collision_stat s) = n.

(** ** Calls that mutate the object, log what they call, and may raise *)

Definition M (A : Type) : Type := State → list Call * State * result A.

Definition ret {A} (a : A) : M A := λ s, ([], s, Ok a).

Definition bind {A B} (m : M A) (f : A → M B) : M B := λ s,
  match m s with
  | (c1, s1, Ok a) => let '(c2, s2, r) := f a s1 in (c1 ++ c2, s2, r)
  | (c1, s1, Raise e) => (c1, s1, Raise e)
  | (c1, s1, OutOfFuel) => (c1, s1, OutOfFuel)
  end.

#[global] Instance M_ret : MRet M := @ret.
#[global] Instance M_bind : MBind M := λ A B f m, bind m f.

Definition raise {A} (e : exn) : M A := λ s, ([], s, Raise e).
Definition out_of_fuel {A} : M A := λ s, ([], s, OutOfFuel).
Definition call (c : Call) : M unit := λ s, ([c], s, Ok tt).
Definition get : M State := λ s, ([], s, Ok s).
Definition modify (f : State → State) : M unit := λ s, ([], f s, Ok tt).

(** [l[idx]] for [0 <= idx]. *)
Definition index {A} (l : list A) (idx : nat) : M A :=
  match l !! idx with
  | Some x => ret x
  | None => raise IndexError
  end.

(** [self.active_robots]. *)
Definition get_active_robots : M (list bool) :=
  s ← get;
  match active_robots s with
  | Some l => ret l
  | None => raise AttributeError
  end.

(** [for idx, x in enumerate(l): body], counting from [idx]. *)
Fixpoint for_each {A} (l : list A) (idx : nat) (body : nat → A → M unit) : M unit :=
  match l with
  | [] => ret tt
  | x :: rest => body idx x ;; for_each rest (S idx) body
  end.

(** The four loops that merge what the opted-in plugins report into one
    dict (lines 268-273 and 376-382). *)
Fixpoint merge_values {P} (opts_in : P → bool) (asks : nat → Call)
    (answer : nat → gmap string value) (plugins : list P) (idx : nat)
    (d : gmap string value) : M (gmap string value) :=
  match plugins with
  | [] => ret d
  | p :: rest =>
      if opts_in p then
        call (asks idx) ;;
        merge_values opts_in asks answer rest (S idx) (py_merge d (answer idx))
      else merge_values opts_in asks answer rest (S idx) d
  end.

(** [world.perform_collision_check()], the [k]-th of the call. *)
Definition perform_collision_check (o : Oracle) (k : nat) : M unit :=
  call WorldPerformCollisionCheck ;;
  modify (set_world_collision (collision_check o k)).

(** ** What a call may do *)

(** From the state [s], [m] logs only calls that satisfy [P], ends in a
    state related to [s] by [R], and does not run out of budget. *)
Definition safe_at {A} (P : Call → Prop) (R : State → State → Prop)
    (m : M A) (s : State) : Prop :=
  Forall P (m s).1.1 ∧ R s (m s).1.2 ∧ (m s).2 ≠ OutOfFuel.

Definition safe {A} (P : Call → Prop) (R : State → State → Prop) (m : M A) : Prop :=
  ∀ s, safe_at P R m s.

(** [m] returns a value that satisfies [Q], whatever the state it is
    called in. *)
Definition returns {A} (Q : A → Prop) (m : M A) : Prop :=
  ∀ s, ∃ c s' a, m s = (c, s', Ok a) ∧ Q a.

(** The part [f] of the object is left as it is. *)
Definition agree_on {X} (f : State → X) (s s' : State) : Prop := f s' = f s.

(** The four stat buffers. *)
Definition stats_of (s : State) : list bool * list bool * list bool * list bool :=
  (success_stat s, out_of_bounds_stat s, timeout_stat s, collision_stat s).

(** The tracking variables of an episode. *)
Definition tracking_of (s : State)
    : nat * num * num * num * list (gmap string value) * num * num :=
  (steps_current_episode s, sim_time s, cpu_time s, cpu_epoch s, log s,
   reward s, reward_cumulative s).

(** Classes of calls. *)
Definition is_process_action_of (idx : nat) (c : Call) : Prop :=
  match c with RobotProcessAction i _ => i = idx | _ => False end.

Definition is_process_action (c : Call) : Prop :=
  match c with RobotProcessAction _ _ => True | _ => False end.

Definition is_teleport (c : Call) : bool :=
  match c with
  | RobotMovetoXyz _ _ | RobotMovetoXyzquat _ _ _ => true
  | _ => false
  end.

Definition is_collision_check (c : Call) : bool :=
  match c with WorldPerformCollisionCheck => true | _ => false end.

(** The rendering switch (lines 183 and 261). *)
Definition is_rendering (c : Call) : bool :=
  match c with PybConfigureRendering _ => true | _ => false end.

(** Console and file output (lines 390 and 393-396). *)
Definition is_output (c : Call) : bool :=
  match c with Print _ | WriteLog _ => true | _ => false end.

(** The number of initialization attempts a call log shows: every attempt
    that runs to its end makes one collision check. *)
Definition attempts (calls : list Call) : nat :=
  length (List.filter is_collision_check calls).

(** The flag of robot [idx] in [self.active_robots]. *)
Definition active (s : State) (idx : nat) : option bool :=
  active_robots s ≫= (.!! idx).

(** What one call of [step] may do to [self.active_robots]: the list
    keeps its length, and a flag stays as it is or goes from true to
    false, the latter only for a robot whose goal reports success and does
    not continue after success. *)
Definition deactivation_only (goals : list Goal) (o : Oracle) (s s' : State) : Prop :=
  ∀ l, active_robots s = Some l →
    ∃ l', active_robots s' = Some l' ∧ length l' = length l ∧
      ∀ idx, l' !! idx = l !! idx ∨
        (l !! idx = Some true ∧ l' !! idx = Some false ∧
         ∃ goal, goals !! idx = Some goal ∧
                 continue_after_success goal = false ∧
                 ri_success (reward_of o idx) = true).

Section Methods.
Variable cfg : Config.

(** ** [_get_obs] (lines 265-277) *)

Definition _get_obs (o : Oracle) : M (gmap string value) :=
  let obs_dict := ∅ in
  obs_dict ← merge_values sensor_add_to_observation_space SensorGetObservation
                (sensor_get_observation o) (sensors cfg) 0 obs_dict;
  obs_dict ← merge_values goal_add_to_observation_space GoalGetObservation
                (goal_get_observation o) (goals cfg) 0 obs_dict;
  ret obs_dict.

(** ** [step] (lines 279-398) *)

(** Lines 288-296: the robots that are active get their part of the
    action vector. *)
Fixpoint apply_actions (o : Oracle) (action : list num) (robots : list Robot)
    (idx offset : nat) (exec_times_cpu : list num) : M (list num) :=
  match robots with
  | [] => ret exec_times_cpu
  | robot :: rest =>
      active_robots ← get_active_robots;
      active ← index active_robots idx;
      if negb active then
        apply_actions o action rest (S idx) offset exec_times_cpu
      else
        dims ← index (action_space_dims cfg) idx;
        let current_robot_action := py_slice action offset (dims + offset) in
        let offset := offset + dims in
        call (RobotProcessAction idx current_robot_action) ;;
        let exec_time := process_action o idx current_robot_action in
        apply_actions o action rest (S idx) offset (exec_times_cpu ++ [exec_time])
  end.

(** Line 317: [self.active_robots[idx] = False]. *)
Definition deactivate (idx : nat) : M unit :=
  active_robots ← get_active_robots;
  if idx <? length active_robots then
    modify (set_active_robots (Some (<[idx := false]> active_robots)))
  else raise IndexError.

(** Lines 311-320: every goal is asked for its reward tuple; the tuples
    are kept in goal order ([rewards], [successes], [dones], [timeouts]
    and [oobs] are their five projections). *)
Fixpoint collect_rewards (o : Oracle) (goals : list Goal) (idx : nat)
    (infos : list RewardInfo) : M (list RewardInfo) :=
  match goals with
  | [] => ret infos
  | goal :: rest =>
      s ← get;
      call (GoalReward idx (steps_current_episode s)) ;;
      let reward_info := reward_of o idx in
      (if ri_success reward_info && negb (continue_after_success goal)
       then deactivate idx else ret tt) ;;
      collect_rewards o rest (S idx) (infos ++ [reward_info])
  end.

(** Lines 373-374: [info["action_cpu_time_" + robot.name] =
    exec_times_cpu[idx]] for every robot. *)
Fixpoint add_action_cpu_times (robots : list Robot) (idx : nat)
    (exec_times_cpu : list num) (info : gmap string value)
    : M (gmap string value) :=
  match robots with
  | [] => ret info
  | robot :: rest =>
      exec_time ← index exec_times_cpu idx;
      add_action_cpu_times rest (S idx) exec_times_cpu
        (<["action_cpu_time_" +:+ name robot := VNum exec_time]> info)
  end.

(** Lines 364-371: the environment-wide entries of the [info] record. *)
Definition env_wide_info (t : Termination) (s : State) : gmap string value :=
  {[ "is_success" := VBool (is_success t);
     "step" := VInt (steps_current_episode s);
     "success_rate" := VNum (np_average_bool (success_stat s));
     "out_of_bounds_rate" := VNum (np_average_bool (out_of_bounds_stat s));
     "timeout_rate" := VNum (np_average_bool (timeout_stat s));
     "collision_rate" := VNum (np_average_bool (collision_stat s));
     "sim_time" := VNum (sim_time s);
     "cpu_time" := VNum (cpu_time s) ]}.

(** Lines 357-396: the [info] record; [None] stands for the local
    variable never having been assigned. *)
Definition make_info (o : Oracle) (t : Termination) (exec_times_cpu : list num)
    : M (option (gmap string value)) :=
  let info := if logging cfg =? 0 then Some ∅ else None in
  if (logging cfg =? 1) || (logging cfg =? 2) then
    s ← get;
    let info : gmap string value :=
      {[ "is_success" := VBool (is_success t);
         "step" := VInt (steps_current_episode s);
         "success_rate" := VNum (np_average_bool (success_stat s));
         "out_of_bounds_rate" := VNum (np_average_bool (out_of_bounds_stat s));
         "timeout_rate" := VNum (np_average_bool (timeout_stat s));
         "collision_rate" := VNum (np_average_bool (collision_stat s));
         "sim_time" := VNum (sim_time s);
         "cpu_time" := VNum (cpu_time s) ]} in
    info ← add_action_cpu_times (robots cfg) 0 exec_times_cpu info;
    info ← merge_values sensor_add_to_logging SensorGetDataForLogging
             (sensor_get_data_for_logging o) (sensors cfg) 0 info;
    info ← merge_values goal_add_to_logging GoalGetDataForLogging
             (goal_get_data_for_logging o) (goals cfg) 0 info;
    modify (λ s, set_log (log s ++ [info]) s) ;;
    (if done t then
       call (Print info) ;;
       if logging cfg =? 2 then
         s ← get; call (WriteLog (log s))
       else ret tt
     else ret tt) ;;
    ret (Some info)
  else ret info.

(** Lines 281-320: the world moves, the active robots act, the sensors
    read, collisions are checked and the goals score. *)
Definition act_and_score (o : Oracle) (action : list num)
    : M (list num * list RewardInfo) :=
  call WorldUpdate ;;
  exec_times_cpu ← apply_actions o action (robots cfg) 0 0 [] ;
  for_each (sensors cfg) 0 (λ idx _, call (SensorUpdate idx)) ;;
  perform_collision_check o 0 ;;
  infos ← collect_rewards o (goals cfg) 0 [] ;
  ret (exec_times_cpu, infos).

(** Lines 322-355: the signals are aggregated, the reward, the tracking
    variables and the stat buffers updated. *)
Definition account (o : Oracle) (infos : list RewardInfo) : M Termination :=
  s ← get;
  let collision := world_collision s in
  let t := aggregate collision infos in
  let rewards := ri_reward <$> infos in
  modify (set_reward (if normalize_rewards cfg then np_average rewards
                      else np_sum rewards)) ;;
  modify (advance_tracking (sim_step cfg) (time o)) ;;
  (if done t then modify (push_stats (stat_buffer_size cfg) t collision)
   else ret tt) ;;
  ret t.

(** Lines 357-398: the [info] record is built and the result returned. *)
Definition report (o : Oracle) (t : Termination) (exec_times_cpu : list num)
    : M (gmap string value * num * bool * gmap string value) :=
  info ← make_info o t exec_times_cpu ;
  obs ← _get_obs o ;
  s ← get;
  match info with
  | Some info => ret (obs, reward s, done t, info)
  | None => raise UnboundLocalError
  end.

Definition step (o : Oracle) (action : list num)
    : M (gmap string value * num * bool * gmap string value) :=
  '(exec_times_cpu, infos) ← act_and_score o action ;
  t ← account o infos ;
  report o t exec_times_cpu.

(** Whether a call of [step] gets as far as line 343 with [done] true,
    so that lines 344-355 push on the stat buffers. *)
Definition pushes_stats (o : Oracle) (action : list num) (s : State) : bool :=
  match act_and_score o action s with
  | (_, s, Ok (_, infos)) => done (aggregate (world_collision s) infos)
  | _ => false
  end.

(** Whether a call of [step] returns, and returns [done] true. *)
Definition returns_done (o : Oracle) (action : list num) (s : State) : bool :=
  match (step o action s).2 with
  | Ok (_, _, d, _) => d
  | _ => false
  end.

(** ** [_get_info_string] (lines 400-423) *)

(** How Python writes a number: [str(round(x, 3))], ["{:.2e}".format(x)]
    and the test [x > 0.01], for a float; [str(n)] and
    ["{:.2e}".format(n)] for an int (rounding an int gives the int, and an
    int is above 0.01 exactly when it is positive). *)
Record Formatter := mkFormatter {
  str_round : num → string;
  format_2e : num → string;
  above_hundredth : num → bool;
  str_int : nat → string;
  format_2e_int : nat → string;
}.

(** [s[:-1]]. *)
Fixpoint py_drop_last (s : string) : string :=
  match s with
  | EmptyString => EmptyString
  | String c rest =>
      match rest with
      | EmptyString => EmptyString
      | String _ _ => String c (py_drop_last rest)
      end
  end.

(** ["time" in key]. *)
Definition mentions_time (key : string) : bool :=
  match String.index 0 "time" key with Some _ => true | None => false end.

(** Lines 409-411: the loop over the elements of an array. *)
Definition array_elements (f : Formatter) (a : list num) : string :=
  foldl (λ to_print ele, to_print +:+ (str_round f ele +:+ " ")) "" a.

(** Lines 408-421: the text of one value. *)
Definition to_print (f : Formatter) (key : string) (v : value) : string :=
  match v with
  | VArray a => py_drop_last (array_elements f a)
  | VBool b => if b then "1" else "0"
  | VInt n =>
      if mentions_time key then
        if 0 <? n then str_int f n else format_2e_int f n
      else str_int f n
  | VNum x =>
      if mentions_time key then
        if above_hundredth f x then str_round f x else format_2e f x
      else str_round f x
  end.

(** Lines 405-422: the loop over the keys of the record, in the order of
    the dict. *)
Definition info_entries (f : Formatter) (info : list (string * value)) : string :=
  foldl (λ info_string '(key, v),
           info_string +:+ (key +:+ ": " +:+ to_print f key v +:+ ", "))
    "" info.

Definition _get_info_string (f : Formatter) (info : list (string * value)) : string :=
  py_drop_last (info_entries f info).

(** ** [reset] (lines 181-263) *)

(** Lines 224-232: the starting constraints are applied to the robots. *)
Definition teleport (idx : nat) (ee_pos : ee_constraint) : M unit :=
  match ee_pos with
  | (None, _) => ret tt
  | (Some xyz, None) =>
      index (robots cfg) idx ;; call (RobotMovetoXyz idx xyz)
  | (Some xyz, Some quat) =>
      index (robots cfg) idx ;; call (RobotMovetoXyzquat idx xyz quat)
  end.

(** Lines 203-235: one pass through the body of the [while True] loop,
    up to the collision check; the answer is [self.world.collision]. *)
Definition attempt (o : Oracle) (reset_count : nat) : M bool :=
  call PybResetSimulation ;;
  call WorldReset ;;
  for_each (robots cfg) 0 (λ idx _, call (RobotBuild idx)) ;;
  call WorldCreateEeStartingPoints ;;
  let ee_starting_points := create_ee_starting_points o reset_count in
  call WorldCreatePositionTarget ;;
  call WorldCreateRotationTarget ;;
  call WorldBuild ;;
  for_each ee_starting_points 0 teleport ;;
  perform_collision_check o reset_count ;;
  s ← get;
  ret (world_collision s).

(** The calls of an attempt up to and with its teleports [tele]. *)
Definition attempt_prefix (tele : list Call) : list Call :=
  [PybResetSimulation; WorldReset]
  ++ (RobotBuild <$> seq 0 (length (robots cfg)))
  ++ [WorldCreateEeStartingPoints; WorldCreatePositionTarget;
      WorldCreateRotationTarget; WorldBuild]
  ++ tele.

Definition no_start_found : string :=
  "Could not find collision-free starting setup after 1000 tries. Maybe check your world generation code.".

(** Lines 198-239: the [while True] loop; [fuel] bounds the number of
    passes the model may make. *)
Fixpoint reset_loop (fuel : nat) (o : Oracle) (reset_count : nat) : M unit :=
  match fuel with
  | 0 => out_of_fuel
  | S fuel =>
      if 1000 <? reset_count then raise (Exception no_start_found)
      else
        collision ← attempt o reset_count;
        if negb collision then ret tt
        else reset_loop fuel o (reset_count + 1)
  end.

(** Lines 241-263: once a collision-free start is found, the robots are
    set active, the sensors reset, the goals told, the decorations built
    and the first observation taken. *)
Definition finish_reset (o : Oracle) : M (gmap string value) :=
  modify (set_active_robots (Some ((λ _, true) <$> robots cfg))) ;;
  for_each (sensors cfg) 0 (λ idx _, call (SensorReset idx)) ;;
  modify (set_goal_metrics []) ;;
  for_each (goals cfg) 0 (λ idx _,
    s ← get;
    let rate := np_average_bool (success_stat s) in
    call (GoalOnEnvReset idx rate) ;;
    modify (set_goal_metrics (goal_metrics s ++ [on_env_reset o idx rate]))) ;;
  (if show_auxillary_geometry_world cfg then call WorldBuildVisualAux
   else ret tt) ;;
  (if show_auxillary_geometry_goal cfg then
     for_each (goals cfg) 0 (λ idx _, call (GoalBuildVisualAux idx))
   else ret tt) ;;
  call (PybConfigureRendering true) ;;
  _get_obs o.

Definition reset_with_fuel (fuel : nat) (o : Oracle) : M (gmap string value) :=
  call (PybConfigureRendering false) ;;
  modify (reset_tracking (time o)) ;;
  reset_loop fuel o 0 ;;
  finish_reset o.

(** A budget that the loop cannot use up: the guard of line 200 ends it
    after at most 1002 passes. *)
Definition reset_fuel : nat := 1002.

Definition reset (o : Oracle) : M (gmap string value) :=
  reset_with_fuel reset_fuel o.

(** ** Sequences of calls *)

(** A caller's use of the environment: calls of [reset] and [step], each
    with what the outside answers during it.  An exception ends a call;
    the object keeps what the call had assigned up to then. *)
Inductive Event :=
| DoReset (o : Oracle)
| DoStep (o : Oracle) (action : list num).

Definition run_event (e : Event) (s : State) : list Call * State :=
  match e with
  | DoReset o => let '(c, s, _) := reset o s in (c, s)
  | DoStep o action => let '(c, s, _) := step o action s in (c, s)
  end.

Fixpoint run (es : list Event) (s : State) : list Call * State :=
  match es with
  | [] => ([], s)
  | e :: es =>
      let '(c1, s1) := run_event e s in
      let '(c2, s2) := run es s1 in
      (c1 ++ c2, s2)
  end.

(** The number of calls of [step] in a sequence of calls that pushed on
    the stat buffers. *)
Fixpoint stat_pushes (es : list Event) (s : State) : nat :=
  match es with
  | [] => 0
  | e :: es =>
      (match e with
       | DoStep o action => if pushes_stats o action s then 1 else 0
       | DoReset _ => 0
       end) + stat_pushes es (run_event e s).2
  end.

(** The number of calls of [step] in a sequence of calls that returned
    [done] true. *)
Fixpoint done_returned (es : list Event) (s : State) : nat :=
  match es with
  | [] => 0
  | e :: es =>
      (match e with
       | DoStep o action => if returns_done o action s then 1 else 0
       | DoReset _ => 0
       end) + done_returned es (run_event e s).2
  end.

(** No call of [step] in the sequence raises. *)
Fixpoint steps_return (es : list Event) (s : State) : bool :=
  match es with
  | [] => true
  | e :: es =>
      (match e with
       | DoStep o action => is_ok (step o action s).2
       | DoReset _ => true
       end) && steps_return es (run_event e s).2
  end.

(** The episodes of the specification: an episode is one bounded run from
    [reset()] to a terminal [done = true] step.  [running] says that a
    [reset] has returned and no call of [step] has returned [done] since;
    the count is of the runs that have reached their terminal step. *)
Fixpoint episodes_completed_from (running : bool) (es : list Event) (s : State)
    : nat :=
  match es with
  | [] => 0
  | e :: es =>
      let s' := (run_event e s).2 in
      match e with
      | DoReset o => episodes_completed_from (is_ok (reset o s).2) es s'
      | DoStep o action =>
          if running && returns_done o action s
          then 1 + episodes_completed_from false es s'
          else episodes_completed_from running es s'
      end
  end.

Definition episodes_completed (es : list Event) (s : State) : nat :=
  episodes_completed_from false es s.

(** Calls of [step] only: what happens within one episode. *)
Definition is_step (e : Event) : Prop :=
  match e with DoStep _ _ => True | DoReset _ => False end.

End Methods.

End Orchestrator.

End Env.

(* ===================================================================== *)
(** * Concrete environments *)
(* ===================================================================== *)

(** Inputs on which the model is run: integers stand for the floating-point
    values (averages rounded down, in percent for booleans). *)
Module Examples.
Import Env.

#[global] Instance numpy_Z : Numpy Z := {|
  np_zero := 0%Z;
  np_add := Z.add;
  np_sub := Z.sub;
  np_sum := foldr Z.add 0%Z;
  np_average := λ l, (foldr Z.add 0 l / Z.of_nat (length l))%Z;
  np_average_bool := λ l,
    (100 * Z.of_nat (length (filter (λ b, b = true) l)) / Z.of_nat (length l))%Z;
|}.

Definition robot_a : Robot := {| name := "ur5_1"; get_action_space_dims := (2, 6) |}.
Definition robot_b : Robot := {| name := "ur5_2"; get_action_space_dims := (3, 6) |}.

Definition box (n : nat) : Box := {| low := (-1)%Z; high := 1%Z; shape := [n] |}.

Definition joints_sensor : Sensor :=
  {| sensor_add_to_observation_space := true;
     sensor_add_to_logging := true;
     sensor_observation_space_element := {[ "joints" := box 6 ]} |}.

Definition pose_sensor : Sensor :=
  {| sensor_add_to_observation_space := true;
     sensor_add_to_logging := true;
     sensor_observation_space_element := {[ "pose" := box 7 ]} |}.

(** A second sensor that reports under the key [joints] as well. *)
Definition other_joints_sensor : Sensor :=
  {| sensor_add_to_observation_space := true;
     sensor_add_to_logging := false;
     sensor_observation_space_element := {[ "joints" := box 12 ]} |}.

Definition distance_goal : Goal :=
  {| goal_add_to_observation_space := true;
     goal_add_to_logging := true;
     continue_after_success := false;
     goal_observation_space_element := {[ "distance" := box 1 ]} |}.

(** Two robots under inverse-kinematics control (2 and 3 dimensions), a
    goal each, logging as given. *)
Definition two_robot_args (logging : nat) : InitArgs :=
  {| arg_normalize_rewards := false;
     arg_display_extra := false;
     arg_logging := logging;
     arg_sim_step := 1%Z;
     arg_joint_control := [false; false];
     arg_robots := [robot_a; robot_b];
     arg_sensors := [joints_sensor; pose_sensor];
     arg_goals := [distance_goal; distance_goal] |}.

(** The environment [init] builds from [two_robot_args]. *)
Definition two_robots (logging : nat) : Config :=
  {| normalize_rewards := false;
     show_auxillary_geometry_world := false;
     show_auxillary_geometry_goal := false;
     logging := logging;
     stat_buffer_size := 25;
     sim_step := 1%Z;
     robots := [robot_a; robot_b];
     sensors := [joints_sensor; pose_sensor];
     goals := [distance_goal; distance_goal];
     observation_space :=
       compose_observation_space [joints_sensor; pose_sensor]
         [distance_goal; distance_goal];
     action_space_dims := [2; 3];
     action_space := compose_action_space [2; 3] |}.

(** One robot under inverse-kinematics control, its two sensors and its
    goal: the shape of the environment lines 94-151 build. *)
Definition one_robot_args (logging : nat) : InitArgs :=
  {| arg_normalize_rewards := false;
     arg_display_extra := false;
     arg_logging := logging;
     arg_sim_step := 1%Z;
     arg_joint_control := [false];
     arg_robots := [robot_a];
     arg_sensors := [joints_sensor; pose_sensor];
     arg_goals := [distance_goal] |}.

(** The environment [init] builds from [one_robot_args]. *)
Definition one_robot (logging : nat) : Config :=
  {| normalize_rewards := false;
     show_auxillary_geometry_world := false;
     show_auxillary_geometry_goal := false;
     logging := logging;
     stat_buffer_size := 25;
     sim_step := 1%Z;
     robots := [robot_a];
     sensors := [joints_sensor; pose_sensor];
     goals := [distance_goal];
     observation_space :=
       compose_observation_space [joints_sensor; pose_sensor] [distance_goal];
     action_space_dims := [2];
     action_space := compose_action_space [2] |}.

(** Two sensors with the same observation key. *)
Definition colliding_args : InitArgs :=
  {| arg_normalize_rewards := false;
     arg_display_extra := false;
     arg_logging := 0;
     arg_sim_step := 1%Z;
     arg_joint_control := [false];
     arg_robots := [robot_a];
     arg_sensors := [joints_sensor; other_joints_sensor];
     arg_goals := [distance_goal] |}.

Definition reward_info (success done : bool) : RewardInfo :=
  {| ri_reward := 0%Z; ri_success := success; ri_done := done;
     ri_timeout := false; ri_out_of_bounds := false |}.

(** The outside during one call: the collision checks answer [collides],
    goal [idx] reports [rewards idx], a robot's action costs its index,
    one end effector is placed at a point and one is left alone. *)
Definition oracle (collides : nat → bool) (rewards : nat → RewardInfo) : Oracle :=
  {| time := 0%Z;
     create_ee_starting_points := λ _, [(Some [0; 0; 1]%Z, None); (None, None)];
     collision_check := collides;
     on_env_reset := λ _ _, 0%Z;
     process_action := λ idx _, Z.of_nat idx;
     reward_of := rewards;
     sensor_get_observation := λ _, ∅;
     goal_get_observation := λ _, ∅;
     sensor_get_data_for_logging := λ _, ∅;
     goal_get_data_for_logging := λ _, ∅ |}.

(** Nothing collides and no goal is reached. *)
Definition quiet : Oracle := oracle (λ _, false) (λ _, reward_info false false).

(** Nothing collides; the goal of robot 0 reports success (and the episode
    goes on), the goal of robot 1 does not. *)
Definition first_succeeds : Oracle :=
  oracle (λ _, false) (λ idx, reward_info (bool_decide (idx = 0)) false).

(** Every collision check finds a collision. *)
Definition always_colliding : Oracle :=
  oracle (λ _, true) (λ _, reward_info false false).

(** The state after [__init__], a [reset] and one [step] in which the
    goal of robot 0 succeeds: robot 0 is inactive, robot 1 is active. *)
Definition after_first_success (logging : nat) : State :=
  (run (two_robots logging)
     [DoReset quiet; DoStep first_succeeds [0; 0; 0; 0; 0]%Z]
     (init_state 0%Z)).2.

(** The first two attempts of a reset collide, the third does not. *)
Definition third_attempt_free : Oracle :=
  oracle (λ k, k <? 2) (λ _, reward_info false false).

(** Nothing collides; every goal reports success and done. *)
Definition finishing : Oracle := oracle (λ _, false) (λ _, reward_info true true).

(** [n] episodes, each a [reset] and one [step] that ends it. *)
Definition episodes (n : nat) : list Event :=
  mjoin (replicate n [DoReset quiet; DoStep finishing [0; 0; 0; 0; 0]%Z]).

(** The state after [__init__] and a first [reset]. *)
Definition after_reset (logging : nat) : State :=
  (reset (two_robots logging) quiet (init_state 0%Z)).1.2.

(** The one-robot environment after [__init__] and a first [reset]. *)
Definition one_robot_after_reset (logging : nat) : State :=
  (reset (one_robot logging) quiet (init_state 0%Z)).1.2.

(** Three robot objects for a world: the goal of the first needs a
    position and a rotation, the goal of the second a rotation only, the
    goal of the third neither. *)
Definition three_robots : World.ref → World.Robot := λ r,
  match r with
  | 0 => World.mkRobot 7 0 (World.mkGoal true true)
  | 1 => World.mkRobot 7 0 (World.mkGoal false true)
  | _ => World.mkRobot 7 0 (World.mkGoal false false)
  end.

End Examples.

(* ===================================================================== *)
(** * Properties of world/world.py *)
(* ===================================================================== *)

Module WorldFacts.
Import World.

(** Registration assigns ids and nothing else: every goal stays bound to
    its robot. *)
Lemma register_robot_goal robot n h w r :
  goal ((register_robot robot n h w).1 r) = goal (h r).
Proof.
  unfold register_robot.
  assert (Hg : goal ((<[robot := set_id n (h robot)]> h) r) = goal (h r)).
  { destruct (decide (robot = r)) as [->|Hne].
    - by rewrite fn_lookup_insert.
    - by rewrite fn_lookup_insert_ne. }
  repeat case_match; simpl; exact Hg.
Qed.

Lemma register_robot_lists robot n h w :
  let w' := (register_robot robot n h w).2 in
  robots_in_world w' = robots_in_world w ++ [robot] ∧
  robots_with_position w' =
    robots_with_position w ++ filter (wants_position h) [robot] ∧
  robots_with_orientation w' =
    robots_with_orientation w ++ filter (wants_rotation_only h) [robot].
Proof.
  unfold register_robot. simpl.
  rewrite fn_lookup_insert. simpl.
  rewrite !filter_cons, !filter_nil.
  destruct (decide (wants_position h robot)) as [Hp|Hp];
    destruct (decide (wants_rotation_only h robot)) as [Hr|Hr];
    unfold wants_position, wants_rotation_only in Hp, Hr;
    destruct (needs_a_position (goal (h robot)));
    destruct (needs_a_rotation (goal (h robot))); simpl;
    rewrite ?app_nil_r; try done; try congruence;
    try (destruct Hr; congruence); exfalso; apply Hr; done.
Qed.

Lemma register_loop_lists robots : ∀ n h w,
  let w' := (register_loop robots n h w).2 in
  robots_in_world w' = robots_in_world w ++ robots ∧
  robots_with_position w' =
    robots_with_position w ++ filter (wants_position h) robots ∧
  robots_with_orientation w' =
    robots_with_orientation w ++ filter (wants_rotation_only h) robots.
Proof.
  induction robots as [|robot rest IH]; intros n h w; simpl.
  - by rewrite !app_nil_r.
  - destruct (register_robot robot n h w) as [h1 w1] eqn:Hstep.
    pose proof (register_robot_lists robot n h w) as (Hin & Hpos & Hori).
    pose proof (register_robot_goal robot n h w) as Hgoal.
    rewrite Hstep in Hin, Hpos, Hori, Hgoal. simpl in *.
    destruct (IH (S n) h1 w1) as (IHin & IHpos & IHori).
    assert (Hp : filter (wants_position h1) rest = filter (wants_position h) rest).
    { apply list_filter_iff. intros r. unfold wants_position. by rewrite Hgoal. }
    assert (Ho : filter (wants_rotation_only h1) rest
                 = filter (wants_rotation_only h) rest).
    { apply list_filter_iff. intros r. unfold wants_rotation_only. by rewrite Hgoal. }
    rewrite IHin, IHpos, IHori, Hin, Hpos, Hori, Hp, Ho.
    rewrite (filter_app _ [robot] rest), (filter_app _ [robot] rest) at 1.
    by rewrite <- !app_assoc.
Qed.

(** C10. [register_robots] appends to the position-needing partition
    exactly the robots whose goal has [needs_a_position] true, and to the
    rotation-needing partition exactly those whose goal has
    [needs_a_rotation] true and [needs_a_position] false, both in
    registration order; a robot whose goal has both flags true is put in
    the position partition and not in the rotation partition, and no robot
    is put in both. *)
Theorem register_robots_partition (robots : list ref) (h : store) (w : t) :
  let w' := (register_robots robots h w).2 in
  let with_position := filter (wants_position h) robots in
  let with_orientation := filter (wants_rotation_only h) robots in
  robots_with_position w' = robots_with_position w ++ with_position ∧
  robots_with_orientation w' = robots_with_orientation w ++ with_orientation ∧
  (∀ r, r ∈ robots →
        needs_a_position (goal (h r)) = true →
        needs_a_rotation (goal (h r)) = true →
        r ∈ with_position ∧ r ∉ with_orientation) ∧
  (∀ r, r ∈ with_orientation ↔
        r ∈ robots ∧ needs_a_rotation (goal (h r)) = true
                   ∧ needs_a_position (goal (h r)) = false) ∧
  (∀ r, ¬ (r ∈ with_position ∧ r ∈ with_orientation)).
Proof.
  intros w' with_position with_orientation.
  destruct (register_loop_lists robots 0 h w) as (_ & Hpos & Hori).
  split; [exact Hpos|]. split; [exact Hori|].
  subst with_position with_orientation.
  unfold wants_position, wants_rotation_only.
  split; [|split].
  - intros r Hin Hp Hr. rewrite !list_elem_of_filter. split; [done|].
    intros [[Hn _] _]. congruence.
  - intros r. rewrite list_elem_of_filter. tauto.
  - intros r. rewrite !list_elem_of_filter. intros [[Hp _] [[Hn _] _]].
    congruence.
Qed.

(** After [perform_collision_check] the world's [collision] is true
    exactly when a registered robot is in contact with a body of the
    world's collision set or two registered robots are in contact with
    each other. *)
Theorem collision_iff_contact (contact : nat → nat → bool) (h : store) (w : t) :
  collision (perform_collision_check contact h w) = true ↔
    (∃ robot obj,
       robot ∈ robots_in_world w ∧ obj ∈ objects_ids w ∧
       contact (object_id (h robot)) obj = true) ∨
    (∃ i j r1 r2,
       i < j ∧ robots_in_world w !! i = Some r1 ∧
       robots_in_world w !! j = Some r2 ∧
       contact (object_id (h r1)) (object_id (h r2)) = true).
Proof.
  unfold perform_collision_check. simpl.
  set (rs := robots_in_world w).
  assert (Hworld :
    existsb (λ robot,
      existsb (λ obj, contact (object_id (h robot)) obj) (objects_ids w)) rs = true
    ↔ ∃ robot obj, robot ∈ rs ∧ obj ∈ objects_ids w ∧
                   contact (object_id (h robot)) obj = true).
  { rewrite existsb_exists. setoid_rewrite existsb_exists.
    setoid_rewrite <- list_elem_of_In. split.
    - intros (robot & Hin & obj & Hin2 & Hc). eauto 10.
    - intros (robot & obj & Hin & Hin2 & Hc). eauto 10. }
  assert (Hpairs :
    existsb (λ '(idx, robot),
      existsb (λ other_robot,
        contact (object_id (h robot)) (object_id (h other_robot)))
        (drop (idx + 1) rs)) (imap pair (take (length rs - 1) rs)) = true
    ↔ ∃ i j r1 r2, i < j ∧ rs !! i = Some r1 ∧ rs !! j = Some r2 ∧
                   contact (object_id (h r1)) (object_id (h r2)) = true).
  { rewrite existsb_exists. setoid_rewrite <- list_elem_of_In. split.
    - intros ([i r1] & Hin & Hex).
      apply elem_of_lookup_imap in Hin as (i' & r1' & [= -> ->] & Hi).
      apply lookup_take_Some in Hi as [Hi _].
      apply existsb_exists in Hex as (r2 & Hin2 & Hc).
      apply list_elem_of_In, list_elem_of_lookup in Hin2 as [k Hk].
      rewrite lookup_drop in Hk.
      exists i', (i' + 1 + k), r1', r2. repeat split; [lia|done..].
    - intros (i & j & r1 & r2 & Hij & Hi & Hj & Hc).
      exists (i, r1). split.
      + apply elem_of_lookup_imap. exists i, r1. split; [done|].
        apply lookup_take_Some. split; [done|].
        apply lookup_lt_Some in Hj. lia.
      + apply existsb_exists. exists r2. split; [|done].
        apply list_elem_of_In, list_elem_of_lookup. exists (j - (i + 1)).
        rewrite lookup_drop. by replace (i + 1 + (j - (i + 1))) with j by lia. }
  destruct (existsb _ rs) eqn:Hw; simpl.
  - split; [intros _; left; by apply Hworld|done].
  - rewrite Hpairs. split; [by right|].
    intros [Hc|Hc]; [|done]. apply Hworld in Hc. done.
Qed.

(** ** The ids that registration assigns *)

Lemma register_robot_store robot n h w :
  (register_robot robot n h w).1 = <[robot := set_id n (h robot)]> h.
Proof. unfold register_robot. by repeat case_match. Qed.

(** Robots that are not in the list are not touched. *)
Lemma register_loop_other robots : ∀ n h w r,
  r ∉ robots → (register_loop robots n h w).1 r = h r.
Proof.
  induction robots as [|robot rest IH]; intros n h w r Hr; [done|].
  apply not_elem_of_cons in Hr as [Hne Hr]. simpl.
  pose proof (register_robot_store robot n h w) as Hh.
  destruct (register_robot robot n h w) as [h1 w1]. simpl in Hh. subst h1.
  rewrite IH by done. by rewrite fn_lookup_insert_ne.
Qed.

(** Registration changes no body id. *)
Lemma register_loop_object_id robots : ∀ n h w r,
  object_id ((register_loop robots n h w).1 r) = object_id (h r).
Proof.
  induction robots as [|robot rest IH]; intros n h w r; [done|]. simpl.
  pose proof (register_robot_store robot n h w) as Hh.
  destruct (register_robot robot n h w) as [h1 w1]. simpl in Hh. subst h1.
  rewrite IH. destruct (decide (robot = r)) as [->|Hne].
  - by rewrite fn_lookup_insert.
  - by rewrite fn_lookup_insert_ne.
Qed.

Lemma register_loop_ids robots : ∀ n h w,
  NoDup robots →
  ∀ i r, robots !! i = Some r → id ((register_loop robots n h w).1 r) = n + i.
Proof.
  induction robots as [|robot rest IH]; intros n h w Hnd i r Hi; [done|].
  apply NoDup_cons in Hnd as [Hfresh Hnd]. simpl.
  pose proof (register_robot_store robot n h w) as Hh.
  destruct (register_robot robot n h w) as [h1 w1]. simpl in Hh. subst h1.
  destruct i as [|i]; simpl in Hi.
  - injection Hi as ->. rewrite register_loop_other by done.
    rewrite fn_lookup_insert. simpl. lia.
  - rewrite (IH (S n) _ w1 Hnd i r Hi). lia.
Qed.

(** [register_robots] on a list of distinct robots: every robot is
    appended to [robots_in_world] in the order of the list and gets its
    position in the list as id (so the ids are [0 .. N-1], whatever ids
    the robots had before and whatever the world already holds); a robot
    that is not in the list keeps its id, and no robot's body id
    changes. *)
Theorem register_robots_ids (robots : list ref) (h : store) (w : t) :
  NoDup robots →
  let h' := (register_robots robots h w).1 in
  let w' := (register_robots robots h w).2 in
  robots_in_world w' = robots_in_world w ++ robots ∧
  (∀ i r, robots !! i = Some r → id (h' r) = i) ∧
  (∀ r, r ∉ robots → h' r = h r) ∧
  (∀ r, object_id (h' r) = object_id (h r)).
Proof.
  intros Hnd h' w'. subst h' w'. unfold register_robots.
  destruct (register_loop_lists robots 0 h w) as (Hin & _).
  split; [exact Hin|]. split; [|split].
  - intros i r Hi. by rewrite (register_loop_ids robots 0 h w Hnd i r Hi).
  - intros r Hr. by apply register_loop_other.
  - intros r. apply register_loop_object_id.
Qed.

End WorldFacts.

(* ===================================================================== *)
(** * Properties of gym_env/environment.py *)
(* ===================================================================== *)

Module EnvFacts.
Import Env.

(** ** Space composition *)

Lemma lookup_py_merge {V} (a b : gmap string V) k :
  py_merge a b !! k = match b !! k with Some v => Some v | None => a !! k end.
Proof. unfold py_merge. rewrite lookup_union. by destruct (b !! k), (a !! k). Qed.

(** Under every key the merged dict holds the element of the last
    opted-in plugin that has the key, and what it held before if none
    has. *)
Lemma merge_space_elements_lookup {P} (opts_in : P → bool)
    (element : P → gmap string Box) plugins : ∀ d k,
  merge_space_elements opts_in element plugins d !! k =
    match last (omap (.!! k) (element <$> filter (λ p, opts_in p = true) plugins)) with
    | Some v => Some v
    | None => d !! k
    end.
Proof.
  induction plugins as [|p plugins IH]; intros d k; simpl; [done|].
  rewrite IH, filter_cons.
  destruct (opts_in p) eqn:Hp; case_decide; try done. simpl.
  rewrite lookup_py_merge.
  destruct (element p !! k) as [v|]; [|done].
  rewrite last_cons. by destruct (last _).
Qed.

Lemma compose_observation_space_lookup sensors goals k :
  compose_observation_space sensors goals !! k =
    last (omap (.!! k) (contributions sensors goals)).
Proof.
  unfold compose_observation_space, contributions.
  rewrite !merge_space_elements_lookup, lookup_empty, omap_app, last_app.
  by repeat case_match.
Qed.

Lemma compose_action_space_dims_ok robots : ∀ idx joint_control dims,
  idx + length robots ≤ length joint_control →
  is_ok (compose_action_space_dims robots idx joint_control dims) = true.
Proof.
  induction robots as [|robot rest IH]; intros idx jc dims Hlen; simpl; [done|].
  destruct (get_action_space_dims robot) as [ik_dims joints_dims].
  simpl in Hlen.
  destruct (lookup_lt_is_Some_2 jc idx ltac:(lia)) as [b ->].
  destruct b; apply IH; lia.
Qed.

(** The keys of the composed observation space are the keys of the
    elements of the sensors and goals that opt in, and no others. *)
Theorem observation_space_keys (sensors : list Sensor) (goals : list Goal) k :
  is_Some (compose_observation_space sensors goals !! k) ↔
    (∃ p, p ∈ sensors ∧ sensor_add_to_observation_space p = true ∧
          is_Some (sensor_observation_space_element p !! k)) ∨
    (∃ g, g ∈ goals ∧ goal_add_to_observation_space g = true ∧
          is_Some (goal_observation_space_element g !! k)).
Proof.
  rewrite compose_observation_space_lookup, last_is_Some.
  unfold contributions. split.
  - intros Hne.
    destruct (omap _ _) as [|v vs] eqn:Hv; [done|]. clear Hne.
    assert (Hin : v ∈ v :: vs) by apply list_elem_of_here.
    rewrite <- Hv in Hin.
    apply list_elem_of_omap in Hin as (d & Hd & Hk).
    apply elem_of_app in Hd as [Hd|Hd];
      apply list_elem_of_fmap in Hd as (p & -> & Hp);
      apply list_elem_of_filter in Hp as [Hopt Hp]; [left|right]; eauto 10.
  - intros Hex Hnil.
    assert (Hin : ∃ v d,
              d ∈ (sensor_observation_space_element
                     <$> filter (λ p, sensor_add_to_observation_space p = true) sensors)
                  ++ (goal_observation_space_element
                        <$> filter (λ p, goal_add_to_observation_space p = true) goals)
              ∧ d !! k = Some v).
    { destruct Hex as [(p & Hp & Hopt & v & Hv)|(g & Hg & Hopt & v & Hv)].
      - exists v, (sensor_observation_space_element p). split; [|done].
        apply elem_of_app. left. apply list_elem_of_fmap. exists p.
        split; [done|]. by apply list_elem_of_filter.
      - exists v, (goal_observation_space_element g). split; [|done].
        apply elem_of_app. right. apply list_elem_of_fmap. exists g.
        split; [done|]. by apply list_elem_of_filter. }
    destruct Hin as (v & d & Hd & Hv).
    assert (Hvin : v ∈ omap (.!! k)
              ((sensor_observation_space_element
                  <$> filter (λ p, sensor_add_to_observation_space p = true) sensors)
               ++ (goal_observation_space_element
                     <$> filter (λ p, goal_add_to_observation_space p = true) goals)))
      by (apply list_elem_of_omap; eauto).
    rewrite Hnil in Hvin. by apply elem_of_nil in Hvin.
Qed.

(** ** The action space *)

(** With an entry of [joint_control] for every robot from [idx] on, the
    loop of lines 172-177 appends every robot's selected dimensionality. *)
Lemma compose_action_space_dims_run robots : ∀ idx joint_control dims,
  idx + length robots ≤ length joint_control →
  compose_action_space_dims robots idx joint_control dims =
    Ok (dims ++ zip_with (λ robot (joint : bool),
                            if joint then (get_action_space_dims robot).2
                            else (get_action_space_dims robot).1)
                  robots (drop idx joint_control)).
Proof.
  induction robots as [|robot rest IH]; intros idx jc dims Hlen; simpl.
  - by rewrite app_nil_r.
  - simpl in Hlen.
    destruct (lookup_lt_is_Some_2 jc idx ltac:(lia)) as [b Hb].
    rewrite (drop_S _ _ _ Hb), Hb.
    destruct (get_action_space_dims robot) as [ik_dims joints_dims]. simpl.
    destruct b; rewrite IH by lia; by rewrite <- app_assoc.
Qed.

(** Without one, the loop raises [IndexError]. *)
Lemma compose_action_space_dims_short robots : ∀ idx joint_control dims,
  idx ≤ length joint_control →
  length joint_control < idx + length robots →
  compose_action_space_dims robots idx joint_control dims = Raise IndexError.
Proof.
  induction robots as [|robot rest IH]; intros idx jc dims Hidx Hlen; simpl.
  - simpl in Hlen. lia.
  - simpl in Hlen. destruct (get_action_space_dims robot) as [ik_dims joints_dims].
    destruct (jc !! idx) as [b|] eqn:Hb; [|done].
    apply lookup_lt_Some in Hb. destruct b; apply IH; lia.
Qed.

Section Calls.
Context {num : Type} `{!Numpy num}.

(** ** The frame relations are preorders *)

#[local] Instance agree_on_preorder {X} (f : @State num → X) : PreOrder (agree_on f).
Proof.
  split.
  - by intros s.
  - intros s1 s2 s3 H1 H2. unfold agree_on in *. congruence.
Qed.

#[local] Instance deactivation_only_preorder goals (o : @Oracle num) :
  PreOrder (deactivation_only goals o).
Proof.
  split.
  - intros s l Hl. exists l. auto.
  - intros s1 s2 s3 H12 H23 l Hl.
    destruct (H12 l Hl) as (l2 & Hl2 & Hlen2 & Hstep2).
    destruct (H23 l2 Hl2) as (l3 & Hl3 & Hlen3 & Hstep3).
    exists l3. split; [done|]. split; [congruence|].
    intros idx.
    destruct (Hstep2 idx) as [Heq2|(Ht2 & Hf2 & Hcause)];
      destruct (Hstep3 idx) as [Heq3|(Ht3 & Hf3 & Hcause')].
    + left. congruence.
    + right. rewrite <- Heq2. auto.
    + right. rewrite Heq3. auto.
    + congruence.
Qed.

Lemma agree_on_active_deactivation_only goals (o : @Oracle num) s s' :
  agree_on active_robots s s' → deactivation_only goals o s s'.
Proof. intros Hs l Hl. exists l. unfold agree_on in Hs. rewrite Hs. auto. Qed.

(** ** How [bind] runs *)

Lemma bind_run {A B} (m : M (num := num) A) (f : A → M B) s :
  (m ≫= f) s =
    match m s with
    | (c1, s1, Ok a) => let '(c2, s2, r) := f a s1 in (c1 ++ c2, s2, r)
    | (c1, s1, Raise e) => (c1, s1, Raise e)
    | (c1, s1, OutOfFuel) => (c1, s1, OutOfFuel)
    end.
Proof. reflexivity. Qed.

Lemma bind_ok {A B} (m : M (num := num) A) (f : A → M B) s c1 s1 a :
  m s = (c1, s1, Ok a) →
  (m ≫= f) s = (c1 ++ (f a s1).1.1, (f a s1).1.2, (f a s1).2).
Proof. intros Hm. rewrite bind_run, Hm. by destruct (f a s1) as [[??]?]. Qed.

Lemma bind_ok_inv {A B} (m : M (num := num) A) (f : A → M B) s c s' b :
  (m ≫= f) s = (c, s', Ok b) →
  ∃ c1 s1 a c2, m s = (c1, s1, Ok a) ∧ f a s1 = (c2, s', Ok b) ∧ c = c1 ++ c2.
Proof.
  rewrite bind_run. destruct (m s) as [[c1 s1] [a| e |]]; [|done..].
  destruct (f a s1) as [[c2 s2] r2] eqn:Hf. intros [= <- <- ->].
  by eexists _, _, _, _.
Qed.

Lemma bind_seq {A B} (m : M (num := num) A) (f : A → M B) s c1 s1 a c2 s2 r :
  m s = (c1, s1, Ok a) → f a s1 = (c2, s2, r) → (m ≫= f) s = (c1 ++ c2, s2, r).
Proof. intros Hm Hf. by rewrite bind_run, Hm, Hf. Qed.

Lemma run_eq {A} (m : M (num := num) A) s c s' r c0 r0 :
  m s = (c0, s', r0) → c0 = c → r0 = r → m s = (c, s', r).
Proof. by intros -> -> ->. Qed.

Lemma bind_call {B} (c : @Call num) (f : () → M B) s :
  (call c ≫= f) s = (c :: (f () s).1.1, (f () s).1.2, (f () s).2).
Proof. rewrite bind_run. simpl. by destruct (f () s) as [[??]?]. Qed.

(** ** Rules for [safe] *)

Section Safe.
Context (P : @Call num → Prop) (R : @State num → @State num → Prop).
Context `{!PreOrder R}.

Lemma safe_at_bind {A B} (m : M A) (f : A → M B) s :
  safe_at P R m s →
  (∀ a, (m s).2 = Ok a → safe_at P R (f a) (m s).1.2) →
  safe_at P R (m ≫= f) s.
Proof.
  intros (Hc & Hs & Hr) Hf. unfold safe_at. rewrite bind_run.
  destruct (m s) as [[c1 s1] [a| e |]]; simpl in *; [|done..].
  destruct (Hf a eq_refl) as (Hc2 & Hs2 & Hr2).
  destruct (f a s1) as [[c2 s2] r2]; simpl in *.
  repeat split; [by apply Forall_app|by etrans|done].
Qed.

Lemma safe_bind {A B} (m : M A) (f : A → M B) :
  safe P R m → (∀ a, safe P R (f a)) → safe P R (m ≫= f).
Proof. intros Hm Hf s. apply safe_at_bind; [apply Hm|]. intros a _. apply Hf. Qed.

Lemma safe_ret {A} (a : A) : safe P R (mret a).
Proof. intros s. repeat split; [constructor|reflexivity|done]. Qed.

Lemma safe_raise {A} e : safe P R (raise (A := A) e).
Proof. intros s. repeat split; [constructor|reflexivity|done]. Qed.

Lemma safe_get : safe P R get.
Proof. intros s. repeat split; [constructor|reflexivity|done]. Qed.

Lemma safe_call c : P c → safe P R (call c).
Proof. intros Hc s. repeat split; [by repeat constructor|reflexivity|done]. Qed.

Lemma safe_modify f : (∀ s, R s (f s)) → safe P R (modify f).
Proof. intros Hf s. repeat split; [constructor|apply Hf|done]. Qed.

Lemma safe_index {A} (l : list A) idx : safe P R (index l idx).
Proof. unfold index. destruct (l !! idx); [apply safe_ret|apply safe_raise]. Qed.

Lemma safe_get_active_robots : safe P R get_active_robots.
Proof.
  unfold get_active_robots. apply safe_bind; [apply safe_get|].
  intros s. destruct (active_robots s); [apply safe_ret|apply safe_raise].
Qed.

Lemma safe_for_each {A} (l : list A) (body : nat → A → M unit) :
  (∀ idx x, safe P R (body idx x)) → ∀ idx, safe P R (for_each l idx body).
Proof.
  intros Hbody. induction l as [|x l IH]; intros idx; simpl.
  - apply safe_ret.
  - apply safe_bind; [apply Hbody|]. intros _. apply IH.
Qed.

Lemma safe_merge_values {Q} (opts_in : Q → bool) asks answer (plugins : list Q) :
  (∀ idx, P (asks idx)) →
  ∀ idx d, safe P R (merge_values opts_in asks answer plugins idx d).
Proof.
  intros Hasks. induction plugins as [|p plugins IH]; intros idx d; simpl.
  - apply safe_ret.
  - destruct (opts_in p); [|apply IH].
    apply safe_bind; [by apply safe_call|]. intros _. apply IH.
Qed.

End Safe.

(** Applies a rule for [safe], finding the preorder by itself. *)
Ltac sapply lem := apply lem; try exact _.

(** Decomposes a [safe] goal along the structure of the computation;
    what is left is about single calls and single assignments. *)
Ltac safe_tac :=
  repeat first
    [ sapply safe_ret | sapply safe_raise | sapply safe_get
    | sapply safe_index | sapply safe_get_active_robots
    | sapply safe_call | sapply safe_modify; intros
    | sapply safe_for_each; intros
    | sapply safe_merge_values; intros
    | sapply safe_bind; [|intros]
    | match goal with
      | |- safe _ _ (if ?b then _ else _) => destruct b
      | |- safe _ _ (match ?x with _ => _ end) => destruct x
      end ].

(** ** The loops that only call *)

Lemma for_each_call {A} (l : list A) (f : nat → @Call num) : ∀ idx s,
  for_each l idx (λ i _, call (f i)) s = (f <$> seq idx (length l), s, Ok ()).
Proof.
  induction l as [|x l IH]; intros idx s; simpl; [done|].
  erewrite bind_ok; [|done]. by rewrite IH.
Qed.

Lemma merge_values_run {Q} (opts_in : Q → bool) (asks : nat → @Call num) answer
    (plugins : list Q) : ∀ idx d s,
  ∃ c d', merge_values opts_in asks answer plugins idx d s = (c, s, Ok d').
Proof.
  induction plugins as [|p plugins IH]; intros idx d s; simpl; [by eauto|].
  destruct (opts_in p); [|apply IH].
  destruct (IH (S idx) (py_merge d (answer idx)) s) as (c & d' & Hrun).
  erewrite bind_ok; [|done]. rewrite Hrun. simpl. eauto.
Qed.

Section Methods.
Variable cfg : @Config num.

Lemma get_obs_run o s : ∃ c obs, _get_obs cfg o s = (c, s, Ok obs).
Proof.
  unfold _get_obs.
  destruct (merge_values_run sensor_add_to_observation_space SensorGetObservation
              (sensor_get_observation o) (sensors cfg) 0 ∅ s) as (c1 & d1 & H1).
  destruct (merge_values_run goal_add_to_observation_space GoalGetObservation
              (goal_get_observation o) (goals cfg) 0 d1 s) as (c2 & d2 & H2).
  erewrite bind_ok; [|exact H1]. erewrite bind_ok; [|exact H2].
  simpl. eauto.
Qed.

(** ** Frames of the phases of [step] and [reset] *)

Section Frames.
Context (P : @Call num → Prop) (R : @State num → @State num → Prop).
Context `{!PreOrder R}.
Hypothesis HP : ∀ c, ¬ is_process_action c → P c.

Lemma safe_perform_collision_check o k :
  (∀ s b, R s (set_world_collision b s)) →
  safe P R (perform_collision_check o k).
Proof. intros HR. unfold perform_collision_check. safe_tac; auto. Qed.

Lemma safe_get_obs o : safe P R (_get_obs cfg o).
Proof. unfold _get_obs. safe_tac; auto. Qed.

Lemma safe_deactivate idx :
  (∀ s l, active_robots s = Some l → idx < length l →
          R s (set_active_robots (Some (<[idx := false]> l)) s)) →
  safe P R (deactivate idx).
Proof.
  intros HR s. unfold safe_at, deactivate, get_active_robots.
  rewrite !bind_run. simpl.
  destruct (active_robots s) as [l|] eqn:Hl; simpl.
  - destruct (idx <? length l) eqn:Hlt; simpl.
    + apply Nat.ltb_lt in Hlt. repeat split; [constructor|by eapply HR|done].
    + repeat split; [constructor|reflexivity|done].
  - repeat split; [constructor|reflexivity|done].
Qed.

Lemma safe_collect_rewards o goals0 :
  (∀ idx goal s l,
     goals0 !! idx = Some goal →
     continue_after_success goal = false →
     ri_success (reward_of o idx) = true →
     active_robots s = Some l → idx < length l →
     R s (set_active_robots (Some (<[idx := false]> l)) s)) →
  ∀ gs idx infos,
    drop idx goals0 = gs → safe P R (collect_rewards o gs idx infos).
Proof.
  intros HR gs. induction gs as [|goal rest IH]; intros idx infos Hdrop; simpl.
  - sapply safe_ret.
  - assert (Hgoal : goals0 !! idx = Some goal).
    { pose proof (lookup_drop goals0 idx 0) as Hl.
      rewrite Hdrop, Nat.add_0_r in Hl. done. }
    assert (Hrest : drop (S idx) goals0 = rest).
    { replace (S idx) with (idx + 1) by lia.
      rewrite <- drop_drop, Hdrop. done. }
    sapply safe_bind; [sapply safe_get|]. intros s.
    sapply safe_bind; [sapply safe_call; auto|]. intros _.
    sapply safe_bind; [|intros _; by apply IH].
    destruct (ri_success (reward_of o idx)) eqn:Hs;
      destruct (continue_after_success goal) eqn:Hc; simpl;
      try sapply safe_ret.
    sapply safe_deactivate. intros. by eapply HR.
Qed.

Lemma safe_add_action_cpu_times robots exec_times_cpu :
  ∀ idx info, safe P R (add_action_cpu_times robots idx exec_times_cpu info).
Proof.
  induction robots as [|robot rest IH]; intros idx info; simpl.
  - sapply safe_ret.
  - sapply safe_bind; [sapply safe_index|]. intros x. apply IH.
Qed.

Lemma safe_make_info o t exec_times_cpu :
  (∀ s l, R s (set_log l s)) →
  safe P R (make_info cfg o t exec_times_cpu).
Proof.
  intros HR. unfold make_info.
  destruct (_ || _); [|sapply safe_ret].
  sapply safe_bind; [sapply safe_get|]. intros s.
  sapply safe_bind; [sapply safe_add_action_cpu_times|]. intros info1.
  safe_tac; auto.
Qed.

Lemma safe_report o t exec_times_cpu :
  (∀ s l, R s (set_log l s)) →
  safe P R (report cfg o t exec_times_cpu).
Proof.
  intros HR. unfold report.
  sapply safe_bind; [by sapply safe_make_info|]. intros info.
  sapply safe_bind; [sapply safe_get_obs|]. intros obs.
  safe_tac.
Qed.

Lemma safe_teleport idx ee_pos : safe P R (teleport cfg idx ee_pos).
Proof. unfold teleport. safe_tac; auto. Qed.

Lemma safe_attempt o reset_count :
  (∀ s b, R s (set_world_collision b s)) →
  safe P R (attempt cfg o reset_count).
Proof.
  intros HR. unfold attempt.
  repeat first
    [ progress cbv zeta
    | sapply safe_bind;
      [ first [ by sapply safe_perform_collision_check
              | by (sapply safe_for_each; intros; sapply safe_teleport)
              | safe_tac; by auto ]
      | intros ? ] ].
  safe_tac.
Qed.

Lemma safe_reset_loop o :
  (∀ s b, R s (set_world_collision b s)) →
  ∀ fuel reset_count,
    reset_count ≤ 1001 → 1002 ≤ fuel + reset_count →
    safe P R (reset_loop cfg fuel o reset_count).
Proof.
  intros HR. induction fuel as [|fuel IH]; intros reset_count Hle Hfuel; [lia|].
  simpl. destruct (1000 <? reset_count) eqn:Hguard; [sapply safe_raise|].
  apply Nat.ltb_ge in Hguard.
  sapply safe_bind; [by sapply safe_attempt|]. intros collision.
  destruct (negb collision); [sapply safe_ret|].
  apply IH; lia.
Qed.

Lemma safe_finish_reset o :
  (∀ s v, R s (set_active_robots v s)) →
  (∀ s v, R s (set_goal_metrics v s)) →
  safe P R (finish_reset cfg o).
Proof.
  intros H3 H4. unfold finish_reset.
  do 7 (sapply safe_bind; [safe_tac; by auto|]; intros _).
  apply safe_get_obs.
Qed.

Lemma safe_reset o :
  (∀ s b, R s (set_world_collision b s)) →
  (∀ s now, R s (reset_tracking now s)) →
  (∀ s v, R s (set_active_robots v s)) →
  (∀ s v, R s (set_goal_metrics v s)) →
  safe P R (reset cfg o).
Proof.
  intros H1 H2 H3 H4. unfold reset, reset_with_fuel.
  sapply safe_bind; [safe_tac; by auto|]. intros _.
  sapply safe_bind; [safe_tac; by auto|]. intros _.
  sapply safe_bind; [apply safe_reset_loop; [done|lia|unfold reset_fuel; lia]|].
  intros _. by apply safe_finish_reset.
Qed.

End Frames.

(** ** The action loop *)

Lemma apply_actions_frame o action rs : ∀ idx offset exec_times_cpu,
  safe (λ _, True) eq (apply_actions cfg o action rs idx offset exec_times_cpu).
Proof.
  induction rs as [|robot rest IH]; intros idx offset e; simpl.
  - sapply safe_ret.
  - safe_tac; auto.
Qed.

Lemma apply_actions_state o action rs idx offset e s :
  (apply_actions cfg o action rs idx offset e s).1.2 = s.
Proof. by destruct (apply_actions_frame o action rs idx offset e s) as (_ & <- & _). Qed.

Lemma safe_at_bind_eq {A B} (P : @Call num → Prop) (m : M A) (f : A → M B) s :
  safe_at P eq m s →
  (∀ a, (m s).2 = Ok a → safe_at P eq (f a) s) →
  safe_at P eq (m ≫= f) s.
Proof.
  intros Hm Hf. sapply safe_at_bind; [done|].
  destruct Hm as (_ & <- & _). exact Hf.
Qed.

Lemma get_active_robots_ok (s : @State num) l :
  (get_active_robots s).2 = Ok l → active_robots s = Some l.
Proof.
  unfold get_active_robots. rewrite bind_run. simpl.
  destruct (active_robots s); simpl; congruence.
Qed.

Lemma index_ok {A} (l : list A) idx (s : @State num) x :
  (index l idx s).2 = Ok x → l !! idx = Some x.
Proof. unfold index. destruct (l !! idx); simpl; congruence. Qed.

(** [process_action] is called for active robots only. *)
Lemma apply_actions_calls o action s rs : ∀ idx offset e,
  safe_at (λ c, ∃ i a, c = RobotProcessAction i a ∧ active s i = Some true) eq
    (apply_actions cfg o action rs idx offset e) s.
Proof.
  induction rs as [|robot rest IH]; intros idx offset e; simpl.
  - sapply safe_ret.
  - apply safe_at_bind_eq; [sapply safe_get_active_robots|].
    intros l Hl%get_active_robots_ok.
    apply safe_at_bind_eq; [sapply safe_index|].
    intros b Hb%index_ok.
    destruct b; simpl; [|apply IH].
    apply safe_at_bind_eq; [sapply safe_index|]. intros d _. cbv zeta.
    apply safe_at_bind_eq; [|intros _ _; apply IH].
    sapply safe_call. eexists _, _. split; [done|].
    unfold active. by rewrite Hl.
Qed.

(** ** The three phases of [step] *)

Lemma act_and_score_safe_at (P : @Call num → Prop) (R : @State num → _ → Prop)
    `{!PreOrder R} o action s :
  (∀ c, ¬ is_process_action c → P c) →
  Forall P (apply_actions cfg o action (robots cfg) 0 0 [] s).1.1 →
  (∀ s b, R s (set_world_collision b s)) →
  (∀ idx goal s l,
     goals cfg !! idx = Some goal →
     continue_after_success goal = false →
     ri_success (reward_of o idx) = true →
     active_robots s = Some l → idx < length l →
     R s (set_active_robots (Some (<[idx := false]> l)) s)) →
  safe_at P R (act_and_score cfg o action) s.
Proof.
  intros HP Hcalls HRc HRd. unfold act_and_score.
  sapply safe_at_bind; [sapply safe_call; auto|]. intros _ _.
  change ((call WorldUpdate s).1.2) with s.
  sapply safe_at_bind.
  - split; [done|]. rewrite apply_actions_state.
    split; [reflexivity|apply apply_actions_frame].
  - intros e _. rewrite apply_actions_state.
    sapply safe_bind; [safe_tac; by auto|]. intros _.
    sapply safe_bind; [by sapply safe_perform_collision_check|]. intros _.
    sapply safe_bind; [by sapply (safe_collect_rewards P R HP o (goals cfg))|].
    intros infos. sapply safe_ret.
Qed.

Lemma account_run o infos s :
  let t := aggregate (world_collision s) infos in
  let s1 :=
    advance_tracking (sim_step cfg) (time o)
      (set_reward (if normalize_rewards cfg then np_average (ri_reward <$> infos)
                   else np_sum (ri_reward <$> infos)) s) in
  account cfg o infos s =
    ([], if done t then push_stats (stat_buffer_size cfg) t (world_collision s) s1
         else s1, Ok t).
Proof.
  intros t s1. subst t s1.
  unfold account, mbind, M_bind, bind, get, modify, ret. simpl.
  by destruct (np_any (ri_done <$> infos) || world_collision s).
Qed.

Lemma step_safe_at (P : @Call num → Prop) (R : @State num → _ → Prop)
    `{!PreOrder R} o action s :
  (∀ c, ¬ is_process_action c → P c) →
  Forall P (apply_actions cfg o action (robots cfg) 0 0 [] s).1.1 →
  (∀ s b, R s (set_world_collision b s)) →
  (∀ idx goal s l,
     goals cfg !! idx = Some goal →
     continue_after_success goal = false →
     ri_success (reward_of o idx) = true →
     active_robots s = Some l → idx < length l →
     R s (set_active_robots (Some (<[idx := false]> l)) s)) →
  (∀ s l, R s (set_log l s)) →
  (∀ s r, R s (set_reward r s)) →
  (∀ s a b, R s (advance_tracking a b s)) →
  (∀ s n t c, R s (push_stats n t c s)) →
  safe_at P R (step cfg o action) s.
Proof.
  intros HP Hcalls HRc HRd HRl HRr HRa HRp. unfold step.
  sapply safe_at_bind; [by apply act_and_score_safe_at|].
  intros [e infos] _.
  sapply safe_bind; [|intros t; by sapply safe_report].
  intros s1. unfold safe_at. rewrite account_run. simpl.
  split; [constructor|]. split; [|done].
  match goal with |- context [if ?b then _ else _] => destruct b end;
    [etrans; [|apply HRp]|]; (etrans; [apply HRr|apply HRa]).
Qed.

(** Assignments that leave [self.active_robots] alone. *)
Lemma deactivation_only_frame gs (o : @Oracle num) s s' :
  active_robots s' = active_robots s → deactivation_only gs o s s'.
Proof. intros Hs. by apply agree_on_active_deactivation_only. Qed.

(** Line 317, for a goal that reports success and does not continue. *)
Lemma deactivation_only_deactivate gs (o : @Oracle num) idx goal s l :
  gs !! idx = Some goal →
  continue_after_success goal = false →
  ri_success (reward_of o idx) = true →
  active_robots s = Some l → idx < length l →
  deactivation_only gs o s (set_active_robots (Some (<[idx := false]> l)) s).
Proof.
  intros Hgoal Hc Hs Hl Hlt l0 Hl0. rewrite Hl in Hl0. injection Hl0 as <-.
  exists (<[idx := false]> l). split; [done|]. split; [apply length_insert|].
  intros i. destruct (decide (i = idx)) as [->|Hne].
  - rewrite list_lookup_insert_eq by done.
    destruct (lookup_lt_is_Some_2 l idx Hlt) as [[] Hb]; rewrite Hb.
    + right. eauto 10.
    + by left.
  - left. by rewrite list_lookup_insert_ne.
Qed.

(** One call of [step], whatever it is given and however it ends, changes
    [self.active_robots] by deactivations only. *)
Lemma step_deactivation_only (P : @Call num → Prop) o action s :
  (∀ c, ¬ is_process_action c → P c) →
  Forall P (apply_actions cfg o action (robots cfg) 0 0 [] s).1.1 →
  safe_at P (deactivation_only (goals cfg) o) (step cfg o action) s.
Proof.
  intros HP Hcalls.
  apply step_safe_at; try exact _; try done;
    try (intros; by apply deactivation_only_frame).
  intros. by eapply deactivation_only_deactivate.
Qed.

Lemma deactivation_only_inactive gs (o : @Oracle num) s s' idx :
  deactivation_only gs o s s' →
  active s idx = Some false → active s' idx = Some false.
Proof.
  unfold active. intros Hstep Hidx.
  destruct (active_robots s) as [l|] eqn:Hl; [|done]. simpl in Hidx.
  destruct (Hstep l Hl) as (l' & -> & _ & Hflags). simpl.
  destruct (Hflags idx) as [->|(Ht & _)]; congruence.
Qed.

Lemma not_process_action_of idx (c : @Call num) :
  ¬ is_process_action c → ¬ is_process_action_of idx c.
Proof. destruct c; simpl; tauto. Qed.

(** A robot that is inactive gets no action in the next call of [step]
    and is inactive after it. *)
Lemma step_inactive o action s idx :
  active s idx = Some false →
  Forall (λ c, ¬ is_process_action_of idx c) (step cfg o action s).1.1 ∧
  active (step cfg o action s).1.2 idx = Some false.
Proof.
  intros Hidx.
  destruct (step_deactivation_only (λ c, ¬ is_process_action_of idx c)
              o action s) as (Hcalls & Hstate & _).
  - apply not_process_action_of.
  - destruct (apply_actions_calls o action s (robots cfg) 0 0 []) as (Hc & _).
    eapply Forall_impl; [exact Hc|].
    intros c (i & a & -> & Hi). simpl. intros ->. congruence.
  - split; [done|]. by eapply deactivation_only_inactive.
Qed.

(** C7. Within an episode the flag of a robot in [self.active_robots]
    goes from true to false only in a call of [step] in which the goal of
    that robot (the goal at the robot's position: the orchestrator pairs
    [self.goals[idx]] with [self.robots[idx]]) reports success and its
    [continue_after_success] is false; and over every sequence of calls
    of [step] without a [reset] between them, a robot whose flag is false
    keeps it false and gets no [process_action] call. *)
Theorem robot_deactivation :
  (∀ o action s idx,
     active s idx = Some true →
     active (step cfg o action s).1.2 idx = Some false →
     ∃ goal, goals cfg !! idx = Some goal ∧
             continue_after_success goal = false ∧
             ri_success (reward_of o idx) = true) ∧
  (∀ es s idx,
     Forall is_step es →
     active s idx = Some false →
     active (run cfg es s).2 idx = Some false ∧
     Forall (λ c, ¬ is_process_action_of idx c) (run cfg es s).1).
Proof.
  split.
  - intros o action s idx Hbefore Hafter.
    destruct (step_deactivation_only (λ _, True) o action s)
      as (_ & Hstate & _); [done|by apply Forall_true|].
    unfold active in Hbefore, Hafter.
    destruct (active_robots s) as [l|] eqn:Hl; [|done]. simpl in Hbefore.
    destruct (Hstate l Hl) as (l' & Hl' & _ & Hflags).
    rewrite Hl' in Hafter. simpl in Hafter.
    destruct (Hflags idx) as [Heq|(_ & _ & Hcause)]; [congruence|done].
  - intros es. induction es as [|e es IH]; intros s idx Hsteps Hidx.
    + simpl. split; [done|constructor].
    + apply Forall_cons in Hsteps as [He Hes].
      destruct e as [o|o action]; [done|]. simpl.
      destruct (step_inactive o action s idx Hidx) as (Hcalls & Hidx1).
      destruct (step cfg o action s) as [[c1 s1] r1]. simpl in *.
      destruct (IH s1 idx Hes Hidx1) as (Hidx2 & Hcalls2).
      destruct (run cfg es s1) as [c2 s2]. simpl in *.
      split; [done|by apply Forall_app].
Qed.

(** ** What [step] returns *)



Lemma collect_rewards_value (o : @Oracle num) gs : ∀ idx acc s infos,
  (collect_rewards o gs idx acc s).2 = Ok infos →
  infos = acc ++ (reward_of o <$> seq idx (length gs)).
Proof.
  induction gs as [|goal rest IH]; intros idx acc s infos; simpl.
  - intros [= <-]. by rewrite app_nil_r.
  - match goal with
    | |- (?m s).2 = _ → _ => destruct (m s) as [[c s'] r] eqn:Hrun
    end.
    simpl. intros ->.
    apply bind_ok_inv in Hrun as (c1 & s1 & a1 & c2 & _ & Hrun & _).
    apply bind_ok_inv in Hrun as (c3 & s2 & a2 & c4 & _ & Hrun & _).
    apply bind_ok_inv in Hrun as (c5 & s3 & a3 & c6 & _ & Hrun & _).
    erewrite (IH _ _ s3 infos); [|by rewrite Hrun].
    by rewrite <- app_assoc.
Qed.

Lemma act_and_score_value o action s c s' e infos :
  act_and_score cfg o action s = (c, s', Ok (e, infos)) →
  infos = reward_of o <$> seq 0 (length (goals cfg)) ∧
  world_collision s' = collision_check o 0.
Proof.
  unfold act_and_score. intros Hrun.
  apply bind_ok_inv in Hrun as (c1 & s1 & [] & c2 & [= _ <-] & Hrun & _).
  apply bind_ok_inv in Hrun as (c3 & s2 & e' & c4 & Hact & Hrun & _).
  pose proof (apply_actions_state o action (robots cfg) 0 0 [] s) as Hs.
  rewrite Hact in Hs. simpl in Hs. subst s2.
  apply bind_ok_inv in Hrun as (c5 & s3 & [] & c6 & Hsens & Hrun & _).
  rewrite for_each_call in Hsens. injection Hsens as _ <-.
  apply bind_ok_inv in Hrun as (c7 & s4 & [] & c8 & [= _ <-] & Hrun & _).
  apply bind_ok_inv in Hrun as (c9 & s5 & infos' & c10 & Hcol & [= _ <- _ <-] & _).
  split.
  - apply (collect_rewards_value o (goals cfg) 0 []
             (set_world_collision (collision_check o 0) s) infos').
    by rewrite Hcol.
  - destruct (safe_collect_rewards (λ _, True) (agree_on world_collision)
                (λ _ _, I) o (goals cfg) (λ _ _ _ _ _ _ _ _ _, eq_refl)
                (goals cfg) 0 [] eq_refl
                (set_world_collision (collision_check o 0) s)) as (_ & Hw & _).
    rewrite Hcol in Hw. exact Hw.
Qed.

Lemma report_value o t e s c s' obs rew d info :
  report cfg o t e s = (c, s', Ok (obs, rew, d, info)) → d = done t.
Proof.
  unfold report. intros Hrun.
  apply bind_ok_inv in Hrun as (c1 & s1 & info' & c2 & _ & Hrun & _).
  apply bind_ok_inv in Hrun as (c3 & s2 & obs' & c4 & _ & Hrun & _).
  apply bind_ok_inv in Hrun as (c5 & s3 & s'' & c6 & _ & Hrun & _).
  destruct info'; [|done]. by injection Hrun as _ _ _ _ <- _.
Qed.


End Methods.


(** ** The stat buffers *)

Lemma push_stat_length size stat x k :
  0 < size → 0 < k → length stat = k `min` size →
  length (push_stat size stat x) = (k + 1) `min` size.
Proof.
  intros Hsize Hk Hlen. unfold push_stat.
  rewrite length_app. simpl.
  destruct (size <? length stat + 1) eqn:Hfull.
  - apply Nat.ltb_lt in Hfull. rewrite length_drop, length_app. simpl. lia.
  - apply Nat.ltb_ge in Hfull. rewrite length_app. simpl. lia.
Qed.

(** At capacity a push drops the oldest entry and appends the new one. *)
Lemma push_stat_full size stat x :
  0 < size → length stat = size →
  push_stat size stat x = drop 1 stat ++ [x].
Proof.
  intros Hsize Hlen. unfold push_stat. rewrite length_app. simpl.
  destruct (size <? length stat + 1) eqn:Hfull.
  - rewrite drop_app_le; [done|lia].
  - apply Nat.ltb_ge in Hfull. lia.
Qed.

Lemma push_stats_lengths size t c (s : @State num) k :
  0 < size → 0 < k → stat_lengths_are (k `min` size) s →
  stat_lengths_are ((k + 1) `min` size) (push_stats size t c s).
Proof.
  intros Hsize Hk (H1 & H2 & H3 & H4).
  repeat split; simpl; by apply push_stat_length.
Qed.

Lemma stat_lengths_agree n (s s' : @State num) :
  agree_on stats_of s s' → stat_lengths_are n s → stat_lengths_are n s'.
Proof.
  unfold agree_on, stats_of, stat_lengths_are. intros [= -> -> -> ->]. done.
Qed.

Section Stats.
Variable cfg : @Config num.

Lemma reset_stats o s : agree_on stats_of s (reset cfg o s).1.2.
Proof.
  by destruct (safe_reset cfg (λ _, True) (agree_on stats_of) (λ _ _, I) o
                 (λ _ _, eq_refl) (λ _ _, eq_refl) (λ _ _, eq_refl)
                 (λ _ _, eq_refl) s) as (_ & Hs & _).
Qed.

Lemma act_and_score_stats o action s :
  agree_on stats_of s (act_and_score cfg o action s).1.2.
Proof.
  by destruct (act_and_score_safe_at cfg (λ _, True) (agree_on stats_of)
                 o action s (λ _ _, I) (Forall_true _ _ (λ _, I))
                 (λ _ _, eq_refl) (λ _ _ _ _ _ _ _ _ _, eq_refl))
       as (_ & Hs & _).
Qed.

Lemma report_stats o t e s : agree_on stats_of s (report cfg o t e s).1.2.
Proof.
  by destruct (safe_report cfg (λ _, True) (agree_on stats_of) (λ _ _, I)
                 o t e (λ _ _, eq_refl) s) as (_ & Hs & _).
Qed.

(** A call of [step] pushes one entry on every stat buffer if it reaches
    the stat update with [done] true and leaves the buffers alone if it
    does not. *)
Lemma step_stat_lengths o action s k :
  0 < stat_buffer_size cfg → 0 < k →
  stat_lengths_are (k `min` stat_buffer_size cfg) s →
  stat_lengths_are
    ((k + if pushes_stats cfg o action s then 1 else 0) `min` stat_buffer_size cfg)
    (step cfg o action s).1.2.
Proof.
  intros Hsize Hk Hlen. unfold step, pushes_stats. rewrite bind_run.
  pose proof (act_and_score_stats o action s) as Hact.
  destruct (act_and_score cfg o action s) as [[c1 s1] [[e infos]| err |]];
    cbn [fst snd] in *;
    [|rewrite Nat.add_0_r; by eapply stat_lengths_agree..].
  eapply stat_lengths_agree in Hlen; [|exact Hact].
  rewrite bind_run, account_run. cbv zeta.
  set (t := aggregate (world_collision s1) infos).
  set (s2 := advance_tracking _ _ _).
  assert (Hlen2 : stat_lengths_are (k `min` stat_buffer_size cfg) s2) by done.
  destruct (done t).
  - pose proof (report_stats o t e
        (push_stats (stat_buffer_size cfg) t (world_collision s1) s2)) as Hrep.
    destruct (report cfg o t e _) as [[c3 s3] r3]. cbn [fst snd] in *.
    eapply stat_lengths_agree; [exact Hrep|]. by apply push_stats_lengths.
  - pose proof (report_stats o t e s2) as Hrep.
    destruct (report cfg o t e _) as [[c3 s3] r3]. cbn [fst snd] in *.
    rewrite Nat.add_0_r. by eapply stat_lengths_agree.
Qed.

(** For a call of [step] that returns, the buffers are pushed exactly
    when it returns [done] true. *)
Lemma pushes_stats_returned o action s obs rew d info :
  (step cfg o action s).2 = Ok (obs, rew, d, info) →
  pushes_stats cfg o action s = d.
Proof.
  destruct (step cfg o action s) as [[c s'] r] eqn:Hrun. simpl. intros ->.
  unfold step in Hrun.
  apply bind_ok_inv in Hrun as (c1 & s1 & [e infos] & c2 & Hact & Hrun & _).
  unfold pushes_stats. rewrite Hact.
  apply bind_ok_inv in Hrun as (c3 & s2 & t & c4 & Hacc & Hrep & _).
  rewrite account_run in Hacc. apply report_value in Hrep.
  assert (t = aggregate (world_collision s1) infos) as -> by congruence.
  done.
Qed.

Lemma returns_done_pushes o action s :
  returns_done cfg o action s = true → pushes_stats cfg o action s = true.
Proof.
  unfold returns_done.
  destruct (step cfg o action s).2 as [[[[obs rew] d] info]| e |] eqn:Hrun;
    [|done..].
  intros ->. by eapply pushes_stats_returned.
Qed.

Lemma done_returned_le_pushes es : ∀ s,
  done_returned cfg es s ≤ stat_pushes cfg es s.
Proof.
  induction es as [|e es IH]; intros s; [done|].
  cbn [done_returned stat_pushes]. specialize (IH (run_event cfg e s).2).
  destruct e as [o|o action]; [lia|].
  destruct (returns_done cfg o action s) eqn:Hd; [|lia].
  rewrite (returns_done_pushes _ _ _ Hd). lia.
Qed.

Lemma episodes_le_done_returned es : ∀ running s,
  episodes_completed_from cfg running es s ≤ done_returned cfg es s.
Proof.
  induction es as [|e es IH]; intros running s; [done|].
  cbn [episodes_completed_from done_returned]. cbv zeta.
  destruct e as [o|o action]; [apply IH|].
  destruct (returns_done cfg o action s), running; simpl;
    first [apply le_n_S, IH | etrans; [apply IH|lia]].
Qed.

Lemma pushes_eq_done_returned es : ∀ s,
  steps_return cfg es s = true → stat_pushes cfg es s = done_returned cfg es s.
Proof.
  induction es as [|e es IH]; intros s; [done|].
  cbn [steps_return stat_pushes done_returned].
  intros [He Hes]%andb_prop. rewrite (IH _ Hes).
  destruct e as [o|o action]; [done|]. f_equal.
  unfold returns_done.
  destruct (step cfg o action s).2 as [[[[obs rew] d] info]| err |] eqn:Hrun;
    [|done..].
  by rewrite (pushes_stats_returned _ _ _ _ _ _ _ Hrun).
Qed.

(** C5, as the code has it. Every stat buffer starts with one [False]
    entry and gets one entry in every call of [step] that reaches the
    stat update with [done] true, so after any sequence of calls of
    [reset] and [step] each of the four buffers holds exactly [min (pushes
    + 1) stat_buffer_size] entries, which never exceeds
    [stat_buffer_size]; and a push on a buffer at capacity drops its
    oldest entry and appends the new one.  The pushes are not the
    episodes of the specification: a call that returns pushes exactly
    when it returns [done] true, whether or not a [reset] came since the
    last such call, and a call that raises after the update has pushed
    too; so the completed episodes are at most the calls that returned
    [done] true, which are at most the pushes, and these are the pushes
    when no call of [step] raises. *)
Theorem stat_buffer_lengths (es : list Event) (now : num) :
  0 < stat_buffer_size cfg →
  let s0 := init_state now in
  let s := (run cfg es s0).2 in
  let size := stat_buffer_size cfg in
  stat_lengths_are ((stat_pushes cfg es s0 + 1) `min` size) s ∧
  length (success_stat s) ≤ size ∧
  length (timeout_stat s) ≤ size ∧
  length (out_of_bounds_stat s) ≤ size ∧
  length (collision_stat s) ≤ size ∧
  (∀ stat x, length stat = size → push_stat size stat x = drop 1 stat ++ [x]) ∧
  (∀ o action s1 obs rew d info,
     (step cfg o action s1).2 = Ok (obs, rew, d, info) →
     pushes_stats cfg o action s1 = d) ∧
  episodes_completed cfg es s0 ≤ done_returned cfg es s0 ∧
  done_returned cfg es s0 ≤ stat_pushes cfg es s0 ∧
  (steps_return cfg es s0 = true → stat_pushes cfg es s0 = done_returned cfg es s0).
Proof.
  intros Hsize s0 s size.
  assert (Hgen : ∀ es s1 k, 0 < k →
            stat_lengths_are (k `min` size) s1 →
            stat_lengths_are ((stat_pushes cfg es s1 + k) `min` size)
              (run cfg es s1).2).
  { clear es s. intros es. induction es as [|e es IH]; intros s1 k Hk Hlen.
    - done.
    - cbn [run stat_pushes].
      destruct e as [o|o action]; cbn [run_event].
      + pose proof (reset_stats o s1) as Hres.
        destruct (reset cfg o s1) as [[c1 s2] r1]. cbn [fst snd] in *.
        specialize (IH s2 k Hk (stat_lengths_agree _ _ _ Hres Hlen)).
        by destruct (run cfg es s2) as [c2 s3].
      + pose proof (step_stat_lengths o action s1 k Hsize Hk Hlen) as Hstep.
        destruct (step cfg o action s1) as [[c1 s2] r1]. cbn [fst snd] in *.
        destruct (pushes_stats cfg o action s1).
        * specialize (IH s2 (k + 1) ltac:(lia) Hstep).
          destruct (run cfg es s2) as [c2 s3]. cbn [fst snd] in *.
          by replace (1 + stat_pushes cfg es s2 + k)
            with (stat_pushes cfg es s2 + (k + 1)) by lia.
        * rewrite Nat.add_0_r in Hstep. specialize (IH s2 k Hk Hstep).
          by destruct (run cfg es s2) as [c2 s3]. }
  assert (Hs : stat_lengths_are ((stat_pushes cfg es s0 + 1) `min` size) s).
  { apply Hgen; [lia|]. unfold size. rewrite Nat.min_l by lia. done. }
  split; [exact Hs|].
  destruct Hs as (H1 & H2 & H3 & H4).
  do 4 (split; [lia|]).
  split; [intros stat x Hlen; by apply push_stat_full|].
  split; [intros; by eapply pushes_stats_returned|].
  split; [apply episodes_le_done_returned|].
  split; [apply done_returned_le_pushes|apply pushes_eq_done_returned].
Qed.

End Stats.

(** ** The action vector's length is never looked at *)

Lemma bind_result {A B} (m : M (num := num) A) (f : A → M B) s :
  ((m ≫= f) s).2 =
    match (m s).2 with
    | Ok a => (f a (m s).1.2).2
    | Raise e => Raise e
    | OutOfFuel => OutOfFuel
    end.
Proof.
  rewrite bind_run. destruct (m s) as [[c1 s1] [a| e |]]; simpl; [|done..].
  by destruct (f a s1) as [[??]?].
Qed.

Lemma bind_calls_prefix {A B} (m : M (num := num) A) (f : A → M B) s :
  (m s).1.1 `prefix_of` ((m ≫= f) s).1.1.
Proof.
  rewrite bind_run. destruct (m s) as [[c1 s1] [a| e |]]; simpl; [|done..].
  destruct (f a s1) as [[c2 s2] r2]. by apply prefix_app_r.
Qed.

Section Lengths.
Variable cfg : @Config num.

Lemma get_active_robots_run (s : @State num) :
  get_active_robots s =
    ([], s, match active_robots s with
            | Some l => Ok l
            | None => Raise AttributeError
            end).
Proof.
  unfold get_active_robots. rewrite bind_run. simpl.
  by destruct (active_robots s).
Qed.

Lemma perform_collision_check_run (o : @Oracle num) k s :
  perform_collision_check o k s =
    ([WorldPerformCollisionCheck], set_world_collision (collision_check o k) s,
     Ok ()).
Proof. reflexivity. Qed.

Lemma index_run {A} (l : list A) idx (s : @State num) :
  index l idx s =
    ([], s, match l !! idx with Some x => Ok x | None => Raise IndexError end).
Proof. unfold index. by destruct (l !! idx). Qed.

(** The action loop ends the same way, with as many execution times,
    whatever the vector holds. *)
Lemma apply_actions_rel o action action' rs : ∀ idx offset offset' e e' s,
  length e = length e' →
  same_kind (λ x x', length x = length x')
    (apply_actions cfg o action rs idx offset e s).2
    (apply_actions cfg o action' rs idx offset' e' s).2.
Proof.
  induction rs as [|robot rest IH]; intros idx offset offset' e e' s Hlen.
  - done.
  - cbn [apply_actions].
    rewrite !bind_result, !get_active_robots_run. cbn [fst snd].
    destruct (active_robots s) as [l|]; [|done].
    rewrite !bind_result, !index_run. cbn [fst snd].
    destruct (l !! idx) as [[]|]; cbn [negb]; [| by apply IH | done].
    rewrite !bind_result, !index_run. cbn [fst snd].
    destruct (action_space_dims cfg !! idx) as [d|]; [|done].
    rewrite !bind_result. cbn [call fst snd].
    apply IH. rewrite !length_app. simpl. lia.
Qed.

Lemma act_and_score_rel o action action' s :
  (act_and_score cfg o action s).1.2 = (act_and_score cfg o action' s).1.2 ∧
  same_kind (λ x x', length x.1 = length x'.1 ∧ x.2 = x'.2)
    (act_and_score cfg o action s).2 (act_and_score cfg o action' s).2.
Proof.
  unfold act_and_score. rewrite !bind_call. cbn [fst snd].
  pose proof (apply_actions_rel o action action' (robots cfg) 0 0 0 [] [] s
                eq_refl) as Hrel.
  pose proof (apply_actions_state cfg o action (robots cfg) 0 0 [] s) as Hs.
  pose proof (apply_actions_state cfg o action' (robots cfg) 0 0 [] s) as Hs'.
  rewrite !(bind_run (apply_actions _ _ _ _ _ _ _)).
  destruct (apply_actions cfg o action _ _ _ _ s) as [[c1 s1] [e| err |]];
    destruct (apply_actions cfg o action' _ _ _ _ s) as [[c1' s1'] [e'| err' |]];
    cbn [fst snd] in *; subst; try done.
  rewrite !(bind_run (for_each _ _ _)), !for_each_call.
  rewrite !(bind_run (perform_collision_check _ _)).
  rewrite !perform_collision_check_run. cbv beta iota zeta.
  rewrite !(bind_run (collect_rewards _ _ _ _)).
  destruct (collect_rewards o (goals cfg) 0 [] _) as [[c2 s2] [infos| err |]];
    simpl in *; auto.
Qed.

Lemma returns_ret {A} (Q : A → Prop) (a : A) :
  Q a → returns (num := num) Q (mret a).
Proof. intros Ha s. by eexists _, _, _. Qed.

Lemma returns_get Q : (∀ s, Q s) → returns (num := num) Q get.
Proof. intros HQ s. by eexists _, _, _. Qed.

Lemma returns_call (c : @Call num) : returns (λ _, True) (call c).
Proof. intros s. by eexists _, _, _. Qed.

Lemma returns_modify (f : @State num → _) : returns (λ _, True) (modify f).
Proof. intros s. by eexists _, _, _. Qed.

Lemma returns_bind {A B} (Q : B → Prop) (m : M (num := num) A) (f : A → M B) :
  returns (λ _, True) m → (∀ a, returns Q (f a)) → returns Q (m ≫= f).
Proof.
  intros Hm Hf s. destruct (Hm s) as (c1 & s1 & a & Hrun & _).
  destruct (Hf a s1) as (c2 & s2 & b & Hrun2 & Hb).
  erewrite bind_ok; [|done]. rewrite Hrun2. by eexists _, _, _.
Qed.

Lemma returns_merge_values {Q} (opts_in : Q → bool) (asks : nat → @Call num)
    answer plugins idx d :
  returns (λ _, True) (merge_values opts_in asks answer plugins idx d).
Proof.
  intros s. destruct (merge_values_run opts_in asks answer plugins idx d s)
    as (c & d' & ->). by eexists _, _, _.
Qed.

(** Proves that a computation built from calls, assignments and the
    merging loops returns. *)
Ltac returns_tac :=
  repeat first
    [ apply returns_ret | apply returns_get; intros | apply returns_call
    | apply returns_modify | apply returns_merge_values
    | apply returns_bind; [|intros]
    | match goal with
      | |- returns _ (if ?b then _ else _) => destruct b
      end ].

Lemma add_action_cpu_times_rel rs : ∀ idx (e e' : list num) info info' s,
  length e = length e' →
  (add_action_cpu_times rs idx e info s).1.2 = s ∧
  (add_action_cpu_times rs idx e' info' s).1.2 = s ∧
  same_kind (λ _ _, True)
    (add_action_cpu_times rs idx e info s).2
    (add_action_cpu_times rs idx e' info' s).2.
Proof.
  induction rs as [|robot rest IH]; intros idx e e' info info' s Hlen.
  - done.
  - cbn [add_action_cpu_times]. rewrite !bind_run, !index_run.
    destruct (e !! idx) as [x|] eqn:Hx; destruct (e' !! idx) as [x'|] eqn:Hx';
      try done.
    + specialize (IH (S idx) e e'
        (<["action_cpu_time_" +:+ name robot := VNum x]> info)
        (<["action_cpu_time_" +:+ name robot := VNum x']> info') s Hlen).
      destruct (add_action_cpu_times rest (S idx) e _ s) as [[??]?].
      by destruct (add_action_cpu_times rest (S idx) e' _ s) as [[??]?].
    + apply lookup_lt_Some in Hx. apply lookup_ge_None in Hx'. lia.
    + apply lookup_ge_None in Hx. apply lookup_lt_Some in Hx'. lia.
Qed.

(** Whether there is an [info] record does not depend on the execution
    times, only on how many there are. *)
Lemma make_info_rel o t (e e' : list num) s :
  length e = length e' →
  same_kind (λ i i', is_Some i ↔ is_Some i')
    (make_info cfg o t e s).2 (make_info cfg o t e' s).2.
Proof.
  intros Hlen. unfold make_info.
  destruct (_ || _); [|done].
  rewrite !bind_result. cbn [get fst snd]. rewrite !bind_result.
  match goal with
  | |- context [add_action_cpu_times ?rs ?idx e ?info s] =>
      destruct (add_action_cpu_times_rel rs idx e e' info info s Hlen)
        as (Hs & Hs' & Hrel)
  end.
  rewrite Hs, Hs'.
  destruct (add_action_cpu_times _ _ e _ s) as [[c1 s1] [info1| err |]];
    destruct (add_action_cpu_times _ _ e' _ s) as [[c1' s1'] [info1'| err' |]];
    cbn [fst snd] in *; try done.
  match goal with
  | |- same_kind _ (?m1 s).2 (?m2 s).2 =>
      (assert (returns is_Some m1) as H1 by (returns_tac; by eexists));
      (assert (returns is_Some m2) as H2 by (returns_tac; by eexists));
      destruct (H1 s) as (? & ? & ? & -> & ?);
      destruct (H2 s) as (? & ? & ? & -> & ?)
  end.
  done.
Qed.

Lemma report_rel o t (e e' : list num) s :
  length e = length e' →
  is_ok (report cfg o t e s).2 = is_ok (report cfg o t e' s).2.
Proof.
  intros Hlen. unfold report. rewrite !bind_result.
  pose proof (make_info_rel o t e e' s Hlen) as Hrel.
  destruct (make_info cfg o t e s) as [[c1 s1] [info| err |]];
    destruct (make_info cfg o t e' s) as [[c1' s1'] [info'| err' |]];
    cbn [fst snd] in *; try done.
  rewrite !bind_result.
  destruct (get_obs_run cfg o s1) as (c2 & obs & ->).
  destruct (get_obs_run cfg o s1') as (c2' & obs' & ->).
  cbn [fst snd]. rewrite !bind_result. cbn [get fst snd].
  destruct info, info'; try done.
  - destruct Hrel as [Hrel _]. by destruct Hrel.
  - destruct Hrel as [_ Hrel]. by destruct Hrel.
Qed.

(** Whether [step] returns or raises does not depend on the action
    vector. *)
Lemma step_ok_independent o action action' s :
  is_ok (step cfg o action s).2 = is_ok (step cfg o action' s).2.
Proof.
  unfold step. rewrite !bind_result.
  destruct (act_and_score_rel o action action' s) as (Hs & Hrel).
  rewrite <- Hs.
  destruct (act_and_score cfg o action s) as [[c1 s1] [[e infos]| err |]];
    destruct (act_and_score cfg o action' s) as [[c1' s1'] [[e' infos']| err' |]];
    cbn [fst snd] in *; try done.
  simpl in Hrel. destruct Hrel as [Hlen <-].
  rewrite !bind_result, !account_run. cbn [fst snd].
  by apply report_rel.
Qed.

Lemma act_and_score_first_call o action s :
  ∃ c, (act_and_score cfg o action s).1.1 = WorldUpdate :: c.
Proof. unfold act_and_score. rewrite bind_call. by eexists. Qed.

Lemma step_first_call o action s :
  head (step cfg o action s).1.1 = Some WorldUpdate.
Proof.
  unfold step.
  destruct (bind_calls_prefix (act_and_score cfg o action)
              (λ '(e, infos), account cfg o infos ≫= λ t, report cfg o t e) s)
    as [k Hk].
  destruct (act_and_score_first_call o action s) as [c Hc].
  rewrite Hc in Hk. by rewrite Hk.
Qed.

Lemma py_slice_length {A} (l : list A) lo hi :
  length (py_slice l lo hi) = (hi - lo) `min` (length l - lo).
Proof. unfold py_slice. by rewrite length_take, length_drop. Qed.

(** ** The parts of the action vector while every robot is active *)

(** The start of robot [idx]'s part of the action vector: the
    dimensionalities of the robots registered before it, added up. *)
Lemma sum_list_take_S (dims : list nat) idx d :
  dims !! idx = Some d →
  sum_list (take (S idx) dims) = sum_list (take idx dims) + d.
Proof.
  intros Hd. rewrite (take_S_r _ _ _ Hd), sum_list_with_app. simpl. lia.
Qed.

Lemma apply_actions_all_active o action s l rs : ∀ idx offset e,
  active_robots s = Some l →
  (∀ i, idx ≤ i < idx + length rs → l !! i = Some true) →
  offset = sum_list (take idx (action_space_dims cfg)) →
  ∀ j d,
    j < length rs →
    (∀ i, idx ≤ i ≤ idx + j → is_Some (action_space_dims cfg !! i)) →
    action_space_dims cfg !! (idx + j) = Some d →
    let b := sum_list (take (idx + j) (action_space_dims cfg)) in
    (apply_actions cfg o action rs idx offset e s).1.1 !! j
      = Some (RobotProcessAction (idx + j) (py_slice action b (d + b))).
Proof.
  induction rs as [|robot rest IH]; intros idx offset e Hl Hall Hoff j d Hj Hdims Hd b;
    [simpl in Hj; lia|].
  cbn [apply_actions].
  rewrite bind_run, get_active_robots_run, Hl.
  rewrite bind_run, index_run, (Hall idx) by (simpl; lia). cbn [negb].
  destruct (Hdims idx ltac:(lia)) as [d0 Hd0].
  rewrite bind_run, index_run, Hd0. rewrite bind_call. cbn [fst snd app].
  subst b. destruct j as [|j].
  - rewrite Nat.add_0_r in *. simpl.
    assert (d = d0) as -> by congruence. by rewrite Hoff.
  - simpl. specialize (IH (S idx) (offset + d0)
      (e ++ [process_action o idx (py_slice action offset (d0 + offset))])).
    replace (idx + S j) with (S idx + j) in * by lia.
    apply IH; try done.
    + intros i Hi. apply Hall. simpl. lia.
    + rewrite Hoff. symmetry. by apply sum_list_take_S.
    + simpl in Hj. lia.
    + intros i Hi. apply Hdims. lia.
Qed.

(** While every robot is active, robot [idx] is handed
    [action[b : b + d]], where [d] is its dimensionality and [b] the sum
    of the dimensionalities of the robots registered before it. *)
Theorem slices_while_all_active (o : Oracle) (action : list num) (s : State)
    (l : list bool) (idx d : nat) :
  active_robots s = Some l →
  (∀ i, i < length (robots cfg) → l !! i = Some true) →
  length (action_space_dims cfg) = length (robots cfg) →
  idx < length (robots cfg) →
  action_space_dims cfg !! idx = Some d →
  let b := sum_list (take idx (action_space_dims cfg)) in
  (step cfg o action s).1.1 !! (S idx)
    = Some (RobotProcessAction idx (py_slice action b (d + b))).
Proof.
  intros Hl Hall Hlen Hidx Hd b.
  eapply prefix_lookup_Some;
    [|apply (bind_calls_prefix (act_and_score cfg o action))].
  unfold act_and_score. rewrite bind_call. cbn [fst snd]. simpl.
  eapply prefix_lookup_Some; [|apply bind_calls_prefix].
  apply (apply_actions_all_active o action s l (robots cfg) 0 0 [] Hl); try done.
  - intros i Hi. apply Hall. lia.
  - intros i Hi. apply lookup_lt_is_Some. lia.
Qed.

End Lengths.

(** ** The initialization attempts *)

Section Reset.
Variable cfg : @Config num.

Lemma teleport_run idx ee_pos s :
  ∃ tele r, teleport cfg idx ee_pos s = (tele, s, r) ∧
            Forall (λ c, is_teleport c = true) tele ∧ length tele ≤ 1 ∧
            r ≠ OutOfFuel.
Proof.
  unfold teleport. destruct ee_pos as [[xyz|] [quat|]].
  1,2: rewrite bind_run, index_run; destruct (robots cfg !! idx); simpl;
       eexists _, _; (split; [done|]); repeat constructor; done.
  all: eexists [], _; (split; [done|]); repeat constructor; done.
Qed.

Lemma teleport_loop_run ee : ∀ idx s,
  ∃ tele r, for_each ee idx (teleport cfg) s = (tele, s, r) ∧
            Forall (λ c, is_teleport c = true) tele ∧
            length tele ≤ length ee ∧ r ≠ OutOfFuel.
Proof.
  induction ee as [|ee_pos ee IH]; intros idx s.
  - eexists [], _. split; [done|]. repeat constructor. done.
  - cbn [for_each]. rewrite bind_run.
    destruct (teleport_run idx ee_pos s) as (t1 & r1 & -> & Ht1 & Hl1 & Hr1).
    destruct r1 as [[]| err |]; [| |done].
    + destruct (IH (S idx) s) as (t2 & r2 & -> & Ht2 & Hl2 & Hr2).
      eexists _, _. split; [done|]. split; [by apply Forall_app|].
      split; [|done]. rewrite length_app. simpl. lia.
    + eexists _, _. split; [done|]. split; [done|]. split; [simpl; lia|done].
Qed.

(** The constraints of robots that exist are applied without an
    exception. *)
Lemma teleport_loop_ok ee : ∀ idx s,
  idx + length ee ≤ length (robots cfg) →
  (for_each ee idx (teleport cfg) s).2 = Ok ().
Proof.
  induction ee as [|ee_pos ee IH]; intros idx s Hlen; [done|].
  cbn [for_each]. rewrite bind_result. simpl in Hlen.
  destruct (teleport_run idx ee_pos s) as (t1 & r1 & Hrun & _).
  assert (Hr1 : r1 = Ok ()).
  { revert Hrun. unfold teleport.
    destruct (lookup_lt_is_Some_2 (robots cfg) idx ltac:(lia)) as [robot Hrobot].
    destruct ee_pos as [[xyz|] [quat|]];
      rewrite ?bind_run, ?index_run, ?Hrobot; unfold ret; simpl;
      intros Hrun; by injection Hrun as _ <-. }
  rewrite Hrun, Hr1. cbn [fst snd]. apply IH. lia.
Qed.

(** An attempt either runs to its collision check and answers what the
    check found, or ends in an exception raised by a teleport. *)
Lemma attempt_run o reset_count s :
  ∃ tele,
    Forall (λ c, is_teleport c = true) tele ∧
    length tele ≤ length (create_ee_starting_points o reset_count) ∧
    match (for_each (create_ee_starting_points o reset_count) 0 (teleport cfg) s).2 with
    | Ok _ =>
        attempt cfg o reset_count s =
          (attempt_prefix cfg tele ++ [WorldPerformCollisionCheck],
           set_world_collision (collision_check o reset_count) s,
           Ok (collision_check o reset_count))
    | Raise e => attempt cfg o reset_count s = (attempt_prefix cfg tele, s, Raise e)
    | OutOfFuel => False
    end.
Proof.
  destruct (teleport_loop_run (create_ee_starting_points o reset_count) 0 s)
    as (tele & r & Hrun & Htele & Hlen & Hr).
  exists tele. split; [done|]. split; [done|].
  rewrite Hrun. cbn [snd].
  unfold attempt, attempt_prefix. rewrite 2!bind_call.
  erewrite bind_ok by apply for_each_call. cbn [fst snd].
  rewrite bind_call. cbv zeta. rewrite 3!bind_call. cbn [fst snd].
  rewrite bind_run, Hrun.
  destruct r as [[]| err |]; [| |done].
  - rewrite bind_run, perform_collision_check_run. simpl.
    by rewrite <- !app_assoc.
  - simpl. done.
Qed.

(** C8, as the code has it. In every initialization attempt the
    starting constraints are asked of the world before [world.build()],
    but they are applied, through the robots' teleport operations, after
    [world.build()] has been called and before the collision check: the
    calls of an attempt are the simulation and world resets, the robots'
    builds, [create_ee_starting_points], the two target creations,
    [world.build()], then the teleports (at most one per constraint), then
    the collision check (unless a teleport raised). *)
Theorem teleports_follow_world_build (o : Oracle) (reset_count : nat) (s : State) :
  ∃ tele post,
    (attempt cfg o reset_count s).1.1 =
      [PybResetSimulation; WorldReset]
      ++ (RobotBuild <$> seq 0 (length (robots cfg)))
      ++ [WorldCreateEeStartingPoints; WorldCreatePositionTarget;
          WorldCreateRotationTarget; WorldBuild]
      ++ tele ++ post ∧
    Forall (λ c, is_teleport c = true) tele ∧
    length tele ≤ length (create_ee_starting_points o reset_count) ∧
    (post = [] ∨ post = [WorldPerformCollisionCheck]).
Proof.
  destruct (attempt_run o reset_count s) as (tele & Htele & Hlen & Hrun).
  exists tele.
  destruct (for_each _ 0 (teleport cfg) s).2 as [[]| err |]; [| |done].
  - exists [WorldPerformCollisionCheck]. rewrite Hrun. unfold attempt_prefix.
    cbn [fst]. rewrite <- !app_assoc. auto.
  - exists []. rewrite Hrun. unfold attempt_prefix. cbn [fst].
    rewrite app_nil_r. auto.
Qed.

(** ** Exhaustion of the attempts *)

Lemma attempts_app (c1 c2 : list (@Call num)) :
  attempts (c1 ++ c2) = attempts c1 + attempts c2.
Proof. unfold attempts. by rewrite List.filter_app, length_app. Qed.

Lemma attempts_none (c : list (@Call num)) :
  Forall (λ x, is_collision_check x = false) c → attempts c = 0.
Proof.
  unfold attempts. induction 1 as [|x c Hx _ IH]; [done|].
  simpl. by rewrite Hx.
Qed.

Lemma attempts_prefix tele :
  Forall (λ c, is_teleport c = true) tele → attempts (attempt_prefix cfg tele) = 0.
Proof.
  intros Htele. unfold attempt_prefix. rewrite !attempts_app.
  rewrite (attempts_none (RobotBuild <$> _)), (attempts_none tele); [done| |].
  - eapply Forall_impl; [exact Htele|]. by intros [].
  - apply Forall_fmap, Forall_true. done.
Qed.

(** When every attempt collides, the loop of [reset] makes an attempt for
    every count from [reset_count] to 1000 and then raises. *)
Lemma reset_loop_exhausts o :
  (∀ k, collision_check o k = true) →
  (∀ k, length (create_ee_starting_points o k) ≤ length (robots cfg)) →
  ∀ fuel reset_count s,
    reset_count ≤ 1001 → 1002 ≤ fuel + reset_count →
    ∃ c s', reset_loop cfg fuel o reset_count s
              = (c, s', Raise (Exception no_start_found)) ∧
            attempts c = 1001 - reset_count.
Proof.
  intros Hcol Hee. induction fuel as [|fuel IH]; intros rc s Hle Hfuel; [lia|].
  cbn [reset_loop]. destruct (1000 <? rc) eqn:Hguard.
  - apply Nat.ltb_lt in Hguard. eexists [], s. split; [done|].
    change (attempts (num := num) []) with 0. lia.
  - apply Nat.ltb_ge in Hguard.
    destruct (attempt_run o rc s) as (tele & Htele & _ & Hrun).
    rewrite (teleport_loop_ok _ 0 s) in Hrun by apply Hee.
    rewrite bind_run, Hrun, Hcol. cbn [negb].
    destruct (IH (rc + 1) (set_world_collision true s) ltac:(lia) ltac:(lia))
      as (c & s' & -> & Hc).
    eexists _, _. split; [done|].
    rewrite !attempts_app, attempts_prefix, Hc by done.
    change (attempts (num := num) [WorldPerformCollisionCheck]) with 1. lia.
Qed.

(** With a world in which every attempt collides, [reset] raises the
    exception of line 201 after 1001 attempts, whatever the environment
    holds. *)
Theorem reset_exhausts_after_1001_attempts (o : Oracle) (s : State) :
  (∀ k, collision_check o k = true) →
  (∀ k, length (create_ee_starting_points o k) ≤ length (robots cfg)) →
  (reset cfg o s).2 = Raise (Exception no_start_found) ∧
  attempts (reset cfg o s).1.1 = 1001.
Proof.
  intros Hcol Hee. unfold reset, reset_with_fuel.
  rewrite bind_call. cbn [fst snd].
  rewrite bind_run. cbn [modify].
  destruct (reset_loop_exhausts o Hcol Hee reset_fuel 0
              (reset_tracking (time o) s) ltac:(lia) ltac:(unfold reset_fuel; lia))
    as (c & s' & Hrun & Hc).
  rewrite bind_run, Hrun. cbn [fst snd]. split; [done|].
  rewrite app_nil_l.
  change (attempts (PybConfigureRendering false :: c)) with (attempts c).
  rewrite Hc. lia.
Qed.

(** ** A start without collision *)

(** When the loop of attempts is left without an exception, the last
    collision check found nothing. *)
Lemma reset_loop_ok o : ∀ fuel reset_count s c s',
  reset_loop cfg fuel o reset_count s = (c, s', Ok ()) →
  world_collision s' = false.
Proof.
  induction fuel as [|fuel IH]; intros rc s c s' Hrun; [done|].
  cbn [reset_loop] in Hrun. destruct (1000 <? rc); [done|].
  apply bind_ok_inv in Hrun as (c1 & s1 & b & c2 & Hatt & Hrun & _).
  destruct (attempt_run o rc s) as (tele & _ & _ & Hshape).
  destruct (for_each _ 0 (teleport cfg) s).2 as [[]| err |];
    [|congruence|done].
  rewrite Hshape in Hatt. injection Hatt as _ <- <-.
  destruct (collision_check o rc) eqn:Hcol; cbn [negb] in Hrun.
  - by eapply IH.
  - injection Hrun as _ <-. done.
Qed.

(** When [reset] returns, [world.collision] is false. *)
Theorem reset_leaves_no_collision (o : Oracle) (s : State) obs :
  (reset cfg o s).2 = Ok obs →
  world_collision (reset cfg o s).1.2 = false.
Proof.
  destruct (reset cfg o s) as [[c s'] r] eqn:Hrun. cbn [fst snd]. intros ->.
  unfold reset, reset_with_fuel in Hrun.
  apply bind_ok_inv in Hrun as (c1 & s1 & [] & c2 & [= _ <-] & Hrun & _).
  apply bind_ok_inv in Hrun as (c3 & s2 & [] & c4 & [= _ <-] & Hrun & _).
  apply bind_ok_inv in Hrun as (c5 & s3 & [] & c6 & Hloop & Hrun & _).
  apply reset_loop_ok in Hloop.
  destruct (safe_finish_reset cfg (λ _, True) (agree_on world_collision)
              (λ _ _, I) o (λ _ _, eq_refl) (λ _ _, eq_refl) s3) as (_ & Hs & _).
  rewrite Hrun in Hs. unfold agree_on in Hs. cbn [fst snd] in Hs. congruence.
Qed.

(** [reset] ends: the loop of attempts is left, by [break] or by the
    exception of line 201, before the model's budget is used up. *)
Lemma reset_total o s : (reset cfg o s).2 ≠ OutOfFuel.
Proof.
  by destruct (safe_reset cfg (λ _, True) (agree_on stats_of) (λ _ _, I) o
                 (λ _ _, eq_refl) (λ _ _, eq_refl) (λ _ _, eq_refl)
                 (λ _ _, eq_refl) s) as (_ & _ & Hr).
Qed.

End Reset.

(** C4, as the code has it. Composing the observation space never
    fails on a key that two plugins share: [__init__] builds the
    environment whenever [joint_control] has an entry for every robot, and
    under every key the composed space holds the element of the last
    opted-in plugin that contributes the key (sensors before goals, each
    in registration order): a later plugin replaces an earlier one. *)
Theorem observation_space_last_wins (a : @InitArgs num) :
  length (arg_robots a) ≤ length (arg_joint_control a) →
  ∃ cfg, init a = Ok cfg ∧
    ∀ k, observation_space cfg !! k =
           last (omap (.!! k) (contributions (arg_sensors a) (arg_goals a))).
Proof.
  intros Hlen. unfold init.
  pose proof (compose_action_space_dims_ok (arg_robots a) 0
                (arg_joint_control a) [] Hlen) as Hok.
  destruct (compose_action_space_dims _ _ _ _) as [dims| |]; [|done..].
  eexists. split; [done|]. intros k. simpl.
  apply compose_observation_space_lookup.
Qed.

(** ** Observations *)

Lemma opted_in_lookup {P} (opts_in : P → bool) (plugins : list P) : ∀ idx i,
  i ∈ opted_in opts_in plugins idx ↔
    ∃ p, idx ≤ i ∧ plugins !! (i - idx) = Some p ∧ opts_in p = true.
Proof.
  induction plugins as [|p rest IH]; intros idx i; simpl.
  - split; [by intros ?%elem_of_nil|by intros (p & _ & ? & _)].
  - assert (Hrest : i ∈ opted_in opts_in rest (S idx) ↔
              ∃ q, idx < i ∧ (p :: rest) !! (i - idx) = Some q ∧ opts_in q = true).
    { rewrite IH. split; intros (q & Hi & Hq & Hopt); exists q.
      - replace (i - idx) with (S (i - S idx)) by lia. done.
      - replace (i - idx) with (S (i - S idx)) in Hq by lia. done. }
    destruct (opts_in p) eqn:Hp.
    + rewrite elem_of_cons, Hrest. split.
      * intros [->|(q & Hi & Hq & Hopt)].
        -- exists p. rewrite Nat.sub_diag. done.
        -- exists q. split; [lia|done].
      * intros (q & Hi & Hq & Hopt).
        destruct (decide (i = idx)) as [->|Hne]; [by left|right].
        exists q. split; [lia|done].
    + rewrite Hrest. split.
      * intros (q & Hi & Hq & Hopt). exists q. split; [lia|done].
      * intros (q & Hi & Hq & Hopt).
        destruct (decide (i = idx)) as [->|Hne].
        -- rewrite Nat.sub_diag in Hq. simpl in Hq. congruence.
        -- exists q. split; [lia|done].
Qed.

(** A merging loop asks the plugins that opt in, in order, leaves the
    object alone, and returns the dict in which every key holds what the
    last asked plugin that has the key answered, or what the dict held
    before if none has. *)
Lemma merge_values_exact {Q} (opts_in : Q → bool) (asks : nat → @Call num) answer
    (plugins : list Q) : ∀ idx d s,
  ∃ d', merge_values opts_in asks answer plugins idx d s
          = (asks <$> opted_in opts_in plugins idx, s, Ok d') ∧
        ∀ k, d' !! k =
               match last (omap (.!! k) (answer <$> opted_in opts_in plugins idx)) with
               | Some v => Some v
               | None => d !! k
               end.
Proof.
  induction plugins as [|p plugins IH]; intros idx d s; simpl.
  - by exists d.
  - destruct (opts_in p); [|apply IH].
    destruct (IH (S idx) (py_merge d (answer idx)) s) as (d' & Hrun & Hd').
    exists d'. split.
    + erewrite bind_ok; [|done]. by rewrite Hrun.
    + intros k. rewrite Hd', lookup_py_merge. simpl.
      destruct (answer idx !! k) as [v|]; [|done].
      rewrite last_cons. by destruct (last _).
Qed.

Lemma get_obs_exact (cfg : @Config num) (o : Oracle) (s : State) :
  ∃ obs,
    _get_obs cfg o s =
      ((SensorGetObservation
          <$> opted_in sensor_add_to_observation_space (sensors cfg) 0)
       ++ (GoalGetObservation
             <$> opted_in goal_add_to_observation_space (goals cfg) 0), s, Ok obs).
Proof.
  unfold _get_obs.
  destruct (merge_values_exact sensor_add_to_observation_space
              SensorGetObservation (sensor_get_observation o) (sensors cfg) 0 ∅ s)
    as (d1 & Hrun1 & _).
  destruct (merge_values_exact goal_add_to_observation_space
              GoalGetObservation (goal_get_observation o) (goals cfg) 0 d1 s)
    as (d2 & Hrun2 & _).
  exists d2. eapply run_eq.
  - eapply bind_seq; [exact Hrun1|]. eapply bind_seq; [exact Hrun2|]. reflexivity.
  - by rewrite app_nil_r.
  - reflexivity.
Qed.

(** [_get_obs] never raises and changes nothing: it asks the sensors that
    add to the observation space, then the goals that do, each in
    registration order, and returns the dict in which every key holds
    what the last of them that has the key reported. *)
Theorem get_obs_asks_opted_in (cfg : @Config num) (o : Oracle) (s : State) :
  let asked_sensors := opted_in sensor_add_to_observation_space (sensors cfg) 0 in
  let asked_goals := opted_in goal_add_to_observation_space (goals cfg) 0 in
  ∃ obs,
    _get_obs cfg o s =
      ((SensorGetObservation <$> asked_sensors)
       ++ (GoalGetObservation <$> asked_goals), s, Ok obs) ∧
    ∀ k, obs !! k =
           last (omap (.!! k)
                   ((sensor_get_observation o <$> asked_sensors)
                    ++ (goal_get_observation o <$> asked_goals))).
Proof.
  intros asked_sensors asked_goals. subst asked_sensors asked_goals.
  unfold _get_obs.
  destruct (merge_values_exact sensor_add_to_observation_space
              SensorGetObservation (sensor_get_observation o) (sensors cfg) 0 ∅ s)
    as (d1 & Hrun1 & Hd1).
  destruct (merge_values_exact goal_add_to_observation_space
              GoalGetObservation (goal_get_observation o) (goals cfg) 0 d1 s)
    as (d2 & Hrun2 & Hd2).
  exists d2. split.
  - eapply run_eq.
    + eapply bind_seq; [exact Hrun1|]. eapply bind_seq; [exact Hrun2|].
      reflexivity.
    + by rewrite app_nil_r.
    + reflexivity.
  - intros k. rewrite Hd2, Hd1, lookup_empty, omap_app, last_app.
    destruct (last (omap _ (goal_get_observation o <$> _))); [done|].
    by destruct (last _).
Qed.

(** ** Construction *)

(** [__init__] returns exactly when [joint_control] has an entry for
    every robot; when it has fewer, reading [self.joint_control[idx]]
    raises [IndexError]. *)
Theorem init_needs_joint_control (a : @InitArgs num) :
  (length (arg_robots a) ≤ length (arg_joint_control a) → is_ok (init a) = true) ∧
  (length (arg_joint_control a) < length (arg_robots a) → init a = Raise IndexError).
Proof.
  unfold init. split; intros Hlen.
  - rewrite compose_action_space_dims_run by (simpl; lia). done.
  - rewrite compose_action_space_dims_short by (simpl; lia). done.
Qed.

(** The action space [__init__] builds: one dimensionality per robot, in
    registration order, the robot's joint count where its entry of
    [joint_control] is true and its inverse-kinematics count where it is
    false; the space is a box from -1 to 1 whose one axis is as long as
    the dimensionalities added up.  The stat buffers are sized 25. *)
Theorem init_action_space (a : @InitArgs num) (cfg : Config) :
  init a = Ok cfg →
  length (action_space_dims cfg) = length (arg_robots a) ∧
  (∀ idx robot (joint : bool),
     arg_robots a !! idx = Some robot →
     arg_joint_control a !! idx = Some joint →
     action_space_dims cfg !! idx
       = Some (if joint then (get_action_space_dims robot).2
               else (get_action_space_dims robot).1)) ∧
  action_space cfg
    = {| low := (-1)%Z; high := 1%Z; shape := [sum_list (action_space_dims cfg)] |} ∧
  robots cfg = arg_robots a ∧
  stat_buffer_size cfg = 25.
Proof.
  intros Hinit.
  destruct (decide (length (arg_robots a) ≤ length (arg_joint_control a)))
    as [Hlen|Hlen].
  - unfold init in Hinit.
    rewrite compose_action_space_dims_run in Hinit by (simpl; lia).
    injection Hinit as <-. simpl. rewrite drop_0.
    split; [rewrite length_zip_with; lia|]. split; [|done].
    intros idx robot joint Hr Hj. rewrite lookup_zip_with, Hr. simpl.
    by rewrite Hj.
  - unfold init in Hinit.
    rewrite compose_action_space_dims_short in Hinit by (simpl; lia). done.
Qed.

(** ** What [reset] leaves behind *)

Section Episode.
Variable cfg : @Config num.

(** The loop of lines 250-251: every goal is told the success rate, which
    the loop does not change, and its answers are collected in order. *)
Lemma goal_reset_loop_run (o : @Oracle num) (gs : list Goal) : ∀ idx (s : @State num),
  ∃ s',
    for_each gs idx (λ idx _,
      s ← get;
      let rate := np_average_bool (success_stat s) in
      call (GoalOnEnvReset idx rate) ;;
      modify (set_goal_metrics (goal_metrics s ++ [on_env_reset o idx rate]))) s
    = ((λ i, GoalOnEnvReset i (np_average_bool (success_stat s)))
         <$> seq idx (length gs), s', Ok ()) ∧
    goal_metrics s' =
      goal_metrics s ++ ((λ i, on_env_reset o i (np_average_bool (success_stat s)))
                           <$> seq idx (length gs)) ∧
    agree_on (λ s, (tracking_of s, stats_of s, active_robots s, world_collision s))
      s s'.
Proof.
  induction gs as [|goal gs IH]; intros idx s.
  - exists s. simpl. by rewrite app_nil_r.
  - cbn [for_each].
    set (rate := np_average_bool (success_stat s)).
    set (s1 := set_goal_metrics (goal_metrics s ++ [on_env_reset o idx rate]) s).
    destruct (IH (S idx) s1) as (s' & Hrun & Hgm & Hfr).
    exists s'.
    rewrite (bind_ok _ _ s [GoalOnEnvReset idx rate] s1 ()) by reflexivity.
    cbv zeta in Hrun. rewrite Hrun. cbn [fst snd].
    split; [done|]. split; [|exact Hfr].
    rewrite Hgm. simpl. by rewrite <- app_assoc.
Qed.

(** Lines 241-263, run from [s]: the calls in order, and what is
    assigned. *)
Lemma finish_reset_run (o : @Oracle num) (s : @State num) :
  ∃ s' c obs,
    finish_reset cfg o s =
      ((SensorReset <$> seq 0 (length (sensors cfg)))
       ++ ((λ i, GoalOnEnvReset i (np_average_bool (success_stat s)))
             <$> seq 0 (length (goals cfg)))
       ++ (if show_auxillary_geometry_world cfg then [WorldBuildVisualAux] else [])
       ++ (if show_auxillary_geometry_goal cfg
           then GoalBuildVisualAux <$> seq 0 (length (goals cfg)) else [])
       ++ PybConfigureRendering true :: c, s', Ok obs) ∧
    _get_obs cfg o s' = (c, s', Ok obs) ∧
    active_robots s' = Some ((λ _, true) <$> robots cfg) ∧
    goal_metrics s' =
      (λ i, on_env_reset o i (np_average_bool (success_stat s)))
        <$> seq 0 (length (goals cfg)) ∧
    agree_on (λ s, (tracking_of s, stats_of s, world_collision s)) s s'.
Proof.
  set (s1 := set_goal_metrics []
               (set_active_robots (Some ((λ _, true) <$> robots cfg)) s)).
  destruct (goal_reset_loop_run o (goals cfg) 0 s1) as (s' & Hrun & Hgm & Hfr).
  destruct (get_obs_exact cfg o s') as (obs & Hobs).
  exists s'. eexists _, obs. split; [|split; [exact Hobs|]].
  - match goal with
    | |- _ = (?c, _, _) =>
        cut (∃ c0, finish_reset cfg o s = (c0, s', Ok obs) ∧ c0 = c)
    end; [by intros (c0 & -> & ->)|].
    eexists. split.
    + unfold finish_reset.
      eapply bind_seq; [reflexivity|].
      eapply bind_seq; [apply for_each_call|].
      eapply bind_seq; [reflexivity|].
      eapply bind_seq; [exact Hrun|].
      eapply (bind_seq _ _ _
                (if show_auxillary_geometry_world cfg then [WorldBuildVisualAux]
                 else [])); [by destruct (show_auxillary_geometry_world cfg)|].
      eapply (bind_seq _ _ _
                (if show_auxillary_geometry_goal cfg
                 then GoalBuildVisualAux <$> seq 0 (length (goals cfg)) else []));
        [destruct (show_auxillary_geometry_goal cfg);
           [apply for_each_call|reflexivity]|].
      eapply (bind_seq _ _ _ [PybConfigureRendering true]); [reflexivity|].
      exact Hobs.
    + cbn [app]. reflexivity.
  - unfold agree_on in *.
    pose proof (f_equal (λ x, x.1.1.1) Hfr) as Htr.
    pose proof (f_equal (λ x, x.1.1.2) Hfr) as Hst.
    pose proof (f_equal (λ x, x.1.2) Hfr) as Hact.
    pose proof (f_equal snd Hfr) as Hwc.
    cbn [fst snd] in Htr, Hst, Hact, Hwc.
    split; [by rewrite Hact|]. split; [by rewrite Hgm|].
    by rewrite Htr, Hst, Hwc.
Qed.

Lemma reset_loop_frame (o : @Oracle num) fuel rc (s : @State num) :
  rc ≤ 1001 → 1002 ≤ fuel + rc →
  agree_on (λ s, (tracking_of s, stats_of s, active_robots s, goal_metrics s)) s
    (reset_loop cfg fuel o rc s).1.2.
Proof.
  intros Hle Hfuel.
  by destruct (safe_reset_loop cfg (λ _, True)
                 (agree_on (λ s, (tracking_of s, stats_of s, active_robots s,
                                  goal_metrics s)))
                 (λ _ _, I) o (λ _ _, eq_refl) fuel rc Hle Hfuel s)
       as (_ & Hs & _).
Qed.

(** When [reset] returns, an episode starts: every robot is active, the
    step count, the times, the rewards and the log are cleared and the CPU
    epoch is the current time, the goal metrics are what the goals
    answered, in goal order, to the success rate of the stat buffer, the
    four stat buffers are as they were, and the value returned is the
    observation of the new state. *)
Theorem reset_starts_episode (o : Oracle) (s : State) obs :
  (reset cfg o s).2 = Ok obs →
  let s' := (reset cfg o s).1.2 in
  active_robots s' = Some ((λ _, true) <$> robots cfg) ∧
  tracking_of s' = (0, np_zero, np_zero, time o, [], np_zero, np_zero) ∧
  goal_metrics s' =
    (λ i, on_env_reset o i (np_average_bool (success_stat s)))
      <$> seq 0 (length (goals cfg)) ∧
  stats_of s' = stats_of s ∧
  (_get_obs cfg o s').2 = Ok obs.
Proof.
  destruct (reset cfg o s) as [[c s'] r] eqn:Hrun. cbn [fst snd]. intros ->.
  unfold reset, reset_with_fuel in Hrun.
  apply bind_ok_inv in Hrun as (c1 & s1 & [] & c2 & [= _ <-] & Hrun & _).
  apply bind_ok_inv in Hrun as (c3 & s2 & [] & c4 & [= _ <-] & Hrun & _).
  apply bind_ok_inv in Hrun as (c5 & s3 & [] & c6 & Hloop & Hrun & _).
  pose proof (reset_loop_frame o reset_fuel 0 (reset_tracking (time o) s)
                ltac:(lia) ltac:(unfold reset_fuel; lia)) as Hfr.
  rewrite Hloop in Hfr. unfold agree_on in Hfr. cbn [fst snd] in Hfr.
  pose proof (f_equal (λ x, x.1.1.1) Hfr) as Htr.
  pose proof (f_equal (λ x, x.1.1.2) Hfr) as Hst.
  cbn [fst snd] in Htr, Hst.
  destruct (finish_reset_run o s3) as (s'' & c' & obs' & Hfin & Hobs & Hact & Hgm & Hfr').
  rewrite Hfin in Hrun. injection Hrun as _ -> ->.
  unfold agree_on in Hfr'.
  pose proof (f_equal (λ x, x.1.1) Hfr') as Htr'.
  pose proof (f_equal (λ x, x.1.2) Hfr') as Hst'.
  cbn [fst snd] in Htr', Hst'.
  split; [done|]. split; [by rewrite Htr', Htr|].
  split; [|split; [by rewrite Hst', Hst|by rewrite Hobs]].
  assert (Hss : success_stat s3 = success_stat s)
    by exact (f_equal (λ x, x.1.1.1) Hst).
  by rewrite Hgm, Hss.
Qed.

(** The loop of attempts is left at the first attempt whose collision
    check finds nothing. *)
Lemma reset_loop_finds (o : @Oracle num) k :
  k ≤ 1000 →
  (∀ j, j < k → collision_check o j = true) →
  collision_check o k = false →
  (∀ j, j ≤ k → length (create_ee_starting_points o j) ≤ length (robots cfg)) →
  ∀ fuel rc (s : @State num),
    rc ≤ k → k < fuel + rc →
    ∃ c s', reset_loop cfg fuel o rc s = (c, s', Ok ()) ∧ attempts c = k + 1 - rc.
Proof.
  intros Hk Hbefore Hfree Hee.
  induction fuel as [|fuel IH]; intros rc s Hle Hfuel; [lia|].
  cbn [reset_loop]. destruct (1000 <? rc) eqn:Hguard;
    [apply Nat.ltb_lt in Hguard; lia|].
  destruct (attempt_run cfg o rc s) as (tele & Htele & _ & Hrun).
  rewrite (teleport_loop_ok cfg _ 0 s) in Hrun by (apply Hee; lia).
  rewrite bind_run, Hrun.
  destruct (decide (rc = k)) as [->|Hne].
  - rewrite Hfree. cbn [negb]. eexists _, _. split; [done|].
    rewrite app_nil_r, attempts_app, attempts_prefix by done.
    change (attempts (num := num) [WorldPerformCollisionCheck]) with 1. lia.
  - rewrite Hbefore by lia. cbn [negb].
    destruct (IH (rc + 1) (set_world_collision true s) ltac:(lia) ltac:(lia))
      as (c & s' & -> & Hc).
    eexists _, _. split; [done|].
    rewrite !attempts_app, attempts_prefix, Hc by done.
    change (attempts (num := num) [WorldPerformCollisionCheck]) with 1. lia.
Qed.

(** After the attempts, [reset] checks for collisions no more. *)
Lemma finish_reset_attempts (o : @Oracle num) (s : @State num) :
  attempts (finish_reset cfg o s).1.1 = 0.
Proof.
  destruct (finish_reset_run o s) as (s' & c & obs & -> & Hobs & _).
  destruct (get_obs_exact cfg o s') as (obs' & Hobs').
  rewrite Hobs' in Hobs. injection Hobs as <- _.
  cbn [fst]. apply attempts_none.
  repeat first
    [ apply Forall_app; split | apply Forall_cons; split
    | apply Forall_fmap, Forall_true; done
    | match goal with |- Forall _ (if ?b then _ else _) => destruct b end
    | apply Forall_nil_2 | done ].
Qed.

(** When the collision checks of attempts [0] to [k - 1] find a collision
    and that of attempt [k], not later than the 1001st, finds none, and
    the starting points name robots that exist, [reset] returns after
    exactly [k + 1] attempts. *)
Theorem reset_returns_at_first_free_attempt (o : Oracle) (s : State) (k : nat) :
  k ≤ 1000 →
  (∀ j, j < k → collision_check o j = true) →
  collision_check o k = false →
  (∀ j, j ≤ k → length (create_ee_starting_points o j) ≤ length (robots cfg)) →
  is_ok (reset cfg o s).2 = true ∧ attempts (reset cfg o s).1.1 = k + 1.
Proof.
  intros Hk Hbefore Hfree Hee. unfold reset, reset_with_fuel.
  rewrite bind_call. cbn [fst snd].
  rewrite bind_run. cbn [modify].
  destruct (reset_loop_finds o k Hk Hbefore Hfree Hee reset_fuel 0
              (reset_tracking (time o) s) ltac:(lia) ltac:(unfold reset_fuel; lia))
    as (c & s' & Hrun & Hc).
  rewrite bind_run, Hrun.
  pose proof (finish_reset_attempts o s') as Hfin.
  destruct (finish_reset_run o s') as (s'' & c' & obs & Hfr & _).
  rewrite Hfr in Hfin |- *. cbn [fst snd] in Hfin |- *. split; [done|].
  rewrite app_nil_l.
  match goal with
  | |- attempts (PybConfigureRendering false :: ?l) = _ =>
      change (attempts (PybConfigureRendering false :: l)) with (attempts l)
  end.
  rewrite attempts_app, Hc, Hfin. lia.
Qed.

(** The attempts leave the rendering switch alone. *)
Lemma reset_loop_rendering (o : @Oracle num) : ∀ fuel rc (s : @State num),
  Forall (λ c, ∀ b, c ≠ PybConfigureRendering b) (reset_loop cfg fuel o rc s).1.1.
Proof.
  assert (Hprefix : ∀ tele,
            Forall (λ c : @Call num, is_teleport c = true) tele →
            Forall (λ c, ∀ b, c ≠ PybConfigureRendering b) (attempt_prefix cfg tele)).
  { intros tele Htele. unfold attempt_prefix.
    repeat first
      [ apply Forall_app; split | apply Forall_cons; split
      | apply Forall_fmap, Forall_true; done | apply Forall_nil_2 | done ].
    eapply Forall_impl; [exact Htele|]. by intros []. }
  induction fuel as [|fuel IH]; intros rc s; [constructor|].
  cbn [reset_loop]. destruct (1000 <? rc); [constructor|].
  rewrite bind_run.
  destruct (attempt_run cfg o rc s) as (tele & Htele & _ & Hrun).
  destruct (for_each _ 0 (teleport cfg) s).2 as [[]| err |]; [| |done];
    rewrite Hrun; [|by apply Hprefix].
  specialize (IH (rc + 1) (set_world_collision (collision_check o rc) s)).
  destruct (collision_check o rc); cbn [negb].
  - destruct (reset_loop cfg fuel o (rc + 1) _) as [[c2 s2] r2].
    cbn [fst snd] in *.
    apply Forall_app; split; [|done].
    apply Forall_app; split; [by apply Hprefix|by repeat constructor].
  - cbn [ret fst snd]. rewrite app_nil_r.
    apply Forall_app; split; [by apply Hprefix|by repeat constructor].
Qed.

Lemma filter_none {A} (f : A → bool) (c : list A) :
  Forall (λ x, f x = false) c → List.filter f c = [].
Proof. induction 1 as [|x c Hx _ IH]; [done|]. simpl. by rewrite Hx. Qed.

Lemma filter_fmap_none {A B} (f : B → bool) (g : A → B) (l : list A) :
  (∀ a, f (g a) = false) → List.filter f (g <$> l) = [].
Proof. intros Hf. apply filter_none, Forall_fmap, Forall_true. done. Qed.

(** [reset] switches rendering off first, and switches it back on exactly
    when it returns: a reset that raises leaves rendering switched off.
    These are the only calls to the switch: the loop of attempts never
    touches it, from whatever count and state it is run, so rendering is
    switched once off, at the start, and at most once on, at the end. *)
Theorem reset_rendering (o : Oracle) (s : State) :
  head (reset cfg o s).1.1 = Some (PybConfigureRendering false) ∧
  (PybConfigureRendering true ∈ (reset cfg o s).1.1
   ↔ is_ok (reset cfg o s).2 = true) ∧
  (∀ fuel reset_count s0,
     Forall (λ c, is_rendering c = false)
       (reset_loop cfg fuel o reset_count s0).1.1) ∧
  List.filter is_rendering (reset cfg o s).1.1 =
    PybConfigureRendering false
    :: (if is_ok (reset cfg o s).2 then [PybConfigureRendering true] else []).
Proof.
  assert (Hnever : ∀ fuel rc s0,
            Forall (λ c : @Call num, is_rendering c = false)
              (reset_loop cfg fuel o rc s0).1.1).
  { intros fuel rc s0. eapply Forall_impl; [apply reset_loop_rendering|].
    intros [] Hc; try done. by destruct (Hc on). }
  unfold reset, reset_with_fuel. rewrite bind_call. cbn [fst snd].
  split; [done|].
  rewrite bind_run. cbn [modify]. rewrite bind_run.
  pose proof (reset_loop_rendering o reset_fuel 0 (reset_tracking (time o) s))
    as Hloop.
  pose proof (Hnever reset_fuel 0 (reset_tracking (time o) s)) as Hloop'.
  destruct (reset_loop cfg reset_fuel o 0 _) as [[c s'] [[]| err |]];
    cbn [fst snd] in *.
  - destruct (finish_reset_run o s') as (s'' & c' & obs & -> & Hobs & _).
    destruct (get_obs_exact cfg o s'') as (obs' & Hobs').
    rewrite Hobs' in Hobs. injection Hobs as <- _.
    cbn [fst snd is_ok]. split; [|split; [exact Hnever|]].
    + split; [done|]. intros _.
      rewrite app_nil_l, elem_of_cons, !elem_of_app, elem_of_cons. auto 10.
    + rewrite app_nil_l. cbn [List.filter is_rendering].
      rewrite !List.filter_app. cbn [List.filter is_rendering].
      rewrite !List.filter_app.
      rewrite (filter_none _ c) by done.
      rewrite !filter_fmap_none by done.
      by destruct (show_auxillary_geometry_world cfg),
           (show_auxillary_geometry_goal cfg);
        rewrite ?filter_fmap_none by done.
  - split; [|split; [exact Hnever|]].
    + rewrite app_nil_l, elem_of_cons. split; [|done].
      intros [?|Hin]; [done|].
      by destruct (proj1 (Forall_forall _ _) Hloop _ Hin true).
    + rewrite app_nil_l. cbn [List.filter is_rendering is_ok].
      by rewrite (filter_none _ c).
  - split; [|split; [exact Hnever|]].
    + rewrite app_nil_l, elem_of_cons. split; [|done].
      intros [?|Hin]; [done|].
      by destruct (proj1 (Forall_forall _ _) Hloop _ Hin true).
    + rewrite app_nil_l. cbn [List.filter is_rendering is_ok].
      by rewrite (filter_none _ c).
Qed.

(** A loop of attempts that is left without an exception has made an
    attempt. *)
Lemma reset_loop_attempted (o : @Oracle num) : ∀ fuel rc (s : @State num) c s',
  reset_loop cfg fuel o rc s = (c, s', Ok ()) → 0 < attempts c.
Proof.
  induction fuel as [|fuel IH]; intros rc s c s' Hrun; [done|].
  cbn [reset_loop] in Hrun. destruct (1000 <? rc); [done|].
  apply bind_ok_inv in Hrun as (c1 & s1 & b & c2 & Hatt & _ & ->).
  destruct (attempt_run cfg o rc s) as (tele & Htele & _ & Hshape).
  destruct (for_each _ 0 (teleport cfg) s).2 as [[]| err |];
    [|congruence|done].
  rewrite Hshape in Hatt.
  assert (c1 = attempt_prefix cfg tele ++ [WorldPerformCollisionCheck]) as ->
    by congruence.
  rewrite !attempts_app.
  change (attempts (num := num) [WorldPerformCollisionCheck]) with 1. lia.
Qed.

(** The calls of a [reset] that returns, in order: rendering off, the
    attempts (at least one), every sensor's [reset], every goal's
    [on_env_reset] with the success rate of the stat buffer, the
    decorations of the world and of the goals if [display_extra] is set,
    rendering on, and the calls of [_get_obs]. *)
Theorem reset_call_order (o : Oracle) (s : State) obs :
  (reset cfg o s).2 = Ok obs →
  ∃ tries,
    (reset cfg o s).1.1 =
      PybConfigureRendering false :: tries
      ++ (SensorReset <$> seq 0 (length (sensors cfg)))
      ++ ((λ i, GoalOnEnvReset i (np_average_bool (success_stat s)))
            <$> seq 0 (length (goals cfg)))
      ++ (if show_auxillary_geometry_world cfg then [WorldBuildVisualAux] else [])
      ++ (if show_auxillary_geometry_goal cfg
          then GoalBuildVisualAux <$> seq 0 (length (goals cfg)) else [])
      ++ PybConfigureRendering true
         :: (SensorGetObservation
               <$> opted_in sensor_add_to_observation_space (sensors cfg) 0)
         ++ (GoalGetObservation
               <$> opted_in goal_add_to_observation_space (goals cfg) 0) ∧
    0 < attempts tries ∧
    Forall (λ c, ∀ b, c ≠ PybConfigureRendering b) tries.
Proof.
  destruct (reset cfg o s) as [[c s'] r] eqn:Hrun. cbn [fst snd]. intros ->.
  unfold reset, reset_with_fuel in Hrun.
  apply bind_ok_inv in Hrun as (c1 & s1 & [] & c2 & [= <- <-] & Hrun & ->).
  apply bind_ok_inv in Hrun as (c3 & s2 & [] & c4 & [= <- <-] & Hrun & ->).
  apply bind_ok_inv in Hrun as (c5 & s3 & [] & c6 & Hloop & Hrun & ->).
  pose proof (reset_loop_frame o reset_fuel 0 (reset_tracking (time o) s)
                ltac:(lia) ltac:(unfold reset_fuel; lia)) as Hfr.
  pose proof (reset_loop_rendering o reset_fuel 0 (reset_tracking (time o) s))
    as Hrend.
  rewrite Hloop in Hfr, Hrend. unfold agree_on in Hfr. cbn [fst snd] in Hfr, Hrend.
  assert (Hss : success_stat s3 = success_stat s)
    by exact (f_equal (λ x, x.1.1.2.1.1.1) Hfr).
  destruct (finish_reset_run o s3) as (s'' & c' & obs' & Hfin & Hobs & _).
  rewrite Hfin in Hrun. injection Hrun as <- _ _.
  destruct (get_obs_exact cfg o s'') as (obs'' & Hobs'').
  rewrite Hobs'' in Hobs. injection Hobs as <- _.
  exists c5. rewrite Hss. split; [done|].
  split; [by eapply reset_loop_attempted|done].
Qed.

(** ** What [step] does to the object *)

(** Before the first [reset] there is no [self.active_robots]: a call of
    [step] on an environment with a robot updates the world and then
    raises [AttributeError], with nothing assigned. *)
Theorem step_before_reset (o : Oracle) (action : list num) (s : State) :
  active_robots s = None → robots cfg ≠ [] →
  step cfg o action s = ([WorldUpdate], s, Raise AttributeError).
Proof.
  intros Hnone Hrobots. unfold step, act_and_score.
  destruct (robots cfg) as [|robot rest]; [done|].
  rewrite bind_run, bind_call. cbn [apply_actions fst snd].
  rewrite (bind_run (_ ≫= _)), (bind_run get_active_robots).
  by rewrite get_active_robots_run, Hnone.
Qed.

Lemma report_reward (o : @Oracle num) t e (s : @State num) c s' obs rew d info :
  report cfg o t e s = (c, s', Ok (obs, rew, d, info)) →
  rew = reward s' ∧ d = done t.
Proof.
  unfold report. intros Hrun.
  apply bind_ok_inv in Hrun as (c1 & s1 & info' & c2 & _ & Hrun & _).
  apply bind_ok_inv in Hrun as (c3 & s2 & obs' & c4 & _ & Hrun & _).
  apply bind_ok_inv in Hrun as (c5 & s3 & s'' & c6 & [= _ <- <-] & Hrun & _).
  destruct info'; [|done]. by injection Hrun as _ <- _ <- <- _.
Qed.

(** The state a call of [step] that returns leaves: the action phase
    touches the activity flags and the collision flag only, the
    accounting is as [account_run] has it, and the report appends to the
    log only. *)
Lemma step_state (o : @Oracle num) action (s : @State num) obs rew d info :
  (step cfg o action s).2 = Ok (obs, rew, d, info) →
  let infos := reward_of o <$> seq 0 (length (goals cfg)) in
  let t := aggregate (collision_check o 0) infos in
  ∃ s1,
    let s2 :=
      advance_tracking (sim_step cfg) (time o)
        (set_reward (if normalize_rewards cfg then np_average (ri_reward <$> infos)
                     else np_sum (ri_reward <$> infos)) s1) in
    let s3 := if done t
              then push_stats (stat_buffer_size cfg) t (collision_check o 0) s2
              else s2 in
    agree_on (λ s, (tracking_of s, stats_of s, goal_metrics s)) s s1 ∧
    world_collision s1 = collision_check o 0 ∧
    agree_on (λ s, (steps_current_episode s, sim_time s, cpu_time s, cpu_epoch s,
                    reward s, reward_cumulative s, stats_of s, goal_metrics s,
                    active_robots s, world_collision s))
      s3 (step cfg o action s).1.2 ∧
    rew = reward s3 ∧ d = done t.
Proof.
  intros Hok infos t.
  destruct (step cfg o action s) as [[c s'] r] eqn:Hrun. cbn [fst snd] in *.
  subst r. unfold step in Hrun.
  apply bind_ok_inv in Hrun as (c1 & s1 & [e infos'] & c2 & Hact & Hrun & _).
  destruct (act_and_score_safe_at cfg (λ _, True)
              (agree_on (λ s, (tracking_of s, stats_of s, goal_metrics s)))
              o action s (λ _ _, I) (Forall_true _ _ (λ _, I))
              (λ _ _, eq_refl) (λ _ _ _ _ _ _ _ _ _, eq_refl))
    as (_ & Hfr & _).
  rewrite Hact in Hfr. cbn [fst snd] in Hfr.
  apply act_and_score_value in Hact as (-> & Hcol).
  apply bind_ok_inv in Hrun as (c3 & s2 & t' & c4 & Hacc & Hrep & _).
  rewrite account_run in Hacc. rewrite Hcol in Hacc.
  injection Hacc as _ <- <-.
  exists s1. cbv zeta. fold infos. fold t.
  split; [exact Hfr|]. split; [exact Hcol|].
  match type of Hrep with
  | report _ _ ?t0 _ ?s0 = _ =>
      destruct (safe_report cfg (λ _, True)
                  (agree_on (λ s, (steps_current_episode s, sim_time s,
                                   cpu_time s, cpu_epoch s, reward s,
                                   reward_cumulative s, stats_of s,
                                   goal_metrics s, active_robots s,
                                   world_collision s)))
                  (λ _ _, I) o t0 e (λ _ _, eq_refl) s0) as (_ & Hfr3 & _)
  end.
  rewrite Hrep in Hfr3. cbn [fst snd] in Hfr3.
  split; [exact Hfr3|].
  apply report_reward in Hrep as (-> & ->). split; [|done].
  exact (f_equal (λ x, x.1.1.1.1.1.2) Hfr3).
Qed.

(** The bookkeeping of a call of [step] that returns: the reward returned
    and stored is the average (with [normalize_rewards]) or the sum of the
    rewards the goals report in this step, and is added to the cumulative
    reward; the step count grows by one, the simulated time by
    [sim_step], the CPU time is the time since the epoch of the last
    [reset]; the epoch and the goal metrics stay, and [world.collision] is
    what this step's collision check found. *)
Theorem step_accounting (o : Oracle) (action : list num) (s : State) obs rew d info :
  (step cfg o action s).2 = Ok (obs, rew, d, info) →
  let s' := (step cfg o action s).1.2 in
  let rewards := ri_reward <$> (reward_of o <$> seq 0 (length (goals cfg))) in
  rew = (if normalize_rewards cfg then np_average rewards else np_sum rewards) ∧
  reward s' = rew ∧
  reward_cumulative s' = np_add (reward_cumulative s) rew ∧
  steps_current_episode s' = steps_current_episode s + 1 ∧
  sim_time s' = np_add (sim_time s) (sim_step cfg) ∧
  cpu_time s' = np_sub (time o) (cpu_epoch s) ∧
  cpu_epoch s' = cpu_epoch s ∧
  goal_metrics s' = goal_metrics s ∧
  world_collision s' = collision_check o 0.
Proof.
  intros Hok s' rewards.
  destruct (step_state o action s obs rew d info Hok)
    as (s1 & Hfr1 & Hcol & Hfr3 & Hrew & _).
  fold s' in Hfr3. unfold agree_on in Hfr1, Hfr3.
  injection Hfr1 as Hsteps Hsim Hcpu Hepoch _ _ Hcum _ _ _ _ Hgm.
  revert Hfr3 Hrew.
  destruct (done _); cbn;
    intros [= H1 H2 H3 H4 H5 H6 _ _ _ _ H7 _ H8] ->;
    fold rewards in H5, H6 |- *;
    repeat split; congruence.
Qed.

(** The newest entry of a buffer that has room for one is the entry just
    pushed. *)
Lemma push_stat_last size stat x :
  0 < size → last (push_stat size stat x) = Some x.
Proof.
  intros Hsize. unfold push_stat. rewrite length_app. simpl.
  destruct (size <? length stat + 1) eqn:Hfull.
  - apply Nat.ltb_lt in Hfull. destruct stat as [|y stat]; [simpl in Hfull; lia|].
    simpl. rewrite drop_0. apply last_snoc.
  - apply last_snoc.
Qed.

(** A call of [step] that returns [done] pushes this step's aggregated
    success, timeout and out-of-bounds signals and this step's collision
    flag on the four stat buffers, so they are the newest entries; a call
    that returns not [done] leaves the buffers as they are. *)
Theorem step_records_episode_end (o : Oracle) (action : list num) (s : State)
    obs rew d info :
  (step cfg o action s).2 = Ok (obs, rew, d, info) →
  let s' := (step cfg o action s).1.2 in
  let t := aggregate (collision_check o 0)
             (reward_of o <$> seq 0 (length (goals cfg))) in
  let size := stat_buffer_size cfg in
  if d then
    success_stat s' = push_stat size (success_stat s) (is_success t) ∧
    timeout_stat s' = push_stat size (timeout_stat s) (timeout t) ∧
    out_of_bounds_stat s' = push_stat size (out_of_bounds_stat s) (out_of_bounds t) ∧
    collision_stat s' = push_stat size (collision_stat s) (collision_check o 0) ∧
    (0 < size →
     last (success_stat s') = Some (is_success t) ∧
     last (timeout_stat s') = Some (timeout t) ∧
     last (out_of_bounds_stat s') = Some (out_of_bounds t) ∧
     last (collision_stat s') = Some (collision_check o 0))
  else stats_of s' = stats_of s.
Proof.
  intros Hok s' t size.
  destruct (step_state o action s obs rew d info Hok)
    as (s1 & Hfr1 & Hcol & Hfr3 & _ & ->).
  fold s' in Hfr3. fold t in Hfr3 |- *. unfold agree_on in Hfr1, Hfr3.
  pose proof (f_equal (λ x, x.1.2) Hfr1) as Hst1.
  pose proof (f_equal (λ x, x.1.1.1.2) Hfr3) as Hst3.
  cbn [fst snd] in Hst1, Hst3. clear Hfr1 Hfr3.
  destruct (done t).
  - unfold stats_of in Hst1, Hst3. simpl in Hst3.
    injection Hst1 as H1 H2 H3 H4. injection Hst3 as -> -> -> ->.
    rewrite H1, H2, H3, H4. fold size.
    repeat split; try done; intros; by apply push_stat_last.
  - rewrite Hst3. exact Hst1.
Qed.

(** ** When [step] returns *)

(** With a flag and a dimensionality for every robot, the action loop
    returns: it calls [process_action] once for every active robot and
    records one execution time per call. *)
Lemma apply_actions_ready (o : @Oracle num) action (s : @State num) l rs :
  ∀ idx offset e,
    active_robots s = Some l →
    idx + length rs ≤ length l →
    idx + length rs ≤ length (action_space_dims cfg) →
    ∃ c e', apply_actions cfg o action rs idx offset e s = (c, s, Ok e') ∧
      Forall is_process_action c ∧
      length c = length (filter (λ b, b = true) (take (length rs) (drop idx l))) ∧
      length e' = length e + length c.
Proof.
  induction rs as [|robot rest IH]; intros idx offset e Hl Hlen Hdims.
  - exists [], e. simpl. repeat split; [constructor|lia].
  - cbn [apply_actions]. simpl in Hlen, Hdims.
    rewrite bind_run, get_active_robots_run, Hl.
    rewrite bind_run, index_run.
    destruct (lookup_lt_is_Some_2 l idx ltac:(lia)) as [b Hb]. rewrite Hb.
    rewrite (drop_S _ _ _ Hb). cbn [length take].
    destruct b; cbn [negb].
    + destruct (lookup_lt_is_Some_2 (action_space_dims cfg) idx ltac:(lia))
        as [d Hd].
      rewrite bind_run, index_run, Hd. rewrite bind_call. cbn [fst snd].
      match goal with
      | |- context [apply_actions cfg o action rest (S idx) ?off ?e1 s] =>
          destruct (IH (S idx) off e1 Hl ltac:(lia) ltac:(lia))
            as (c & e' & -> & Hc & Hcount & He')
      end.
      eexists _, _. split; [reflexivity|]. cbn [fst snd app].
      rewrite filter_cons_True by done.
      split; [by constructor|]. split; [simpl; lia|].
      rewrite He', length_app. simpl. lia.
    + destruct (IH (S idx) offset e Hl ltac:(lia) ltac:(lia))
        as (c & e' & -> & Hc & Hcount & He').
      eexists _, _. split; [reflexivity|].
      rewrite filter_cons_False by done. done.
Qed.

(** With a flag for every goal's robot, the goals are scored without an
    exception: each is given the step count of before this step, the
    flags keep their number, and nothing but the flags is assigned. *)
Lemma collect_rewards_ready (o : @Oracle num) gs : ∀ idx acc (s : @State num) l,
  active_robots s = Some l → idx + length gs ≤ length l →
  ∃ s' l',
    collect_rewards o gs idx acc s =
      ((λ i, GoalReward i (steps_current_episode s)) <$> seq idx (length gs), s',
       Ok (acc ++ (reward_of o <$> seq idx (length gs)))) ∧
    active_robots s' = Some l' ∧ length l' = length l ∧
    agree_on (λ s, (tracking_of s, stats_of s, goal_metrics s, world_collision s))
      s s'.
Proof.
  induction gs as [|goal rest IH]; intros idx acc s l Hl Hlen.
  - exists s, l. simpl. by rewrite app_nil_r.
  - simpl in Hlen. cbn [collect_rewards].
    set (cond := ri_success (reward_of o idx) && negb (continue_after_success goal)).
    set (s1 := if cond then set_active_robots (Some (<[idx := false]> l)) s else s).
    assert (Hif : (if cond then deactivate idx else ret tt) s = ([], s1, Ok ())).
    { subst s1. destruct cond; [|done].
      unfold deactivate. rewrite bind_run, get_active_robots_run, Hl.
      destruct (idx <? length l) eqn:Hlt; [done|].
      apply Nat.ltb_ge in Hlt. lia. }
    assert (Hl1 : ∃ l1, active_robots s1 = Some l1 ∧ length l1 = length l).
    { subst s1. destruct cond; [|by eauto].
      eexists. split; [reflexivity|]. apply length_insert. }
    destruct Hl1 as (l1 & Hl1 & Hlen1).
    destruct (IH (S idx) (acc ++ [reward_of o idx]) s1 l1 Hl1 ltac:(lia))
      as (s' & l' & Hrun & Hl' & Hlen' & Hfr).
    assert (Hs1 : agree_on (λ s, (tracking_of s, stats_of s, goal_metrics s,
                                  world_collision s)) s s1)
      by (subst s1; by destruct cond).
    exists s', l'.
    split; [|split; [done|split; [lia|by etrans]]].
    assert (Hsteps : steps_current_episode s1 = steps_current_episode s)
      by exact (f_equal (λ x, x.1.1.1.1.1.1.1.1.1) Hs1).
    rewrite Hsteps in Hrun.
    subst cond. eapply run_eq.
    + eapply bind_seq; [reflexivity|].
      eapply bind_seq; [reflexivity|].
      eapply bind_seq; [exact Hif|]. exact Hrun.
    + reflexivity.
    + simpl. by rewrite <- app_assoc.
Qed.

Lemma act_and_score_ready (o : @Oracle num) action (s : @State num) l :
  active_robots s = Some l →
  length (robots cfg) ≤ length l →
  length (robots cfg) ≤ length (action_space_dims cfg) →
  length (goals cfg) ≤ length l →
  ∃ pa e s1 l1,
    act_and_score cfg o action s =
      (WorldUpdate :: pa
       ++ (SensorUpdate <$> seq 0 (length (sensors cfg)))
       ++ WorldPerformCollisionCheck
          :: ((λ i, GoalReward i (steps_current_episode s))
                <$> seq 0 (length (goals cfg))),
       s1, Ok (e, reward_of o <$> seq 0 (length (goals cfg)))) ∧
    Forall is_process_action pa ∧
    length pa = length (filter (λ b, b = true) (take (length (robots cfg)) l)) ∧
    length e = length pa ∧
    active_robots s1 = Some l1 ∧ length l1 = length l ∧
    world_collision s1 = collision_check o 0 ∧
    agree_on (λ s, (tracking_of s, stats_of s, goal_metrics s)) s s1.
Proof.
  intros Hl Hrobots Hdims Hgoals.
  destruct (apply_actions_ready o action s l (robots cfg) 0 0 [] Hl
              ltac:(simpl; lia) ltac:(simpl; lia))
    as (pa & e & Hact & Hpa & Hcount & He).
  rewrite drop_0 in Hcount.
  destruct (collect_rewards_ready o (goals cfg) 0 []
              (set_world_collision (collision_check o 0) s) l Hl
              ltac:(simpl; lia))
    as (s1 & l1 & Hcol & Hl1 & Hlen1 & Hfr).
  exists pa, e, s1, l1.
  split; [|split; [done|split; [done|split; [done|split; [done|split; [done|]]]]]].
  - unfold act_and_score. eapply run_eq.
    + eapply bind_seq; [reflexivity|].
      eapply bind_seq; [exact Hact|].
      eapply bind_seq; [apply for_each_call|].
      eapply bind_seq; [apply perform_collision_check_run|].
      eapply bind_seq; [exact Hcol|]. reflexivity.
    + cbn [app]. by rewrite app_nil_r.
    + reflexivity.
  - unfold agree_on in *.
    pose proof (f_equal (λ x, x.1.1.1) Hfr) as H1.
    pose proof (f_equal (λ x, x.1.1.2) Hfr) as H2.
    pose proof (f_equal (λ x, x.1.2) Hfr) as H3.
    pose proof (f_equal snd Hfr) as H4.
    cbn [fst snd] in H1, H2, H3, H4.
    split; [by rewrite H4|]. by rewrite H1, H2, H3.
Qed.

(** Lines 373-374 return when there is an execution time for every
    robot, and raise [IndexError] at the first robot without one. *)
Lemma add_action_cpu_times_run rs : ∀ idx (e : list num) info (s : @State num),
  (idx + length rs ≤ length e →
   ∃ info', add_action_cpu_times rs idx e info s = ([], s, Ok info') ∧
     ∀ k, (∀ robot, robot ∈ rs → k ≠ "action_cpu_time_" +:+ name robot) →
          info' !! k = info !! k) ∧
  (idx ≤ length e < idx + length rs →
   add_action_cpu_times rs idx e info s = ([], s, Raise IndexError)).
Proof.
  induction rs as [|robot rest IH]; intros idx e info s.
  - split; [|simpl; lia]. intros _. by exists info.
  - cbn [add_action_cpu_times length]. rewrite bind_run, index_run. split.
    + intros Hlen.
      destruct (lookup_lt_is_Some_2 e idx ltac:(lia)) as [x Hx]. rewrite Hx.
      destruct (proj1 (IH (S idx) e
                  (<["action_cpu_time_" +:+ name robot := VNum x]> info) s)
                  ltac:(lia)) as (info' & -> & Hinfo').
      exists info'. split; [done|]. intros k Hk.
      rewrite Hinfo' by (intros r Hr; apply Hk; by right).
      apply lookup_insert_ne. intros Heq. by eapply Hk; [left|].
    + intros Hlen. destruct (e !! idx) as [x|] eqn:Hx; [|done].
      apply lookup_lt_Some in Hx.
      by rewrite (proj2 (IH (S idx) e _ s)) by lia.
Qed.

(** ** The [info] record *)

Lemma make_info_off (o : @Oracle num) t e (s : @State num) :
  logging cfg = 0 → make_info cfg o t e s = ([], s, Ok (Some ∅)).
Proof. intros Hlog. unfold make_info. by rewrite Hlog. Qed.

Lemma make_info_unknown (o : @Oracle num) t e (s : @State num) :
  2 < logging cfg → make_info cfg o t e s = ([], s, Ok None).
Proof.
  intros Hlog. unfold make_info.
  by destruct (logging cfg) as [|[|[|n]]]; [lia..|].
Qed.

Lemma make_info_short (o : @Oracle num) t e (s : @State num) :
  logging cfg = 1 ∨ logging cfg = 2 →
  length e < length (robots cfg) →
  make_info cfg o t e s = ([], s, Raise IndexError).
Proof.
  intros Hlog Hlen. unfold make_info.
  assert ((logging cfg =? 1) || (logging cfg =? 2) = true) as ->
    by (by destruct Hlog as [-> | ->]).
  rewrite bind_run. cbn [get]. rewrite bind_run.
  by rewrite (proj2 (add_action_cpu_times_run (robots cfg) 0 e _ s))
    by (simpl; lia).
Qed.

Lemma make_info_on (o : @Oracle num) t e (s : @State num) :
  logging cfg = 1 ∨ logging cfg = 2 →
  length (robots cfg) ≤ length e →
  let data :=
    (sensor_get_data_for_logging o
       <$> opted_in sensor_add_to_logging (sensors cfg) 0)
    ++ (goal_get_data_for_logging o
          <$> opted_in goal_add_to_logging (goals cfg) 0) in
  ∃ info,
    make_info cfg o t e s =
      ((SensorGetDataForLogging <$> opted_in sensor_add_to_logging (sensors cfg) 0)
       ++ (GoalGetDataForLogging <$> opted_in goal_add_to_logging (goals cfg) 0)
       ++ (if done t
           then Print info
                :: (if logging cfg =? 2 then [WriteLog (log s ++ [info])] else [])
           else []),
       set_log (log s ++ [info]) s, Ok (Some info)) ∧
    (∀ k v, last (omap (.!! k) data) = Some v → info !! k = Some v) ∧
    (∀ k, last (omap (.!! k) data) = None →
          (∀ robot, robot ∈ robots cfg → k ≠ "action_cpu_time_" +:+ name robot) →
          info !! k = env_wide_info t s !! k).
Proof.
  intros Hlog Hlen data.
  destruct (proj1 (add_action_cpu_times_run (robots cfg) 0 e (env_wide_info t s) s)
              ltac:(simpl; lia)) as (info1 & Hadd & Hinfo1).
  destruct (merge_values_exact sensor_add_to_logging SensorGetDataForLogging
              (sensor_get_data_for_logging o) (sensors cfg) 0 info1 s)
    as (d1 & Hrun1 & Hd1).
  destruct (merge_values_exact goal_add_to_logging GoalGetDataForLogging
              (goal_get_data_for_logging o) (goals cfg) 0 d1 s)
    as (d2 & Hrun2 & Hd2).
  assert (Hd : ∀ k, d2 !! k = match last (omap (.!! k) data) with
                              | Some v => Some v
                              | None => info1 !! k
                              end).
  { intros k. subst data. rewrite Hd2, Hd1, omap_app, last_app.
    destruct (last (omap _ (goal_get_data_for_logging o <$> _))); [done|].
    by destruct (last _). }
  exists d2. split; [|split].
  - unfold make_info.
    assert ((logging cfg =? 1) || (logging cfg =? 2) = true) as ->
      by (by destruct Hlog as [-> | ->]).
    eapply run_eq.
    + eapply bind_seq; [reflexivity|].
      eapply bind_seq; [exact Hadd|].
      eapply bind_seq; [exact Hrun1|].
      eapply bind_seq; [exact Hrun2|].
      eapply bind_seq; [reflexivity|].
      eapply (bind_seq _ _ _
                (if done t
                 then Print d2
                      :: (if logging cfg =? 2 then [WriteLog (log s ++ [d2])]
                          else [])
                 else [])).
      * destruct (done t); [|reflexivity].
        destruct (logging cfg =? 2); reflexivity.
      * reflexivity.
    + cbn [app]. by rewrite app_nil_r.
    + reflexivity.
  - intros k v Hk. by rewrite Hd, Hk.
  - intros k Hk Hrobots. rewrite Hd, Hk. by apply Hinfo1.
Qed.

(** The calls of [_get_obs]. *)
#[local] Abbreviation obs_calls :=
  ((SensorGetObservation <$> opted_in sensor_add_to_observation_space (sensors cfg) 0)
   ++ (GoalGetObservation <$> opted_in goal_add_to_observation_space (goals cfg) 0)).

Lemma report_off (o : @Oracle num) t e (s : @State num) :
  logging cfg = 0 →
  ∃ obs, report cfg o t e s = (obs_calls, s, Ok (obs, reward s, done t, ∅)).
Proof.
  intros Hlog. destruct (get_obs_exact cfg o s) as (obs & Hobs).
  exists obs. unfold report. eapply run_eq.
  - eapply bind_seq; [by apply make_info_off|].
    eapply bind_seq; [exact Hobs|]. reflexivity.
  - cbn [app]. by rewrite app_nil_r.
  - reflexivity.
Qed.

Lemma report_unknown (o : @Oracle num) t e (s : @State num) :
  2 < logging cfg →
  report cfg o t e s = (obs_calls, s, Raise UnboundLocalError).
Proof.
  intros Hlog. destruct (get_obs_exact cfg o s) as (obs & Hobs).
  unfold report. eapply run_eq.
  - eapply bind_seq; [by apply make_info_unknown|].
    eapply bind_seq; [exact Hobs|]. reflexivity.
  - cbn [app]. by rewrite app_nil_r.
  - reflexivity.
Qed.

Lemma report_short (o : @Oracle num) t e (s : @State num) :
  logging cfg = 1 ∨ logging cfg = 2 →
  length e < length (robots cfg) →
  report cfg o t e s = ([], s, Raise IndexError).
Proof.
  intros Hlog Hlen. unfold report.
  by rewrite bind_run, make_info_short.
Qed.

(** The part of the action phase and of the accounting in a call of
    [step] on an environment with a flag and a dimensionality for every
    robot; what is left is the report, run in the state [s3]. *)
Lemma step_ready_run (o : @Oracle num) action (s : @State num) l :
  active_robots s = Some l →
  length (robots cfg) ≤ length l →
  length (robots cfg) ≤ length (action_space_dims cfg) →
  length (goals cfg) ≤ length l →
  let infos := reward_of o <$> seq 0 (length (goals cfg)) in
  let t := aggregate (collision_check o 0) infos in
  ∃ pa e s3 l1,
    step cfg o action s =
      ((WorldUpdate :: pa
        ++ (SensorUpdate <$> seq 0 (length (sensors cfg)))
        ++ WorldPerformCollisionCheck
           :: ((λ i, GoalReward i (steps_current_episode s))
                 <$> seq 0 (length (goals cfg))))
       ++ (report cfg o t e s3).1.1,
       (report cfg o t e s3).1.2, (report cfg o t e s3).2) ∧
    Forall is_process_action pa ∧
    length pa = length (filter (λ b, b = true) (take (length (robots cfg)) l)) ∧
    length e = length pa ∧
    active_robots s3 = Some l1 ∧ length l1 = length l ∧
    steps_current_episode s3 = steps_current_episode s + 1 ∧
    log s3 = log s.
Proof.
  intros Hl Hrobots Hdims Hgoals infos t.
  destruct (act_and_score_ready o action s l Hl Hrobots Hdims Hgoals)
    as (pa & e & s1 & l1 & Hact & Hpa & Hcount & He & Hl1 & Hlen1 & Hcol & Hfr).
  pose proof (account_run cfg o infos s1) as Hacc. cbv zeta in Hacc.
  rewrite Hcol in Hacc. fold t in Hacc.
  unfold agree_on in Hfr.
  assert (Hsteps : steps_current_episode s1 = steps_current_episode s)
    by exact (f_equal (λ x, x.1.1.1.1.1.1.1.1) Hfr).
  assert (Hlog : log s1 = log s)
    by exact (f_equal (λ x, x.1.1.1.1.2) Hfr).
  eexists pa, e, _, l1. split.
  - unfold step. rewrite (bind_ok _ _ _ _ _ _ Hact).
    rewrite (bind_ok _ _ _ _ _ _ Hacc). reflexivity.
  - split; [done|]. split; [done|]. split; [done|].
    destruct (done t); simpl; by rewrite Hl1, Hsteps, Hlog.
Qed.

Lemma active_count (l : list bool) :
  (false ∉ l → length (filter (λ b, b = true) l) = length l) ∧
  (false ∈ l → length (filter (λ b, b = true) l) < length l).
Proof.
  induction l as [|[] l [IH1 IH2]].
  - split; [done|by intros ?%elem_of_nil].
  - rewrite filter_cons_True by done. simpl. split.
    + intros Hnot. rewrite IH1; [done|]. intros ?. apply Hnot. by right.
    + intros [?|Hin]%elem_of_cons; [done|]. specialize (IH2 Hin). lia.
  - rewrite filter_cons_False by done. simpl. split.
    + intros Hnot. destruct Hnot. by left.
    + intros _. pose proof (length_filter (λ b, b = true) l). lia.
Qed.

(** How a call of [step] ends on an environment that has a flag for
    every robot, a dimensionality for every robot and not more goals than
    robots.  Without logging it returns.  With logging 1 or 2 it returns
    when every robot is active and raises [IndexError] when some robot is
    not, because there are fewer execution times than robots.  With any
    other logging level it raises [UnboundLocalError].  In every case the
    step has been counted by then and the flags have kept their number. *)
Theorem step_outcome (o : Oracle) (action : list num) (s : State) (l : list bool) :
  active_robots s = Some l →
  length l = length (robots cfg) →
  length (robots cfg) ≤ length (action_space_dims cfg) →
  length (goals cfg) ≤ length (robots cfg) →
  let r := (step cfg o action s).2 in
  let s' := (step cfg o action s).1.2 in
  match logging cfg with
  | 0 => is_ok r = true
  | 1 | 2 => if decide (false ∈ l) then r = Raise IndexError else is_ok r = true
  | _ => r = Raise UnboundLocalError
  end ∧
  steps_current_episode s' = steps_current_episode s + 1 ∧
  ∃ l', active_robots s' = Some l' ∧ length l' = length l.
Proof.
  intros Hl Hlen Hdims Hgoals r s'. subst r s'.
  destruct (step_ready_run o action s l Hl ltac:(lia) Hdims ltac:(lia))
    as (pa & e & s3 & l1 & -> & _ & Hcount & He & Hl1 & Hlen1 & Hsteps & _).
  cbn [fst snd]. rewrite firstn_all2 in Hcount by lia.
  destruct (active_count l) as [Hall Hsome].
  set (t := aggregate _ _).
  destruct (logging cfg) as [|[|[|n]]] eqn:Hlog.
  - destruct (report_off o t e s3 Hlog) as (obs & ->). cbn [fst snd]. eauto.
  - destruct (decide (false ∈ l)) as [Hin|Hnot].
    + rewrite report_short by (auto; specialize (Hsome Hin); lia).
      cbn [fst snd]. eauto.
    + destruct (make_info_on o t e s3 ltac:(auto)
                  ltac:(specialize (Hall Hnot); lia)) as (info & Hinfo & _).
      destruct (get_obs_exact cfg o (set_log (log s3 ++ [info]) s3))
        as (obs & Hobs).
      unfold report. rewrite (bind_ok _ _ _ _ _ _ Hinfo).
      rewrite (bind_ok _ _ _ _ _ _ Hobs). cbn [fst snd get ret mret M_ret].
      simpl. eauto.
  - destruct (decide (false ∈ l)) as [Hin|Hnot].
    + rewrite report_short by (auto; specialize (Hsome Hin); lia).
      cbn [fst snd]. eauto.
    + destruct (make_info_on o t e s3 ltac:(auto)
                  ltac:(specialize (Hall Hnot); lia)) as (info & Hinfo & _).
      destruct (get_obs_exact cfg o (set_log (log s3 ++ [info]) s3))
        as (obs & Hobs).
      unfold report. rewrite (bind_ok _ _ _ _ _ _ Hinfo).
      rewrite (bind_ok _ _ _ _ _ _ Hobs). cbn [fst snd get ret mret M_ret].
      simpl. eauto.
  - rewrite report_unknown by lia. cbn [fst snd]. eauto.
Qed.

(** Without logging, a call of [step] on such an environment returns
    and leaves as many flags as there were. *)
Lemma step_without_logging (o : @Oracle num) action (s : @State num) l :
  active_robots s = Some l →
  length l = length (robots cfg) →
  length (robots cfg) ≤ length (action_space_dims cfg) →
  length (goals cfg) ≤ length (robots cfg) →
  logging cfg = 0 →
  is_ok (step cfg o action s).2 = true ∧
  ∃ l', active_robots (step cfg o action s).1.2 = Some l' ∧ length l' = length l.
Proof.
  intros Hl Hlen Hdims Hgoals Hlog.
  destruct (step_ready_run o action s l Hl ltac:(lia) Hdims ltac:(lia))
    as (pa & e & s3 & l1 & -> & _ & _ & _ & Hl1 & Hlen1 & _).
  destruct (report_off o (aggregate (collision_check o 0)
              (reward_of o <$> seq 0 (length (goals cfg)))) e s3 Hlog)
    as (obs & ->).
  cbn [fst snd]. eauto.
Qed.


(** After a [reset] that returns, on an environment without logging
    that has a dimensionality for every robot and not more goals than
    robots, every call of [step] returns, however many steps were made
    before it and whatever they reported. *)
Theorem episode_steps_return (o0 : Oracle) (s : State) obs (es : list Event)
    (o : Oracle) (action : list num) :
  length (robots cfg) ≤ length (action_space_dims cfg) →
  length (goals cfg) ≤ length (robots cfg) →
  logging cfg = 0 →
  (reset cfg o0 s).2 = Ok obs →
  Forall is_step es →
  is_ok (step cfg o action (run cfg es (reset cfg o0 s).1.2).2).2 = true.
Proof.
  intros Hdims Hgoals Hlog Hreset Hsteps.
  assert (Hready : ∃ l, active_robots (reset cfg o0 s).1.2 = Some l ∧
                        length l = length (robots cfg)).
  { destruct (reset cfg o0 s) as [[c s'] r] eqn:Hrun. cbn [fst snd] in *. subst r.
    unfold reset, reset_with_fuel in Hrun.
    apply bind_ok_inv in Hrun as (c1 & s1 & [] & c2 & _ & Hrun & _).
    apply bind_ok_inv in Hrun as (c3 & s2 & [] & c4 & _ & Hrun & _).
    apply bind_ok_inv in Hrun as (c5 & s3 & [] & c6 & _ & Hrun & _).
    destruct (finish_reset_run o0 s3) as (s'' & c' & obs' & Hfin & _ & Hact & _).
    rewrite Hfin in Hrun. injection Hrun as _ -> _.
    eexists. split; [exact Hact|]. by rewrite length_fmap. }
  generalize dependent (reset cfg o0 s).1.2. clear Hreset.
  induction es as [|e es IH]; intros s0 (l & Hl & Hlen).
  - by destruct (step_without_logging o action s0 l Hl Hlen Hdims Hgoals Hlog).
  - apply Forall_cons in Hsteps as [He Hes].
    destruct e as [o1|o1 action1]; [done|]. cbn [run run_event].
    pose proof (step_without_logging o1 action1 s0 l Hl Hlen Hdims Hgoals Hlog)
      as (_ & l' & Hl' & Hlen').
    destruct (step cfg o1 action1 s0) as [[c1 s1] r1]. cbn [fst snd] in *.
    specialize (IH Hes s1 ltac:(exists l'; split; [done|lia])).
    by destruct (run cfg es s1) as [c2 s2].
Qed.

(** ** The parts of the action vector when robots are inactive *)

(** In the action loop the offset advances by the dimensionalities of
    the active robots only, and the calls are numbered by the active
    robots only. *)
Lemma apply_actions_slice (o : @Oracle num) action (s : @State num) l rs :
  ∀ idx offset e j d,
    active_robots s = Some l →
    idx + length rs ≤ length l →
    idx + length rs ≤ length (action_space_dims cfg) →
    j < length rs →
    l !! (idx + j) = Some true →
    action_space_dims cfg !! (idx + j) = Some d →
    let b := offset
             + sum_list (zip_with (λ (a : bool) d, if a then d else 0)
                           (take j (drop idx l)) (drop idx (action_space_dims cfg))) in
    (apply_actions cfg o action rs idx offset e s).1.1
      !! length (filter (λ a, a = true) (take j (drop idx l)))
    = Some (RobotProcessAction (idx + j) (py_slice action b (d + b))).
Proof.
  induction rs as [|robot rest IH]; intros idx offset e j d Hl Hlen Hdims Hj Hact Hd;
    [simpl in Hj; lia|].
  simpl in Hlen, Hdims, Hj. cbn [apply_actions].
  rewrite bind_run, get_active_robots_run, Hl.
  rewrite bind_run, index_run.
  destruct (lookup_lt_is_Some_2 l idx ltac:(lia)) as [a Ha].
  destruct (lookup_lt_is_Some_2 (action_space_dims cfg) idx ltac:(lia)) as [d0 Hd0].
  rewrite Ha. destruct j as [|j].
  - rewrite Nat.add_0_r in Hact, Hd.
    assert (a = true) as -> by congruence. assert (d0 = d) as -> by congruence.
    cbn [negb]. rewrite bind_run, index_run, Hd. rewrite bind_call.
    rewrite Nat.add_0_r. simpl. by rewrite Nat.add_0_r.
  - rewrite (drop_S _ _ _ Ha), (drop_S _ _ _ Hd0). cbn [take zip_with sum_list].
    replace (idx + S j) with (S idx + j) in * by lia.
    destruct a; cbn [negb].
    + rewrite bind_run, index_run, Hd0. rewrite bind_call. cbn [fst snd].
      rewrite filter_cons_True by done.
      match goal with
      | |- context [apply_actions cfg o action rest (S idx) ?off ?e1 s] =>
          pose proof (IH (S idx) off e1 j d Hl ltac:(lia) ltac:(lia) ltac:(lia)
                        Hact Hd) as Hcall;
          destruct (apply_actions cfg o action rest (S idx) off e1 s)
            as [[c2 s2] r2]
      end.
      cbv zeta in Hcall. simpl in Hcall |- *. rewrite Hcall.
      unfold id. do 3 f_equal; lia.
    + rewrite filter_cons_False by done.
      pose proof (IH (S idx) offset e j d Hl ltac:(lia) ltac:(lia) ltac:(lia)
                    Hact Hd) as Hcall.
      destruct (apply_actions cfg o action rest (S idx) offset e s)
        as [[c2 s2] r2].
      cbv zeta in Hcall. simpl in Hcall |- *. rewrite Hcall.
      unfold id. do 3 f_equal; lia.
Qed.

(** The part of the action vector an active robot is handed starts at
    the sum of the dimensionalities of the active robots registered
    before it: the dimensionalities of inactive robots are not skipped
    over, so once a robot is inactive the robots after it are handed the
    entries that belong to the robots before them.  The call is the
    [n + 1]st [process_action] of the step, where [n] robots before it are
    active. *)
Theorem slices_skip_inactive (o : Oracle) (action : list num) (s : State)
    (l : list bool) (idx d : nat) :
  active_robots s = Some l →
  length (robots cfg) ≤ length l →
  length (robots cfg) ≤ length (action_space_dims cfg) →
  idx < length (robots cfg) →
  l !! idx = Some true →
  action_space_dims cfg !! idx = Some d →
  let b := sum_list (zip_with (λ (a : bool) d, if a then d else 0)
                       (take idx l) (action_space_dims cfg)) in
  (step cfg o action s).1.1 !! S (length (filter (λ a, a = true) (take idx l)))
    = Some (RobotProcessAction idx (py_slice action b (d + b))).
Proof.
  intros Hl Hlen Hdims Hidx Hact Hd b.
  eapply prefix_lookup_Some;
    [|apply (bind_calls_prefix (act_and_score cfg o action))].
  unfold act_and_score. rewrite bind_call. cbn [fst snd]. simpl.
  eapply prefix_lookup_Some; [|apply bind_calls_prefix].
  exact (apply_actions_slice o action s l (robots cfg) 0 0 [] idx d Hl
           ltac:(simpl; lia) ltac:(simpl; lia) Hidx Hact Hd).
Qed.

(** What is cut out of the vector: the entries from [lo] on that exist,
    at most [hi - lo] of them. *)
Lemma py_slice_lookup {A} (l : list A) lo d i :
  py_slice l lo (d + lo) !! i = if decide (i < d) then l !! (lo + i) else None.
Proof.
  unfold py_slice. replace (d + lo - lo) with d by lia.
  destruct (decide (i < d)) as [Hi|Hi].
  - by rewrite lookup_take_lt, lookup_drop.
  - apply lookup_take_ge. lia.
Qed.

(** C3, as the code has it. [step] does not look at the length of the
    action vector: [world.update()] is called first whatever the vector
    holds, and whether the call returns or raises is the same for every
    vector.  Whatever the length of the vector, every active robot is
    handed the part [action[b : b + d]] (on an environment with a flag and
    a dimensionality for every robot; [b] is where the offset stands, the
    dimensionalities of the active robots before it added up); a part
    that reaches past the end of the vector is cut to the entries that
    exist, which may be none, and is handed over all the same. *)
Theorem step_ignores_action_length (o : Oracle) (s : State) (action : list num) :
  head (step cfg o action s).1.1 = Some WorldUpdate ∧
  (∀ action', is_ok (step cfg o action' s).2 = is_ok (step cfg o action s).2) ∧
  (∀ l idx d,
     active_robots s = Some l →
     length (robots cfg) ≤ length l →
     length (robots cfg) ≤ length (action_space_dims cfg) →
     idx < length (robots cfg) →
     l !! idx = Some true →
     action_space_dims cfg !! idx = Some d →
     let b := sum_list (zip_with (λ (a : bool) d, if a then d else 0)
                          (take idx l) (action_space_dims cfg)) in
     (step cfg o action s).1.1 !! S (length (filter (λ a, a = true) (take idx l)))
       = Some (RobotProcessAction idx (py_slice action b (d + b))) ∧
     length (py_slice action b (d + b)) = d `min` (length action - b) ∧
     ∀ i, py_slice action b (d + b) !! i
          = if decide (i < d) then action !! (b + i) else None) ∧
  (∀ lo hi, length (py_slice action lo hi) = (hi - lo) `min` (length action - lo)).
Proof.
  split; [apply step_first_call|].
  split; [intros; apply step_ok_independent|].
  split; [|intros; apply py_slice_length].
  intros l idx d Hl Hlen Hdims Hidx Hact Hd b. split; [|split].
  - eapply prefix_lookup_Some;
      [|apply (bind_calls_prefix (act_and_score cfg o action))].
    unfold act_and_score. rewrite bind_call. cbn [fst snd]. simpl.
    eapply prefix_lookup_Some; [|apply bind_calls_prefix].
    exact (apply_actions_slice o action s l (robots cfg) 0 0 [] idx d Hl
             ltac:(simpl; lia) ltac:(simpl; lia) Hidx Hact Hd).
  - rewrite py_slice_length. lia.
  - intros i. apply py_slice_lookup.
Qed.

(** ** The part of the action vector of the one robot *)



(** ** The order of the calls of [step] *)

(** A call of [step] on an environment with a flag and a dimensionality
    for every robot and not more goals than robots calls, in this order:
    [world.update()], [process_action] once for every active robot, every
    sensor's [update], the collision check, every goal's [reward] with the
    step count of before this step, and then what the report calls;
    without logging that is [get_observation] of the sensors and then of
    the goals that add to the observation space. *)
Theorem step_call_order (o : Oracle) (action : list num) (s : State) (l : list bool) :
  active_robots s = Some l →
  length l = length (robots cfg) →
  length (robots cfg) ≤ length (action_space_dims cfg) →
  length (goals cfg) ≤ length (robots cfg) →
  ∃ pa rest,
    (step cfg o action s).1.1 =
      WorldUpdate :: pa
      ++ (SensorUpdate <$> seq 0 (length (sensors cfg)))
      ++ WorldPerformCollisionCheck
         :: ((λ i, GoalReward i (steps_current_episode s))
               <$> seq 0 (length (goals cfg)))
      ++ rest ∧
    Forall is_process_action pa ∧
    length pa = length (filter (λ b, b = true) l) ∧
    (logging cfg = 0 → rest = obs_calls).
Proof.
  intros Hl Hlen Hdims Hgoals.
  destruct (step_ready_run o action s l Hl ltac:(lia) Hdims ltac:(lia))
    as (pa & e & s3 & l1 & -> & Hpa & Hcount & _).
  rewrite firstn_all2 in Hcount by lia.
  eexists pa, _. cbn [fst snd]. split; [|split; [done|split; [done|]]].
  - cbn [app]. rewrite <- !app_assoc. cbn [app]. reflexivity.
  - intros Hlog. by destruct (report_off o (aggregate (collision_check o 0)
      (reward_of o <$> seq 0 (length (goals cfg)))) e s3 Hlog) as (obs & ->).
Qed.

(** ** The log *)

Lemma report_on (o : @Oracle num) t e (s : @State num) :
  logging cfg = 1 ∨ logging cfg = 2 →
  length (robots cfg) ≤ length e →
  let data :=
    (sensor_get_data_for_logging o
       <$> opted_in sensor_add_to_logging (sensors cfg) 0)
    ++ (goal_get_data_for_logging o
          <$> opted_in goal_add_to_logging (goals cfg) 0) in
  ∃ info obs,
    report cfg o t e s =
      (((SensorGetDataForLogging <$> opted_in sensor_add_to_logging (sensors cfg) 0)
        ++ (GoalGetDataForLogging <$> opted_in goal_add_to_logging (goals cfg) 0)
        ++ (if done t
            then Print info
                 :: (if logging cfg =? 2 then [WriteLog (log s ++ [info])] else [])
            else []))
       ++ obs_calls,
       set_log (log s ++ [info]) s, Ok (obs, reward s, done t, info)) ∧
    (∀ k v, last (omap (.!! k) data) = Some v → info !! k = Some v) ∧
    (∀ k, last (omap (.!! k) data) = None →
          (∀ robot, robot ∈ robots cfg → k ≠ "action_cpu_time_" +:+ name robot) →
          info !! k = env_wide_info t s !! k).
Proof.
  intros Hlog Hlen data.
  destruct (make_info_on o t e s Hlog Hlen) as (info & Hinfo & Hdata & Henv).
  destruct (get_obs_exact cfg o (set_log (log s ++ [info]) s)) as (obs & Hobs).
  exists info, obs. split; [|done].
  unfold report. eapply run_eq.
  - eapply bind_seq; [exact Hinfo|].
    eapply bind_seq; [exact Hobs|]. reflexivity.
  - cbn [app]. by rewrite app_nil_r.
  - reflexivity.
Qed.

Lemma filter_is_output_none (c : list (@Call num)) :
  Forall (λ x, is_output x = false) c → List.filter is_output c = [].
Proof. induction 1 as [|x c Hx _ IH]; [done|]. simpl. by rewrite Hx. Qed.

Lemma filter_is_output_cons (x : @Call num) c :
  is_output x = false → List.filter is_output (x :: c) = List.filter is_output c.
Proof. intros Hx. simpl. by rewrite Hx. Qed.

Lemma filter_is_output_fmap {A} (f : A → @Call num) (l : list A) :
  (∀ a, is_output (f a) = false) → List.filter is_output (f <$> l) = [].
Proof. intros Hf. apply filter_is_output_none, Forall_fmap, Forall_true. done. Qed.

(** With logging 1 or 2 and every robot active, a call of [step] returns
    an [info] record and appends it to the log.  When the step is [done]
    the record is printed and, with logging 2, the whole log including
    the new record is written; otherwise nothing is printed or written.
    In the record, a key that a sensor or goal with [add_to_logging]
    reports holds what the last of them reports (sensors before goals);
    any other key that is not the execution-time key of a robot holds the
    environment-wide entry, computed after the accounting: the step count
    already incremented and the rates over the buffers already pushed. *)
Theorem step_log_record (o : Oracle) (action : list num) (s : State) (l : list bool) :
  active_robots s = Some l →
  length l = length (robots cfg) →
  length (robots cfg) ≤ length (action_space_dims cfg) →
  length (goals cfg) ≤ length (robots cfg) →
  logging cfg = 1 ∨ logging cfg = 2 →
  false ∉ l →
  let data :=
    (sensor_get_data_for_logging o
       <$> opted_in sensor_add_to_logging (sensors cfg) 0)
    ++ (goal_get_data_for_logging o
          <$> opted_in goal_add_to_logging (goals cfg) 0) in
  let t := aggregate (collision_check o 0)
             (reward_of o <$> seq 0 (length (goals cfg))) in
  let s' := (step cfg o action s).1.2 in
  ∃ obs rew info,
    (step cfg o action s).2 = Ok (obs, rew, done t, info) ∧
    log s' = log s ++ [info] ∧
    List.filter is_output (step cfg o action s).1.1 =
      (if done t
       then Print info :: (if logging cfg =? 2 then [WriteLog (log s')] else [])
       else []) ∧
    (∀ k v, last (omap (.!! k) data) = Some v → info !! k = Some v) ∧
    (∀ k, last (omap (.!! k) data) = None →
          (∀ robot, robot ∈ robots cfg → k ≠ "action_cpu_time_" +:+ name robot) →
          info !! k = env_wide_info t s' !! k).
Proof.
  intros Hl Hlen Hdims Hgoals Hlog Hall data t s'. subst s'.
  destruct (step_ready_run o action s l Hl ltac:(lia) Hdims ltac:(lia))
    as (pa & e & s3 & l1 & -> & Hpa & Hcount & He & _ & _ & _ & Hlog3).
  rewrite firstn_all2 in Hcount by lia.
  rewrite (proj1 (active_count l) Hall) in Hcount.
  destruct (report_on o t e s3 Hlog ltac:(lia)) as (info & obs & Hrep & Hdata & Henv).
  fold t. rewrite Hrep. cbn [fst snd].
  exists obs, (reward s3), info.
  split; [done|]. split; [simpl; by rewrite Hlog3|].
  split; [|split; [exact Hdata|exact Henv]].
  change (log (set_log (log s3 ++ [info]) s3)) with (log s3 ++ [info]).
  rewrite !List.filter_app, filter_is_output_cons by done.
  rewrite !List.filter_app, filter_is_output_cons by done.
  rewrite (filter_is_output_none pa)
    by (eapply Forall_impl; [exact Hpa|]; by intros []).
  rewrite !filter_is_output_fmap by done.
  cbn [app]. rewrite app_nil_r.
  destruct (done t); [|done].
  by destruct (logging cfg =? 2).
Qed.

End Episode.

(** ** The text of a log record *)

Lemma string_app_assoc (s1 s2 s3 : string) :
  (s1 +:+ s2) +:+ s3 = s1 +:+ (s2 +:+ s3).
Proof.
  induction s1 as [|c s1 IH]; [done|].
  change (String c ((s1 +:+ s2) +:+ s3) = String c (s1 +:+ (s2 +:+ s3))).
  by f_equal.
Qed.

Lemma py_drop_last_snoc (s : string) c :
  py_drop_last (s +:+ String c "") = s.
Proof.
  induction s as [|a s IH]; [done|].
  destruct s as [|b s]; [done|].
  change (String a (py_drop_last (String b s +:+ String c ""))
          = String a (String b s)).
  by rewrite IH.
Qed.

(** The text of a record is the entries [key: text, ] one after the
    other with only the final space cut off, so the text of a record that
    is not empty ends in a comma, and the text of the empty record is
    empty.  An array is written as its rounded elements with single spaces
    between them.  Whether a number is written as a time depends on the
    key alone: of the keys of the environment itself not only [sim_time]
    and [cpu_time] but also [timeout_rate] contain [time], while
    [success_rate] does not. *)
Theorem info_string_shape (f : @Formatter num) :
  _get_info_string f [] = "" ∧
  (∀ info key v,
     _get_info_string f (info ++ [(key, v)])
       = info_entries f info +:+ key +:+ ": " +:+ to_print f key v +:+ ",") ∧
  (∀ key a x,
     to_print f key (VArray (a ++ [x])) = array_elements f a +:+ str_round f x) ∧
  (∀ x, to_print f "timeout_rate" (VNum x)
          = (if above_hundredth f x then str_round f x else format_2e f x) ∧
        to_print f "success_rate" (VNum x) = str_round f x).
Proof.
  split; [done|]. split; [|split; [|done]].
  - intros info key v. unfold _get_info_string, info_entries.
    rewrite foldl_snoc. cbv beta iota.
    change ", " with ("," +:+ " ").
    rewrite <- !string_app_assoc. apply py_drop_last_snoc.
  - intros key a x. unfold to_print, array_elements.
    rewrite foldl_snoc. cbv beta.
    rewrite <- string_app_assoc. apply py_drop_last_snoc.
Qed.

End Calls.

End EnvFacts.

(* ===================================================================== *)
(** * The model on concrete inputs *)
(* ===================================================================== *)

Module Scenarios.
Import Env Examples.

(** [two_robots] is what [__init__] builds. *)
Example init_two_robots logging :
  init (two_robot_args logging) = Ok (two_robots logging).
Proof. reflexivity. Qed.

(** [one_robot] is what [__init__] builds with one robot. *)
Example init_one_robot logging :
  init (one_robot_args logging) = Ok (one_robot logging).
Proof. reflexivity. Qed.

(** After the first step robot 0 is inactive and robot 1 is active. *)
Example after_first_success_active logging :
  logging < 3 → active_robots (after_first_success logging) = Some [false; true].
Proof.
  intros Hl. destruct logging as [|[|[|?]]]; [vm_compute; reflexivity..|lia].
Qed.

(** C2: the failing input. When every attempt collides, [reset] raises
    after 1001 attempts, not after 1000: the guard of line 200 lets the
    attempts numbered 0 to 1000 through. *)
Theorem reset_exhaustion_attempts :
  let outcome := reset (two_robots 0) always_colliding (init_state 0%Z) in
  outcome.2 = Raise (Exception no_start_found) ∧
  attempts outcome.1.1 = 1001.
Proof. vm_compute. done. Qed.

(** C9: the failing input. With logging on and robot 0 inactive, [step]
    raises [IndexError] where it reads [exec_times_cpu[idx]] for every
    robot: the list holds the execution times of the active robots
    only. *)
Theorem step_logging_with_inactive_robot :
  let s := after_first_success 1 in
  active_robots s = Some [false; true] ∧
  (step (two_robots 1) quiet [10; 11; 12; 13; 14]%Z s).2 = Raise IndexError.
Proof. vm_compute. done. Qed.

(** C3 fails as stated: on the environment with one robot of
    dimensionality 2, an action vector of length 1 is not rejected: [step]
    returns, after it has called the world and handed the robot the one
    entry there is.  Likewise with two robots an action vector of length
    3, where the dimensionalities sum to 5. *)
Lemma step_accepts_short_action :
  (let action := [7]%Z in
   let outcome := step (one_robot 0) quiet action (one_robot_after_reset 0) in
   length action ≠ sum_list (action_space_dims (one_robot 0)) ∧
   is_ok outcome.2 = true ∧
   take 2 outcome.1.1 = [WorldUpdate; RobotProcessAction 0 [7]%Z]) ∧
  (let action := [10; 11; 12]%Z in
   let outcome := step (two_robots 0) quiet action (after_reset 0) in
   length action ≠ sum_list (action_space_dims (two_robots 0)) ∧
   is_ok outcome.2 = true ∧
   take 3 outcome.1.1
     = [WorldUpdate; RobotProcessAction 0 [10; 11]%Z; RobotProcessAction 1 [12]%Z]).
Proof. vm_compute. split; (split; [lia|done]). Qed.

(** C4 fails as stated: two sensors that both contribute the key
    [joints] are composed without an error, and the element of the later
    one stands under the key. *)
Lemma colliding_keys_are_merged :
  sensor_observation_space_element joints_sensor !! "joints" = Some (box 6) ∧
  sensor_observation_space_element other_joints_sensor !! "joints" = Some (box 12) ∧
  ∃ cfg : @Config Z,
    init colliding_args = Ok cfg ∧ observation_space cfg !! "joints" = Some (box 12).
Proof. split; [done|]. split; [done|]. eexists. split; [reflexivity|]. done. Qed.

(** C5 fails as stated: before any episode has been completed every stat
    buffer holds one entry, not [min 0 stat_buffer_size = 0].  Nor do the
    buffers count episodes: after one [reset] and two calls of [step] that
    both return [done], one episode has been completed and every buffer
    holds three entries. *)
Lemma stat_buffers_start_with_one_entry :
  (let s0 := init_state 0%Z in
   let s := (run (two_robots 0) [] s0).2 in
   episodes_completed (two_robots 0) [] s0 = 0 ∧
   stat_lengths_are 1 s ∧
   length (success_stat s)
     ≠ episodes_completed (two_robots 0) [] s0 `min` stat_buffer_size (two_robots 0)) ∧
  (let s0 := init_state 0%Z in
   let action := [0; 0]%Z in
   let es := [DoReset quiet; DoStep finishing action; DoStep finishing action] in
   let s := (run (one_robot 0) es s0).2 in
   steps_return (one_robot 0) es s0 = true ∧
   episodes_completed (one_robot 0) es s0 = 1 ∧
   done_returned (one_robot 0) es s0 = 2 ∧
   stat_lengths_are 3 s ∧
   length (success_stat s)
     ≠ episodes_completed (one_robot 0) es s0 `min` stat_buffer_size (one_robot 0) ∧
   length (success_stat s)
     ≠ (episodes_completed (one_robot 0) es s0 + 1)
         `min` stat_buffer_size (one_robot 0)).
Proof. vm_compute. repeat split; lia. Qed.

(** C8 fails as stated: in an attempt the teleport of robot 0 is the call
    after [world.build()], not a call before it. *)
Lemma teleport_comes_after_world_build :
  let calls := (attempt (two_robots 0) quiet 0 (init_state 0%Z)).1.1 in
  calls !! 4 = Some WorldCreateEeStartingPoints ∧
  calls !! 7 = Some WorldBuild ∧
  calls !! 8 = Some (RobotMovetoXyz 0 [0; 0; 1]%Z) ∧
  calls !! 9 = Some WorldPerformCollisionCheck.
Proof. vm_compute. done. Qed.

(** [observation_space_last_wins] on the two sensors that share a key. *)
Lemma observation_space_last_wins_witness :
  length (arg_robots colliding_args) ≤ length (arg_joint_control colliding_args) ∧
  ∃ cfg : @Config Z,
    init colliding_args = Ok cfg ∧
    ∀ k, observation_space cfg !! k =
           last (omap (.!! k)
                   (contributions (arg_sensors colliding_args)
                      (arg_goals colliding_args))).
Proof.
  split; [simpl; lia|].
  apply (EnvFacts.observation_space_last_wins colliding_args). simpl. lia.
Defined.

(** [stat_buffer_lengths] on 26 episodes that each end with success: the
    buffers hold 25 entries. *)
Lemma stat_buffer_lengths_witness :
  0 < stat_buffer_size (two_robots 0) ∧
  episodes_completed (two_robots 0) (episodes 26) (init_state 0%Z) = 26 ∧
  stat_pushes (two_robots 0) (episodes 26) (init_state 0%Z) = 26 ∧
  stat_lengths_are 25 (run (two_robots 0) (episodes 26) (init_state 0%Z)).2.
Proof.
  split; [simpl; lia|]. split; [vm_compute; reflexivity|].
  split; [vm_compute; reflexivity|].
  assert (Hn : (stat_pushes (two_robots 0) (episodes 26) (init_state 0%Z) + 1)
               `min` stat_buffer_size (two_robots 0) = 25)
    by (vm_compute; reflexivity).
  rewrite <- Hn.
  refine (proj1 (EnvFacts.stat_buffer_lengths (two_robots 0) (episodes 26) 0%Z _)).
  simpl. lia.
Defined.


(** [robot_deactivation] on the step in which the goal of robot 0
    succeeds. *)
Lemma robot_deactivation_witness :
  let s := after_reset 0 in
  let s' := (step (two_robots 0) first_succeeds [0; 0; 0; 0; 0]%Z s).1.2 in
  active s 0 = Some true ∧
  active s' 0 = Some false ∧
  ∃ goal, goals (two_robots 0) !! 0 = Some goal ∧
          continue_after_success goal = false ∧
          ri_success (reward_of first_succeeds 0) = true.
Proof.
  intros s s'.
  assert (Hs : active s 0 = Some true) by (vm_compute; reflexivity).
  assert (Hs' : active s' 0 = Some false) by (vm_compute; reflexivity).
  split; [exact Hs|]. split; [exact Hs'|].
  exact (proj1 (EnvFacts.robot_deactivation (two_robots 0))
           first_succeeds [0; 0; 0; 0; 0]%Z s 0 Hs Hs').
Defined.

(** [register_robots_partition] on three robots: the first is put in the
    position partition only, the second in the rotation partition. *)
Lemma register_robots_partition_witness :
  let w' := (World.register_robots [0; 1; 2] three_robots World.init).2 in
  World.robots_with_position w' = [0] ∧
  World.robots_with_orientation w' = [1] ∧
  0 ∉ World.robots_with_orientation w'.
Proof.
  intros w'.
  destruct (WorldFacts.register_robots_partition [0; 1; 2] three_robots World.init)
    as (Hpos & Hori & Hboth & _).
  fold w' in Hpos, Hori.
  assert (Hp : World.robots_with_position w' = [0]) by (rewrite Hpos; reflexivity).
  assert (Ho : World.robots_with_orientation w' = [1]) by (rewrite Hori; reflexivity).
  split; [exact Hp|]. split; [exact Ho|].
  rewrite Hori. apply (Hboth 0); [|reflexivity..].
  apply list_elem_of_here.
Defined.

(** [reset_exhausts_after_1001_attempts] on the world in which every
    attempt collides. *)
Lemma reset_exhausts_after_1001_attempts_witness :
  (∀ k, collision_check always_colliding k = true) ∧
  (∀ k, length (create_ee_starting_points always_colliding k)
        ≤ length (robots (two_robots 0))) ∧
  (reset (two_robots 0) always_colliding (init_state 0%Z)).2
    = Raise (Exception no_start_found) ∧
  attempts (reset (two_robots 0) always_colliding (init_state 0%Z)).1.1 = 1001.
Proof.
  assert (H1 : ∀ k, collision_check always_colliding k = true) by done.
  assert (H2 : ∀ k, length (create_ee_starting_points always_colliding k)
                    ≤ length (robots (two_robots 0))) by (intros; simpl; lia).
  split; [exact H1|]. split; [exact H2|].
  exact (EnvFacts.reset_exhausts_after_1001_attempts (two_robots 0)
           always_colliding (init_state 0%Z) H1 H2).
Defined.

(** [reset_leaves_no_collision] on a reset whose first attempt is free of
    collisions. *)
Lemma reset_leaves_no_collision_witness :
  is_ok (reset (two_robots 0) quiet (init_state 0%Z)).2 = true ∧
  world_collision (reset (two_robots 0) quiet (init_state 0%Z)).1.2 = false.
Proof.
  assert (Hok : is_ok (reset (two_robots 0) quiet (init_state 0%Z)).2 = true)
    by (vm_compute; reflexivity).
  split; [exact Hok|].
  destruct (reset (two_robots 0) quiet (init_state 0%Z)).2 as [obs| e |] eqn:Hrun;
    [|done..].
  exact (EnvFacts.reset_leaves_no_collision (two_robots 0) quiet
           (init_state 0%Z) obs Hrun).
Defined.

(** [slices_while_all_active] on robot 1 of two active robots: it is
    handed the entries [2:5]. *)
Lemma slices_while_all_active_witness :
  let action := [10; 11; 12; 13; 14]%Z in
  active_robots (after_reset 0) = Some [true; true] ∧
  (step (two_robots 0) quiet action (after_reset 0)).1.1 !! 2
    = Some (RobotProcessAction 1 [12; 13; 14]%Z).
Proof.
  intros action.
  assert (Hl : active_robots (after_reset 0) = Some [true; true])
    by (vm_compute; reflexivity).
  split; [exact Hl|].
  refine (EnvFacts.slices_while_all_active (two_robots 0) quiet action
            (after_reset 0) [true; true] 1 3 Hl _ eq_refl _ eq_refl).
  - intros [|[|i]] Hi; [done..|simpl in Hi; lia].
  - simpl. lia.
Defined.

Lemma register_robots_ids_witness :
  NoDup [0; 1; 2] ∧
  World.id ((World.register_robots [0; 1; 2] three_robots World.init).1 2) = 2 ∧
  World.id (three_robots 2) = 7.
Proof.
  assert (Hnd : NoDup [0; 1; 2])
    by (repeat constructor; rewrite ?elem_of_cons, ?elem_of_nil; lia).
  split; [exact Hnd|]. split; [|reflexivity].
  destruct (WorldFacts.register_robots_ids [0; 1; 2] three_robots World.init Hnd)
    as (_ & Hids & _).
  exact (Hids 2 2 eq_refl).
Defined.

Lemma init_action_space_witness :
  init (two_robot_args 0) = Ok (two_robots 0) ∧
  action_space_dims (two_robots 0) !! 1 = Some 3 ∧
  shape (action_space (two_robots 0)) = [5].
Proof.
  assert (Hinit : init (two_robot_args 0) = Ok (two_robots 0)) by reflexivity.
  split; [exact Hinit|].
  destruct (EnvFacts.init_action_space (two_robot_args 0) (two_robots 0) Hinit)
    as (_ & Hdims & Hspace & _).
  split; [exact (Hdims 1 robot_b false eq_refl eq_refl)|].
  rewrite Hspace. reflexivity.
Defined.

Lemma reset_starts_episode_witness :
  let s' := (reset (two_robots 0) quiet (init_state 5%Z)).1.2 in
  is_ok (reset (two_robots 0) quiet (init_state 5%Z)).2 = true ∧
  active_robots s' = Some [true; true] ∧
  steps_current_episode s' = 0 ∧
  goal_metrics s' = [0; 0]%Z.
Proof.
  intros s'.
  assert (Hok : is_ok (reset (two_robots 0) quiet (init_state 5%Z)).2 = true)
    by (vm_compute; reflexivity).
  split; [exact Hok|].
  destruct (reset (two_robots 0) quiet (init_state 5%Z)).2 as [obs| e |] eqn:Hrun;
    [|done..].
  destruct (EnvFacts.reset_starts_episode (two_robots 0) quiet (init_state 5%Z)
              obs Hrun) as (Hact & Htr & Hgm & _).
  fold s' in Hact, Htr, Hgm.
  split; [exact Hact|]. split; [|exact Hgm].
  exact (f_equal (λ x, x.1.1.1.1.1.1) Htr).
Defined.

Lemma reset_returns_at_first_free_attempt_witness :
  (∀ j, j < 2 → collision_check third_attempt_free j = true) ∧
  collision_check third_attempt_free 2 = false ∧
  is_ok (reset (two_robots 0) third_attempt_free (init_state 0%Z)).2 = true ∧
  attempts (reset (two_robots 0) third_attempt_free (init_state 0%Z)).1.1 = 3.
Proof.
  assert (H1 : ∀ j, j < 2 → collision_check third_attempt_free j = true)
    by (intros j Hj; simpl; by apply Nat.ltb_lt).
  assert (H2 : collision_check third_attempt_free 2 = false) by reflexivity.
  split; [exact H1|]. split; [exact H2|].
  refine (EnvFacts.reset_returns_at_first_free_attempt (two_robots 0)
            third_attempt_free (init_state 0%Z) 2 _ H1 H2 _).
  - lia.
  - intros j _. simpl. lia.
Defined.

Lemma step_before_reset_witness :
  active_robots (init_state 0%Z) = None ∧
  step (two_robots 0) quiet [0; 0; 0; 0; 0]%Z (init_state 0%Z)
    = ([WorldUpdate], init_state 0%Z, Raise AttributeError).
Proof.
  split; [reflexivity|].
  apply (EnvFacts.step_before_reset (two_robots 0) quiet); [reflexivity|done].
Defined.

Lemma step_accounting_witness :
  let s := after_reset 0 in
  let s' := (step (two_robots 0) quiet [0; 0; 0; 0; 0]%Z s).1.2 in
  is_ok (step (two_robots 0) quiet [0; 0; 0; 0; 0]%Z s).2 = true ∧
  steps_current_episode s' = steps_current_episode s + 1 ∧
  sim_time s' = (sim_time s + 1)%Z.
Proof.
  intros s s'.
  assert (Hok : is_ok (step (two_robots 0) quiet [0; 0; 0; 0; 0]%Z s).2 = true)
    by (vm_compute; reflexivity).
  split; [exact Hok|].
  destruct (step (two_robots 0) quiet [0; 0; 0; 0; 0]%Z s).2
    as [[[[obs rew] d] info]| e |] eqn:Hrun; [|done..].
  destruct (EnvFacts.step_accounting (two_robots 0) quiet [0; 0; 0; 0; 0]%Z s
              obs rew d info Hrun) as (_ & _ & _ & Hsteps & Hsim & _).
  split; [exact Hsteps|exact Hsim].
Defined.

Lemma step_records_episode_end_witness :
  let s := after_reset 0 in
  let s' := (step (two_robots 0) finishing [0; 0; 0; 0; 0]%Z s).1.2 in
  (step (two_robots 0) finishing [0; 0; 0; 0; 0]%Z s).2 = Ok (∅, 0%Z, true, ∅) ∧
  success_stat s' = [false; true] ∧
  collision_stat s' = [false; false].
Proof.
  intros s s'.
  assert (Hrun : (step (two_robots 0) finishing [0; 0; 0; 0; 0]%Z s).2
                 = Ok (∅, 0%Z, true, ∅)) by (vm_compute; reflexivity).
  split; [exact Hrun|].
  destruct (EnvFacts.step_records_episode_end (two_robots 0) finishing
              [0; 0; 0; 0; 0]%Z s ∅ 0%Z true ∅ Hrun) as (Hs & _ & _ & Hc & _).
  fold s' in Hs, Hc. split; [rewrite Hs|rewrite Hc]; reflexivity.
Defined.

Lemma step_outcome_witness :
  let s := after_first_success 1 in
  active_robots s = Some [false; true] ∧
  (step (two_robots 1) quiet [0; 0; 0; 0; 0]%Z s).2 = Raise IndexError ∧
  steps_current_episode (step (two_robots 1) quiet [0; 0; 0; 0; 0]%Z s).1.2
    = steps_current_episode s + 1.
Proof.
  intros s.
  assert (Hl : active_robots s = Some [false; true]) by (vm_compute; reflexivity).
  split; [exact Hl|].
  destruct (EnvFacts.step_outcome (two_robots 1) quiet [0; 0; 0; 0; 0]%Z s
              [false; true] Hl eq_refl) as (Hr & Hsteps & _);
    [simpl; lia..|].
  split; [|exact Hsteps].
  cbn [logging two_robots] in Hr.
  destruct (decide (false ∈ [false; true])) as [_|Hnot]; [exact Hr|].
  destruct Hnot. apply list_elem_of_here.
Defined.

Lemma step_call_order_witness :
  let s := after_reset 0 in
  active_robots s = Some [true; true] ∧
  ∃ pa rest,
    (step (two_robots 0) quiet [0; 0; 0; 0; 0]%Z s).1.1 =
      WorldUpdate :: pa ++ [SensorUpdate 0; SensorUpdate 1]
      ++ WorldPerformCollisionCheck :: [GoalReward 0 0; GoalReward 1 0] ++ rest ∧
    length pa = 2.
Proof.
  intros s.
  assert (Hl : active_robots s = Some [true; true]) by (vm_compute; reflexivity).
  split; [exact Hl|].
  destruct (EnvFacts.step_call_order (two_robots 0) quiet [0; 0; 0; 0; 0]%Z s
              [true; true] Hl eq_refl) as (pa & rest & Hcalls & _ & Hlen & _);
    [simpl; lia..|].
  exists pa, rest. split; [exact Hcalls|exact Hlen].
Defined.

Lemma step_log_record_witness :
  let s := after_reset 1 in
  active_robots s = Some [true; true] ∧
  ∃ obs rew info,
    (step (two_robots 1) finishing [0; 0; 0; 0; 0]%Z s).2
      = Ok (obs, rew, true, info) ∧
    List.filter is_output (step (two_robots 1) finishing [0; 0; 0; 0; 0]%Z s).1.1
      = [Print info] ∧
    info !! "step" = Some (VInt 1).
Proof.
  intros s.
  assert (Hl : active_robots s = Some [true; true]) by (vm_compute; reflexivity).
  split; [exact Hl|].
  destruct (EnvFacts.step_log_record (two_robots 1) finishing [0; 0; 0; 0; 0]%Z s
              [true; true] Hl eq_refl)
    as (obs & rew & info & Hrun & _ & Hout & _ & Henv);
    [simpl; lia|simpl; lia|by left| |].
  - intros [?|[?|?%elem_of_nil]%elem_of_cons]%elem_of_cons; done.
  - exists obs, rew, info. split; [exact Hrun|]. split; [exact Hout|].
    rewrite (Henv "step"); [| reflexivity |].
    + vm_compute. reflexivity.
    + intros robot _. simpl. discriminate.
Defined.

Lemma episode_steps_return_witness :
  let action := [0; 0; 0; 0; 0]%Z in
  let es := [DoStep first_succeeds action; DoStep finishing action] in
  is_ok (reset (two_robots 0) quiet (init_state 0%Z)).2 = true ∧
  is_ok (step (two_robots 0) quiet action
           (run (two_robots 0) es
              (reset (two_robots 0) quiet (init_state 0%Z)).1.2).2).2 = true.
Proof.
  intros action es.
  assert (Hok : is_ok (reset (two_robots 0) quiet (init_state 0%Z)).2 = true)
    by (vm_compute; reflexivity).
  split; [exact Hok|].
  destruct (reset (two_robots 0) quiet (init_state 0%Z)).2 as [obs| e |] eqn:Hrun;
    [|done..].
  refine (EnvFacts.episode_steps_return (two_robots 0) quiet (init_state 0%Z)
            obs es quiet action _ _ eq_refl Hrun _).
  - simpl. lia.
  - simpl. lia.
  - by repeat constructor.
Defined.

Lemma reset_call_order_witness :
  is_ok (reset (two_robots 0) quiet (init_state 0%Z)).2 = true ∧
  ∃ tries,
    (reset (two_robots 0) quiet (init_state 0%Z)).1.1 =
      PybConfigureRendering false :: tries
      ++ [SensorReset 0; SensorReset 1; GoalOnEnvReset 0 0%Z; GoalOnEnvReset 1 0%Z;
          PybConfigureRendering true;
          SensorGetObservation 0; SensorGetObservation 1;
          GoalGetObservation 0; GoalGetObservation 1] ∧
    0 < attempts tries.
Proof.
  assert (Hok : is_ok (reset (two_robots 0) quiet (init_state 0%Z)).2 = true)
    by (vm_compute; reflexivity).
  split; [exact Hok|].
  destruct (reset (two_robots 0) quiet (init_state 0%Z)).2 as [obs| e |] eqn:Hrun;
    [|done..].
  destruct (EnvFacts.reset_call_order (two_robots 0) quiet (init_state 0%Z)
              obs Hrun) as (tries & Hcalls & Htries & _).
  exists tries. split; [exact Hcalls|exact Htries].
Defined.

Lemma slices_skip_inactive_witness :
  let action := [10; 11; 12; 13; 14]%Z in
  let s := after_first_success 0 in
  active_robots s = Some [false; true] ∧
  (step (two_robots 0) quiet action s).1.1 !! 1
    = Some (RobotProcessAction 1 [10; 11; 12]%Z).
Proof.
  intros action s.
  assert (Hl : active_robots s = Some [false; true]) by (vm_compute; reflexivity).
  split; [exact Hl|].
  refine (EnvFacts.slices_skip_inactive (two_robots 0) quiet action s
            [false; true] 1 3 Hl _ _ _ eq_refl eq_refl); simpl; lia.
Defined.


(** [step_ignores_action_length] on the environment with one robot of
    dimensionality 2 and a vector of length 1: the robot is handed the
    one entry. *)
Lemma step_ignores_action_length_witness :
  let s := one_robot_after_reset 0 in
  let action := [7]%Z in
  active_robots s = Some [true] ∧
  (step (one_robot 0) quiet action s).1.1 !! 1 = Some (RobotProcessAction 0 [7]%Z) ∧
  length (py_slice action 0 2) = 1.
Proof.
  intros s action.
  assert (Hl : active_robots s = Some [true]) by (vm_compute; reflexivity).
  split; [exact Hl|].
  destruct (EnvFacts.step_ignores_action_length (one_robot 0) quiet s action)
    as (_ & _ & Hslice & _).
  destruct (Hslice [true] 0 2 Hl ltac:(simpl; lia) ltac:(simpl; lia)
              ltac:(simpl; lia) eq_refl eq_refl) as (Hcall & Hlen & _).
  split; [exact Hcall|exact Hlen].
Defined.

End Scenarios.
